(** * Video-Grabber-Script: a shallow embedding of [grabber.py]

    The script walks a Google Drive folder tree, and for every video it
    downloads the file, grabs one frame with OpenCV, uploads the frame as a
    thumbnail and appends a row to a Google Sheet.

    The embedding keeps the program's shape: every Python function of
    [grabber.py] that takes part in the traversal is a Rocq function of the
    same name, written in a small state-and-exception monad.  The remote
    services and the local machine (Drive, Sheets, OpenCV, the file system)
    are records of answers, passed where the source passes [drive_service]
    and [sheets_service]; what the program does to them is kept in a
    [World]: the local files, the thumbnails created in Drive, the rows of
    the sheet, and the sequence of calls made.

    Embedded: [append_to_sheet], [process_video] and [traverse_folder],
    and the start-up code: [_load_credentials], [authenticate] and [main].
    The module-level constants are given, not read from the environment.
    Two things are taken for granted: a local file can be written when
    its directory exists, and a request that fails leaves the remote
    service unchanged. *)

From Stdlib Require Import ZArith String Ascii List Bool Lia.
From Stdlib Require Import PrimFloat SpecFloat FloatOps.
From stdpp Require Import gmap strings list fin_maps.

Local Open Scope string_scope.
Local Open Scope list_scope.

(** ** Python values and library functions used by the script *)

Module Py.

(** [str(x)] of an optional string, as an f-string formats it. *)
Definition str (x : option string) : string :=
  match x with
  | Some s => s
  | None => "None"
  end.

(** Truth value of [None], [""] or a string. *)
Definition truthy (x : option string) : bool :=
  match x with
  | Some s => negb (String.eqb s "")
  | None => false
  end.

(** [s.startswith(p)]. *)
Definition startswith (s p : string) : bool := String.prefix p s.

(** [s.rfind(c)] for a one-character [c]: the highest index, or -1. *)
Fixpoint rfind_from (c : ascii) (s : string) (i last : Z) : Z :=
  match s with
  | EmptyString => last
  | String a s' =>
      rfind_from c s' (i + 1)%Z (if Ascii.eqb a c then i else last)
  end.

Definition rfind (s : string) (c : ascii) : Z := rfind_from c s 0%Z (-1)%Z.

(** The [while filenameIndex < dotIndex] loop of [genericpath._splitext]:
    [true] when a character other than the dot is met before [dotIndex]. *)
Fixpoint name_before_dot (p : string) (filenameIndex steps : nat) : bool :=
  match steps with
  | O => false
  | S k =>
      match String.get filenameIndex p with
      | Some c =>
          if Ascii.eqb c "." then name_before_dot p (S filenameIndex) k
          else true
      | None => true
      end
  end.

(** [os.path.splitext(p)] (posixpath: separator "/", extension
    separator "."). *)
Definition splitext (p : string) : string * string :=
  let sepIndex := rfind p "/" in
  let dotIndex := rfind p "." in
  if (sepIndex <? dotIndex)%Z then
    let filenameIndex := Z.to_nat (sepIndex + 1) in
    if name_before_dot p filenameIndex (Z.to_nat dotIndex - filenameIndex)
    then (String.substring 0 (Z.to_nat dotIndex) p,
          String.substring (Z.to_nat dotIndex)
            (String.length p - Z.to_nat dotIndex) p)
    else (p, "")
  else (p, "").

(** Truth value of a float: false exactly for [0.0] and [-0.0]. *)
Definition truthy_float (x : float) : bool := negb (PrimFloat.eqb x 0%float).

(** Why [int(x)] fails on a float. *)
Inductive int_error := IntOfInfinity | IntOfNan.

(** [int(x)] of a float: truncation toward zero. *)
Definition int (x : float) : int_error + Z :=
  match Prim2SF x with
  | S754_zero _ => inr 0%Z
  | S754_finite s m e =>
      inr (if s then (- Z.shiftl (Zpos m) e)%Z else Z.shiftl (Zpos m) e)
  | S754_infinity _ => inl IntOfInfinity
  | S754_nan => inl IntOfNan
  end.

(** [math.floor(x)] of a finite float, the rounding the specification
    names for the frame index; compared with [int] below.  It is not
    called by the script. *)
Definition floor (x : float) : option Z :=
  match Prim2SF x with
  | S754_zero _ => Some 0%Z
  | S754_finite s m e =>
      Some (Z.shiftl (if s then Zneg m else Zpos m) e)
  | _ => None
  end.

(** Sign bit clear and finite: [0 <= x < inf]. *)
Definition nonneg_finite (x : float) : bool :=
  match Prim2SF x with
  | S754_zero _ => true
  | S754_finite s _ _ => negb s
  | _ => false
  end.

End Py.

(** ** Exceptions *)

(** The exception classes that occur in the script: [HttpError] of
    googleapiclient, the two timeouts named next to it in
    [append_to_sheet], and the built-in errors that the local steps raise. *)
Inductive exn :=
| HttpError (status : Z)
| TimeoutError
| SocketTimeout
| OSError
| TypeError
| ValueError
| OverflowError
| RecursionError.

Definition is_HttpError (e : exn) : bool :=
  match e with
  | HttpError _ => true
  | _ => false
  end.

(** [except (HttpError, TimeoutError, SocketTimeout)]. *)
Definition is_append_retryable (e : exn) : bool :=
  match e with
  | HttpError _ | TimeoutError | SocketTimeout => true
  | _ => false
  end.

(** [except Exception]: every class above derives from [Exception]. *)
Definition is_Exception (e : exn) : bool := true.

Definition exn_of_int_error (e : Py.int_error) : exn :=
  match e with
  | Py.IntOfInfinity => OverflowError
  | Py.IntOfNan => ValueError
  end.

(** ** Data *)

Definition bytes := list Byte.byte.

(** A decoded frame. *)
Inductive image := Image (pixels : bytes).

(** A JSON object with string fields, as Drive returns for a file. *)
Abbreviation dict := (gmap string string).

(** A row handed to [append_to_sheet]: the cells are whatever [dict.get]
    returned, so a cell may be [None]. *)
Definition Row := list (option string).

(** What [print] writes, one constructor per [print] call of the functions
    embedded below. *)
Inductive Message :=
| MsgWroteToSheet
| MsgAttemptFailed (attempt : Z) (error : exn)
| MsgMaxRetries
| MsgRetrying (backoff_seconds : Z)
| MsgProcessing (file_name : option string)
| MsgDownload (percent : Z)
| MsgNoFps (file_name : option string)
| MsgNoFrame (file_name : option string)
| MsgUploading (thumbnail_name : string)
| MsgThumbnailCreated (id : option string)
| MsgErrorOccurred (error : exn)
| MsgCleanupWarning (error : exn)
| MsgDataToBeLogged (log_data : option Row).

(** A call that leaves the program, in the order the calls are made. *)
Inductive Event :=
| DriveList (q : string)
| DriveGetMedia (file_id : option string)
| DriveCreate (name : string) (parents : list string)
| SheetsAppend (row : Row)
| Sleep (seconds : Z)
| FileWrite (path : string)
| FileRemove (path : string)
| CapGetFps (path : string)
| CapSetPosFrames (frame_id : Z)
| CapRead
| CapRelease
| Print (m : Message).

(** A file created in Drive by an upload. *)
Record Upload := mkUpload {
  up_name : string;
  up_parents : list string;
  up_media : bytes
}.

(** What the program can change. *)
Record World := mkWorld {
  fs : gmap string bytes;                (* local files, by path *)
  fs_history : list (gmap string bytes); (* the local files after each change *)
  thumbnails : list Upload;              (* files created in Drive *)
  sheet : list Row;                      (* rows of the spreadsheet *)
  events : list Event                    (* calls made so far *)
}.

(** ** The services *)

(** One page of [files().list(...)]: the [files] and [nextPageToken] keys
    of the response, either of which may be missing. *)
Record ListResponse := mkListResponse {
  files : option (list dict);
  nextPageToken : option string
}.

(** The Drive service.  The answers are functions of the request: listings
    are stable. *)
Record DriveService := mkDrive {
  (* files().list(q=q, pageToken=token, ...).execute() *)
  files_list : string -> option string -> exn + ListResponse;
  (* the chunked download of files().get_media(fileId=...): the progress,
     in percent, after each chunk received, and how the download ends *)
  get_media : option string -> list Z * (exn + bytes);
  (* files().create(body={name, parents}, media_body=...).execute() *)
  files_create : string -> list string -> bytes -> exn + dict
}.

(** The Sheets service: the outcome of the n-th append request it receives
    (counted from 0); [None] is success. *)
Record SheetsService := mkSheets {
  values_append : nat -> option exn
}.

(** The module-level configuration and the local machine: OpenCV,
    [os.remove] and the directories there are. *)
Record Host := mkHost {
  THUMBNAIL_FOLDER_ID : string;
  CAPTURE_TIMESTAMP_SECONDS : float;
  (* vidcap.get(cv2.CAP_PROP_FPS) for a capture opened on these contents
     (None: no such file) *)
  cap_fps : option bytes -> float;
  (* vidcap.read() after vidcap.set(cv2.CAP_PROP_POS_FRAMES, frame_id) *)
  cap_read : option bytes -> Z -> bool * option image;
  (* the JPEG encoding cv2.imwrite stores *)
  imencode_jpg : image -> bytes;
  (* the error os.remove raises for a path, if any *)
  os_remove_error : string -> option exn;
  (* os.path.isdir(directory): the script creates and removes no
     directory *)
  os_path_isdir : string -> bool
}.

(** ** The monad: state, and exceptions that keep the state *)

Inductive Outcome (S A : Type) :=
| Returned (a : A) (s : S)
| Raised (e : exn) (s : S).
Arguments Returned {S A} a s.
Arguments Raised {S A} e s.

Definition M (S A : Type) := S -> Outcome S A.

Definition ret {S A} (a : A) : M S A := fun s => Returned a s.

Definition raise {S A} (e : exn) : M S A := fun s => Raised e s.

Definition bind {S A B} (m : M S A) (k : A -> M S B) : M S B :=
  fun s =>
    match m s with
    | Returned a s' => k a s'
    | Raised e s' => Raised e s'
    end.

Declare Scope prog_scope.
Delimit Scope prog_scope with prog.
Notation "'let*' x ':=' m 'in' k" := (bind m (fun x => k))
  (at level 10, x name, m at level 100, k at level 200) : prog_scope.
Notation "m ';;' k" := (bind m (fun _ => k))
  (at level 100, k at level 200, right associativity) : prog_scope.
Local Open Scope prog_scope.

(** [try: body except <catches> as e: handler e]. *)
Definition try_except {S A} (body : M S A) (catches : exn -> bool)
    (handler : exn -> M S A) : M S A :=
  fun s =>
    match body s with
    | Returned a s' => Returned a s'
    | Raised e s' => if catches e then handler e s' else Raised e s'
    end.

(** [try: body finally: final]: [final] runs on every way out of [body];
    an exception of [final] replaces the pending result. *)
Definition try_finally {S A} (body : M S A) (final : M S unit) : M S A :=
  fun s =>
    match body s with
    | Returned a s' =>
        match final s' with
        | Returned _ s'' => Returned a s''
        | Raised e s'' => Raised e s''
        end
    | Raised e s' =>
        match final s' with
        | Returned _ s'' => Raised e s''
        | Raised e' s'' => Raised e' s''
        end
    end.

(** [for x in xs: body x]. *)
Fixpoint for_each {S A} (xs : list A) (body : A -> M S unit) : M S unit :=
  match xs with
  | [] => ret tt
  | x :: xs' => body x ;; for_each xs' body
  end.

(** Local variables of a function that its [finally] clause reads: the
    body runs on the pair of the variables and the world. *)
Definition lift {L A} (m : M World A) : M (L * World) A :=
  fun s =>
    match m (snd s) with
    | Returned a w => Returned a (fst s, w)
    | Raised e w => Raised e (fst s, w)
    end.

Definition get_locals {L} : M (L * World) L := fun s => Returned (fst s) s.

Definition set_locals {L} (f : L -> L) : M (L * World) unit :=
  fun s => Returned tt (f (fst s), snd s).

Definition with_locals {L A} (l0 : L) (m : M (L * World) A) : M World A :=
  fun w =>
    match m (l0, w) with
    | Returned a s => Returned a (snd s)
    | Raised e s => Raised e (snd s)
    end.

(** The value or exception of an outcome, and the state it leaves. *)
Definition result {S A} (o : Outcome S A) : exn + A :=
  match o with
  | Returned a _ => inr a
  | Raised e _ => inl e
  end.

Definition final {S A} (o : Outcome S A) : S :=
  match o with
  | Returned _ s => s
  | Raised _ s => s
  end.

(** ** Calls on the world *)

Definition log_event (e : Event) (w : World) : World :=
  mkWorld (fs w) (fs_history w) (thumbnails w) (sheet w) (events w ++ [e]).

Definition set_fs (f : gmap string bytes) (w : World) : World :=
  mkWorld f (fs_history w ++ [f]) (thumbnails w) (sheet w) (events w).

Definition add_thumbnail (u : Upload) (w : World) : World :=
  mkWorld (fs w) (fs_history w) (thumbnails w ++ [u]) (sheet w) (events w).

Definition add_row (r : Row) (w : World) : World :=
  mkWorld (fs w) (fs_history w) (thumbnails w) (sheet w ++ [r]) (events w).

Definition log_events (es : list Event) (w : World) : World :=
  mkWorld (fs w) (fs_history w) (thumbnails w) (sheet w) (events w ++ es).

Definition emit (e : Event) : M World unit :=
  fun w => Returned tt (log_event e w).

Definition print (m : Message) : M World unit := emit (Print m).

(** [time.sleep(seconds)]. *)
Definition sleep (seconds : Z) : M World unit := emit (Sleep seconds).

(** The append requests the Sheets service has received so far. *)
Fixpoint append_requests (evs : list Event) : nat :=
  match evs with
  | [] => O
  | SheetsAppend _ :: evs' => S (append_requests evs')
  | _ :: evs' => append_requests evs'
  end.

(** [sheets_service.spreadsheets().values().append(..., body=body).execute()]
    with [body = {"values": [row]}]: the request is received; it either
    fails, writing nothing, or adds the row below the others. *)
Definition values_append_execute (sheets_service : SheetsService) (row : Row)
    : M World unit :=
  fun w =>
    let w' := log_event (SheetsAppend row) w in
    match values_append sheets_service (append_requests (events w)) with
    | Some error => Raised error w'
    | None => Returned tt (add_row row w')
    end.

(** [drive_service.files().list(q=query, ...).execute()]: the request
    carries no page token. *)
Definition files_list_execute (drive_service : DriveService) (query : string)
    : M World ListResponse :=
  fun w =>
    let w' := log_event (DriveList query) w in
    match files_list drive_service query None with
    | inl error => Raised error w'
    | inr results => Returned results w'
    end.

(** The download loop: [get_media], then [next_chunk] until done, with a
    progress line after each chunk; an error of [next_chunk] ends it. *)
Definition download (drive_service : DriveService) (file_id : option string)
    : M World bytes :=
  emit (DriveGetMedia file_id) ;;
  for_each (fst (get_media drive_service file_id))
    (fun percent => print (MsgDownload percent)) ;;
  match snd (get_media drive_service file_id) with
  | inl error => raise error
  | inr content => ret content
  end.

(** [drive_service.files().create(body=..., media_body=...).execute()]. *)
Definition files_create_execute (drive_service : DriveService)
    (name : string) (parents : list string) (media : bytes) : M World dict :=
  fun w =>
    let w' := log_event (DriveCreate name parents) w in
    match files_create drive_service name parents media with
    | inl error => Raised error w'
        | inr uploaded =>
        Returned uploaded (add_thumbnail (mkUpload name parents media) w')
    end.

(** The directory and the file name of a path with a "/": what comes
    before and after its last "/". *)
Fixpoint split_at_last_sep (path : string) : option (string * string) :=
  match path with
  | EmptyString => None
  | String c rest =>
      match split_at_last_sep rest with
      | Some (directory, name) => Some (String c directory, name)
      | None => if Ascii.eqb c "/" then Some (EmptyString, rest) else None
      end
  end.

(** Whether a file can be created at [path]: the path names a file of the
    current directory, or a file of a directory that exists.  The other
    ways creating a file can fail (missing rights, a full disk, a name
    that is too long) are left out. *)
Definition can_create (host : Host) (path : string) : bool :=
  match split_at_last_sep path with
  | None => true
  | Some (directory, name) =>
      negb (String.eqb name "")
      && (String.eqb directory "" || os_path_isdir host directory)
  end.

(** [with open(path, "wb") as f: f.write(content)]: [open] raises a
    [FileNotFoundError], an [OSError], when the file cannot be created. *)
Definition write_file (host : Host) (path : string) (content : bytes)
    : M World unit :=
  fun w =>
    if can_create host path then
      Returned tt
        (set_fs (<[path := content]> (fs w)) (log_event (FileWrite path) w))
    else Raised OSError w.

(** [os.path.exists(path)]. *)
Definition os_path_exists (path : string) : M World bool :=
  fun w =>
    Returned (match fs w !! path with Some _ => true | None => false end) w.

(** [os.remove(path)]. *)
Definition os_remove (host : Host) (path : string) : M World unit :=
  fun w =>
    let w' := log_event (FileRemove path) w in
    match os_remove_error host path with
    | Some error => Raised error w'
    | None =>
        match fs w !! path with
        | Some _ => Returned tt (set_fs (delete path (fs w)) w')
        | None => Raised OSError w'
        end
    end.

(** [cv2.VideoCapture(path)]: the capture holds the contents of the file. *)
Definition VideoCapture (path : string) : M World (option bytes) :=
  fun w => Returned (fs w !! path) w.

(** [vidcap.get(cv2.CAP_PROP_FPS)]. *)
Definition vidcap_get_fps (host : Host) (path : string) (vidcap : option bytes)
    : M World float :=
  emit (CapGetFps path) ;; ret (cap_fps host vidcap).

(** [vidcap.set(cv2.CAP_PROP_POS_FRAMES, frame_id)]. *)
Definition vidcap_set_pos_frames (frame_id : Z) : M World unit :=
  emit (CapSetPosFrames frame_id).

(** [vidcap.read()] at the position set. *)
Definition vidcap_read (host : Host) (vidcap : option bytes) (frame_id : Z)
    : M World (bool * option image) :=
  emit CapRead ;; ret (cap_read host vidcap frame_id).

(** [vidcap.release()]. *)
Definition vidcap_release : M World unit := emit CapRelease.

(** [cv2.imwrite(path, image)]: when the file cannot be created it
    writes nothing and returns [False], which the script does not look
    at. *)
Definition imwrite (host : Host) (path : string) (img : image) : M World unit :=
  if can_create host path then write_file host path (imencode_jpg host img)
  else ret tt.

(** [MediaFileUpload(path, ...)]: the file must exist. *)
Definition MediaFileUpload (path : string) : M World bytes :=
  fun w =>
    match fs w !! path with
    | Some content => Returned content w
    | None => Raised OSError w
    end.

(** [path and os.path.exists(path)]. *)
Definition set_and_exists (path : option string) : M World bool :=
  if Py.truthy path then os_path_exists (Py.str path) else ret false.

(** ** The program *)

(** [range(n)]. *)
Definition range (n : nat) : list Z := map Z.of_nat (seq 0 n).

(** [int(x)] raising as Python does. *)
Definition int_of_float {S} (x : float) : M S Z :=
  match Py.int x with
  | inr n => ret n
  | inl e => raise (exn_of_int_error e)
  end.

(** [os.path.splitext(file_name)[0]]; [os.fspath(None)] is a [TypeError]. *)
Definition splitext_stem {S} (file_name : option string) : M S string :=
  match file_name with
  | Some name => ret (fst (Py.splitext name))
  | None => raise TypeError
  end.

(** Truth value of the argument of [append_to_sheet]: [None] and the empty
    sequence are false. *)
Definition row_truthy (data_row : option Row) : bool :=
  match data_row with
  | Some (_ :: _) => true
  | _ => false
  end.

Definition max_retries : Z := 5.

Definition folder_mime : string := "application/vnd.google-apps.folder".

(** The local variables of [process_video] that its [finally] clause
    reads. *)
Record Locals := mkLocals {
  var_temp_video_path : option string;
  var_thumbnail_path : option string
}.

Section Grabber.

Variable host : Host.

(** The [for attempt in range(max_retries)] loop of [append_to_sheet],
    from the attempts still to make and the current [backoff_seconds].
    Leaving the handler without [break] goes on with the next attempt. *)
Fixpoint append_attempts (sheets_service : SheetsService) (row : Row)
    (attempts : list Z) (backoff_seconds : Z) : M World unit :=
  match attempts with
  | [] => ret tt
  | attempt :: attempts' =>
      try_except
        (values_append_execute sheets_service row ;;
         print MsgWroteToSheet ;;
         ret tt)
        is_append_retryable
        (fun error =>
           print (MsgAttemptFailed (attempt + 1) error) ;;
           if (attempt + 1 =? max_retries)%Z then
             print MsgMaxRetries
           else
             print (MsgRetrying backoff_seconds) ;;
             sleep backoff_seconds ;;
             append_attempts sheets_service row attempts' (backoff_seconds * 2))
  end.

Definition append_to_sheet (sheets_service : SheetsService)
    (data_row : option Row) : M World unit :=
  if negb (row_truthy data_row) then ret tt
  else
    append_attempts sheets_service (default [] data_row)
      (range (Z.to_nat max_retries)) 2.

(** The [try] block of [process_video]. *)
Definition process_video_try (drive_service : DriveService)
    (file_id file_name : option string) (folder_path : string)
    : M (Locals * World) (option Row) :=
  let* content := lift (download drive_service file_id) in
  let temp_video_path := "temp_" +:+ Py.str file_name in
  set_locals (fun l => mkLocals (Some temp_video_path) (var_thumbnail_path l)) ;;
  lift (write_file host temp_video_path content) ;;
  let* vidcap := lift (VideoCapture temp_video_path) in
  let* fps := lift (vidcap_get_fps host temp_video_path vidcap) in
  if negb (Py.truthy_float fps) || PrimFloat.eqb fps 0 then
    lift (print (MsgNoFps file_name)) ;;
    lift vidcap_release ;;
    ret None
  else
    let* frame_id :=
      int_of_float (PrimFloat.mul fps (CAPTURE_TIMESTAMP_SECONDS host)) in
    lift (vidcap_set_pos_frames frame_id) ;;
    let* frame := lift (vidcap_read host vidcap frame_id) in
    lift vidcap_release ;;
    match frame with
    | (true, Some img) =>
        let* stem := splitext_stem file_name in
        let thumbnail_name := stem +:+ "_Thumbnail.jpg" in
        let thumbnail_path := "temp_" +:+ thumbnail_name in
        set_locals (fun l => mkLocals (var_temp_video_path l) (Some thumbnail_path)) ;;
        lift (imwrite host thumbnail_path img) ;;
        lift (print (MsgUploading thumbnail_name)) ;;
        let* media := lift (MediaFileUpload thumbnail_path) in
        let* uploaded_thumbnail :=
          lift (files_create_execute drive_service thumbnail_name
                  [THUMBNAIL_FOLDER_ID host] media) in
        lift (print (MsgThumbnailCreated (uploaded_thumbnail !! "id"))) ;;
        ret (Some [uploaded_thumbnail !! "name"; Some folder_path;
                   uploaded_thumbnail !! "webViewLink"])
    | _ =>
        lift (print (MsgNoFrame file_name)) ;;
        ret None
    end.

(** The [finally] block of [process_video], with its own
    [try ... except Exception]. *)
Definition process_video_finally : M (Locals * World) unit :=
  try_except
    (let* l := get_locals in
     let* video_there := lift (set_and_exists (var_temp_video_path l)) in
     (if video_there then lift (os_remove host (Py.str (var_temp_video_path l)))
      else ret tt) ;;
     let* thumbnail_there := lift (set_and_exists (var_thumbnail_path l)) in
     if thumbnail_there then lift (os_remove host (Py.str (var_thumbnail_path l)))
     else ret tt)
    is_Exception
    (fun cleanup_err => lift (print (MsgCleanupWarning cleanup_err))).

(** [try ... except HttpError ...] of [process_video], without the
    [finally] clause. *)
Definition process_video_guarded (drive_service : DriveService)
    (file_id file_name : option string) (folder_path : string)
    : M (Locals * World) (option Row) :=
  try_except
    (process_video_try drive_service file_id file_name folder_path)
    is_HttpError
    (fun error => lift (print (MsgErrorOccurred error)) ;; ret None).

Definition process_video (drive_service : DriveService) (video_file : dict)
    (folder_path : string) : M World (option Row) :=
  let file_id := video_file !! "id" in
  let file_name := video_file !! "name" in
  print (MsgProcessing file_name) ;;
  with_locals (mkLocals None None)
    (try_finally
       (process_video_guarded drive_service file_id file_name folder_path)
       process_video_finally).

(** [query] of [traverse_folder]. *)
Definition children_query (folder_id : option string) : string :=
  "'" +:+ Py.str folder_id +:+ "' in parents and trashed=false".

(** The body of [for item in items], with [traverse] for the recursive
    call. *)
Definition traverse_item
    (traverse : option string -> string -> M World unit)
    (drive_service : DriveService) (sheets_service : SheetsService)
    (current_path : string) (item : dict) : M World unit :=
  let item_path := current_path +:+ "/" +:+ Py.str (item !! "name") in
  let mime := default "" (item !! "mimeType") in
  if String.eqb mime folder_mime then
    traverse (item !! "id") item_path
  else if Py.startswith mime "video/" then
    let* log_data := process_video drive_service item current_path in
    print (MsgDataToBeLogged log_data) ;;
    append_to_sheet sheets_service log_data
  else ret tt.

(** [traverse_folder]; [depth] is the call depth the interpreter still
    allows, and a call beyond it raises [RecursionError]. *)
Fixpoint traverse_folder (depth : nat) (drive_service : DriveService)
    (sheets_service : SheetsService) (folder_id : option string)
    (current_path : string) : M World unit :=
  match depth with
  | O => raise RecursionError
  | S depth' =>
      let query := children_query folder_id in
      try_except
        (let* results := files_list_execute drive_service query in
         let items := default [] (files results) in
         for_each items
           (traverse_item
              (traverse_folder depth' drive_service sheets_service)
              drive_service sheets_service current_path))
        is_HttpError
        (fun error => print (MsgErrorOccurred error))
  end.

End Grabber.

(** ** Start-up: the credentials, [authenticate] and [main] *)

Module Builtins.

(** [s.endswith(suffix)]. *)
Definition endswith (s suffix : string) : bool :=
  Nat.leb (String.length suffix) (String.length s)
  && String.eqb
       (String.substring (String.length s - String.length suffix)
          (String.length suffix) s)
       suffix.

End Builtins.

(** The exceptions of the start-up code: the [RuntimeError]s the script
    raises itself, and the exceptions of the calls it makes. *)
Inductive start_exn :=
| RuntimeError (message : string)
| Other (error : exn).

(** [except HttpError] in [main]. *)
Definition is_start_HttpError (e : start_exn) : bool :=
  match e with
  | Other error => is_HttpError error
  | RuntimeError _ => false
  end.

(** What [json.loads] and the constructors of the credentials return; the
    script passes both on unread. *)
Inductive Info := mkInfo (document : string).

Inductive Credentials := mkCredentials (client_email : string).

(** The service objects as [main] uses them: the calls of the functions
    above, and the one read [main] makes of each. *)
Record DriveClient := mkDriveClient {
  drive_calls : DriveService;
  (* files().get(fileId=..., fields="name", supportsAllDrives=True).execute() *)
  files_get : string -> exn + dict
}.

Record SheetsClient := mkSheetsClient {
  sheets_calls : SheetsService;
  (* spreadsheets().values().get(spreadsheetId=..., range=...).execute()
     when the sheet holds these rows: the "values" key of the result, which
     may be missing *)
  values_get : list Row -> exn + option (list (list string))
}.

(** The module-level configuration read by the start-up code, and the
    libraries it calls. *)
Record Environment := mkEnvironment {
  ENV_SERVICE_ACCOUNT_FILE : option string;
  ENV_SERVICE_ACCOUNT_JSON : option string;
  START_FOLDER_ID : string;
  SPREADSHEET_ID : string;
  (* json.loads(text) *)
  json_loads : string -> exn + Info;
  (* service_account.Credentials.from_service_account_info(info, ...) *)
  from_service_account_info : Info -> exn + Credentials;
  (* service_account.Credentials.from_service_account_file(path, ...), from
     the contents of the file (None: no such file) *)
  from_service_account_file : string -> option bytes -> exn + Credentials;
  (* build("drive", "v3", credentials=creds) *)
  build_drive : Credentials -> exn + DriveClient;
  (* build("sheets", "v4", credentials=creds) *)
  build_sheets : Credentials -> exn + SheetsClient;
  (* the call depth the interpreter allows to traverse_folder *)
  recursion_limit : nat
}.

(** What [main] itself requests and prints. *)
Inductive StartEvent :=
| SheetsValuesGet
| DriveFilesGet (file_id : string)
| PrintCouldNotCheckSheet (error : start_exn)
| PrintStartingScan (root_name : string)
| PrintProcessComplete.

(** The state of a run of [main]: the world of the functions above, and the
    requests and lines of [main] itself, each with the number of calls the
    world had seen when it was made. *)
Record Run := mkRun {
  world : World;
  start_events : list (nat * StartEvent)
}.

Inductive Exit (A : Type) :=
| Finished (a : A) (r : Run)
| Aborted (e : start_exn) (r : Run).
Arguments Finished {A} a r.
Arguments Aborted {A} e r.

Definition Start (A : Type) := Run -> Exit A.

Definition start_ret {A} (a : A) : Start A := fun r => Finished a r.

Definition start_raise {A} (e : start_exn) : Start A := fun r => Aborted e r.

Definition start_bind {A B} (m : Start A) (k : A -> Start B) : Start B :=
  fun r =>
    match m r with
    | Finished a r' => k a r'
    | Aborted e r' => Aborted e r'
    end.

Definition start_try_except {A} (body : Start A) (catches : start_exn -> bool)
    (handler : start_exn -> Start A) : Start A :=
  fun r =>
    match body r with
    | Finished a r' => Finished a r'
    | Aborted e r' => if catches e then handler e r' else Aborted e r'
    end.

(** A call of one of the functions above. *)
Definition call {A} (m : M World A) : Start A :=
  fun r =>
    match m (world r) with
    | Returned a w => Finished a (mkRun w (start_events r))
    | Raised e w => Aborted (Other e) (mkRun w (start_events r))
    end.

(** The answer of a library call that changes nothing. *)
Definition answer {A} (x : exn + A) : Start A :=
  match x with
  | inr a => start_ret a
  | inl error => start_raise (Other error)
  end.

Definition log_start (e : StartEvent) (r : Run) : Run :=
  mkRun (world r)
    (start_events r ++ [(List.length (events (world r)), e)]).

Definition start_emit (e : StartEvent) : Start unit :=
  fun r => Finished tt (log_start e r).

Definition exit_result {A} (o : Exit A) : start_exn + A :=
  match o with
  | Finished a _ => inr a
  | Aborted e _ => inl e
  end.

Definition exit_final {A} (o : Exit A) : Run :=
  match o with
  | Finished _ r => r
  | Aborted _ r => r
  end.

Declare Scope start_scope.
Delimit Scope start_scope with start.
Notation "'let*' x ':=' m 'in' k" := (start_bind m (fun x => k))
  (at level 10, x name, m at level 100, k at level 200) : start_scope.
Notation "m ';;' k" := (start_bind m (fun _ => k))
  (at level 100, k at level 200, right associativity) : start_scope.

(** [not result.get("values")]. *)
Definition values_truthy (values : option (list (list string))) : bool :=
  match values with
  | Some (_ :: _) => true
  | _ => false
  end.

Definition header_row : Row :=
  [Some "Thumbnail Name"; Some "Original Video Path";
   Some "Link to Thumbnail"].

Section Startup.

Local Open Scope start_scope.

Variable host : Host.
Variable env : Environment.

Definition _load_credentials : Start Credentials :=
  if Py.truthy (ENV_SERVICE_ACCOUNT_JSON env) then
    let text := Py.str (ENV_SERVICE_ACCOUNT_JSON env) in
    let* info := answer (json_loads env text) in
    let* creds := answer (from_service_account_info env info) in
    start_ret creds
  else if negb (Py.truthy (ENV_SERVICE_ACCOUNT_FILE env)) then
    start_raise
      (RuntimeError
         "Missing credentials. Set SERVICE_ACCOUNT_JSON or SERVICE_ACCOUNT_FILE.")
  else
    let path := Py.str (ENV_SERVICE_ACCOUNT_FILE env) in
    let* creds :=
      (fun r =>
         answer (from_service_account_file env path (fs (world r) !! path))
           r) in
    start_ret creds.

Definition authenticate : Start (DriveClient * SheetsClient) :=
  let* creds := _load_credentials in
  let* drive_service := answer (build_drive env creds) in
  let* sheets_service := answer (build_sheets env creds) in
  start_ret (drive_service, sheets_service).

(** [sheets_service.spreadsheets().values().get(...).execute()], then
    [result.get("values")]. *)
Definition values_get_execute (sheets_service : SheetsClient)
    : Start (option (list (list string))) :=
  start_emit SheetsValuesGet ;;
  fun r => answer (values_get sheets_service (sheet (world r))) r.

(** [drive_service.files().get(fileId=file_id, ...).execute()]. *)
Definition files_get_execute (drive_service : DriveClient) (file_id : string)
    : Start dict :=
  start_emit (DriveFilesGet file_id) ;;
  answer (files_get drive_service file_id).

(** The three checks at the start of [main]. *)
Definition main_checks : Start unit :=
  (if Builtins.endswith (START_FOLDER_ID env) "_PLACEHOLDER" then
     start_raise
       (RuntimeError "Please set START_FOLDER_ID in your environment.")
   else start_ret tt) ;;
  (if Builtins.endswith (THUMBNAIL_FOLDER_ID host) "_PLACEHOLDER" then
     start_raise
       (RuntimeError "Please set THUMBNAIL_FOLDER_ID in your environment.")
   else start_ret tt) ;;
  (if Builtins.endswith (SPREADSHEET_ID env) "_PLACEHOLDER" then
     start_raise
       (RuntimeError "Please set SPREADSHEET_ID in your environment.")
   else start_ret tt).

(** The [try ... except HttpError] of [main]: the header row. *)
Definition main_header (sheets_service : SheetsClient) : Start unit :=
  start_try_except
    (let* values := values_get_execute sheets_service in
     if negb (values_truthy values) then
       call (append_to_sheet (sheets_calls sheets_service) (Some header_row))
     else start_ret tt)
    is_start_HttpError
    (fun error => start_emit (PrintCouldNotCheckSheet error)).

(** The rest of [main]: the name of the root folder, and the walk. *)
Definition main_scan (drive_service : DriveClient)
    (sheets_service : SheetsClient) : Start unit :=
  let* root_folder := files_get_execute drive_service (START_FOLDER_ID env) in
  let root_name := default "<root>" (root_folder !! "name") in
  start_emit (PrintStartingScan root_name) ;;
  call (traverse_folder host (recursion_limit env)
          (drive_calls drive_service) (sheets_calls sheets_service)
          (Some (START_FOLDER_ID env)) root_name) ;;
  start_emit PrintProcessComplete.

Definition main : Start unit :=
  main_checks ;;
  let* services := authenticate in
  let drive_service := fst services in
  let sheets_service := snd services in
  main_header sheets_service ;;
  main_scan drive_service sheets_service.

End Startup.

(** None of the three identifiers is a placeholder: the checks of [main]
    pass. *)
Definition ids_are_set (host : Host) (env : Environment) : bool :=
  negb (Builtins.endswith (START_FOLDER_ID env) "_PLACEHOLDER")
  && negb (Builtins.endswith (THUMBNAIL_FOLDER_ID host) "_PLACEHOLDER")
  && negb (Builtins.endswith (SPREADSHEET_ID env) "_PLACEHOLDER").

(** Neither variable holds credentials: both are unset or empty. *)
Definition credentials_are_missing (env : Environment) : bool :=
  negb (Py.truthy (ENV_SERVICE_ACCOUNT_JSON env))
  && negb (Py.truthy (ENV_SERVICE_ACCOUNT_FILE env)).

(** ** Reading the sequence of calls *)

(** The requests and waits among the events: what [print] wrote is left
    out. *)
Definition is_print (e : Event) : bool :=
  match e with
  | Print _ => true
  | _ => false
  end.

Definition schedule (evs : list Event) : list Event :=
  List.filter (fun e => negb (is_print e)) evs.

(** The total time slept. *)
Fixpoint total_wait (evs : list Event) : Z :=
  match evs with
  | [] => 0
  | Sleep seconds :: evs' => seconds + total_wait evs'
  | _ :: evs' => total_wait evs'
  end.

(** The requests and waits of an append that fails [failures] times and
    is attempted once more, starting with a wait of [backoff_seconds]. *)
Fixpoint retry_schedule (row : Row) (failures : nat) (backoff_seconds : Z)
    : list Event :=
  match failures with
  | O => [SheetsAppend row]
  | S k =>
      SheetsAppend row :: Sleep backoff_seconds
        :: retry_schedule row k (backoff_seconds * 2)
  end.

(** An event that sends something to Drive's thumbnail folder or to the
    sheet. *)
Definition is_upload_or_append (e : Event) : bool :=
  match e with
  | DriveCreate _ _ | SheetsAppend _ => true
  | _ => false
  end.

Definition is_download (e : Event) : bool :=
  match e with
  | DriveGetMedia _ => true
  | _ => false
  end.

Definition is_file_write (e : Event) : bool :=
  match e with
  | FileWrite _ => true
  | _ => false
  end.

(** The next [k] answers of the Sheets service are errors of the [except]
    clause of [append_to_sheet]. *)
Definition fails_next (sheets_service : SheetsService) (w : World) (k : nat)
    : Prop :=
  forall i, i < k ->
    exists error,
      values_append sheets_service (append_requests (events w) + i)
        = Some error
      /\ is_append_retryable error = true.

(** What a download adds to the calls: the request, then a progress line
    for each chunk. *)
Definition download_log (file_id : option string) (progress : list Z)
    : list Event :=
  DriveGetMedia file_id
    :: map (fun percent => Print (MsgDownload percent)) progress.

(** The paths written, in order. *)
Definition writes_of (evs : list Event) : list Event :=
  List.filter is_file_write evs.

(** The names [process_video] gives its temporary files. *)
Definition temp_video_path_of (file_name : option string) : string :=
  "temp_" +:+ Py.str file_name.

Definition thumbnail_name_of (name : string) : string :=
  fst (Py.splitext name) +:+ "_Thumbnail.jpg".

Definition thumbnail_path_of (name : string) : string :=
  "temp_" +:+ thumbnail_name_of name.

(** Where the [try] block of [process_video] can leave the local
    variables and the local files, from a world [w]: before the path of
    the video is set, with the path set and the video not written
    because it could not be, after the video is written, or after the
    thumbnail is written too. *)
Inductive after_try (host : Host) (w : World) (file_name : option string)
    : Locals * World -> Prop :=
| Stopped_before_write w' :
    fs w' = fs w ->
    fs_history w' = fs_history w ->
    writes_of (events w') = writes_of (events w) ->
    after_try host w file_name (mkLocals None None, w')
| Stopped_at_write w' :
    can_create host (temp_video_path_of file_name) = false ->
    fs w' = fs w ->
    fs_history w' = fs_history w ->
    writes_of (events w') = writes_of (events w) ->
    after_try host w file_name
      (mkLocals (Some (temp_video_path_of file_name)) None, w')
| Stopped_after_video content w' :
    can_create host (temp_video_path_of file_name) = true ->
    fs w' = <[temp_video_path_of file_name := content]> (fs w) ->
    fs_history w' =
      fs_history w ++ [<[temp_video_path_of file_name := content]> (fs w)] ->
    writes_of (events w') =
      writes_of (events w) ++ [FileWrite (temp_video_path_of file_name)] ->
    after_try host w file_name
      (mkLocals (Some (temp_video_path_of file_name)) None, w')
| Stopped_after_thumbnail name content jpg w' :
    file_name = Some name ->
    can_create host (temp_video_path_of file_name) = true ->
    fs w' = <[thumbnail_path_of name := jpg]>
              (<[temp_video_path_of file_name := content]> (fs w)) ->
    fs_history w' =
      fs_history w ++
        [<[temp_video_path_of file_name := content]> (fs w);
         <[thumbnail_path_of name := jpg]>
           (<[temp_video_path_of file_name := content]> (fs w))] ->
    writes_of (events w') =
      writes_of (events w) ++
        [FileWrite (temp_video_path_of file_name);
         FileWrite (thumbnail_path_of name)] ->
    after_try host w file_name
      (mkLocals (Some (temp_video_path_of file_name))
         (Some (thumbnail_path_of name)), w').

(** Local storage [f] holds nothing beyond the files of [base], except
    for at most the temporary video of one file and the temporary
    thumbnail of one file. *)
Definition only_temporaries_added (base f : gmap string bytes) : Prop :=
  exists (file_name : option string) (name : string),
    forall p,
      is_Some (f !! p) ->
      is_Some (base !! p)
      \/ p = temp_video_path_of file_name
      \/ p = thumbnail_path_of name.

(** From [w] to [w']: no file is left that was not there in [w], and at
    every moment in between the storage held at most one temporary video
    and one temporary thumbnail more than in [w]. *)
Definition storage_kept (w w' : World) : Prop :=
  (forall p, is_Some (fs w' !! p) -> is_Some (fs w !! p))
  /\ exists states,
       fs_history w' = fs_history w ++ states
       /\ forall f, In f states -> only_temporaries_added (fs w) f.

Definition keeps_storage {A} (m : M World A) : Prop :=
  forall w, storage_kept w (final (m w)).

(** What the [finally] block of [process_video] may do: remove a file,
    or print the warning. *)
Definition is_cleanup_event (e : Event) : bool :=
  match e with
  | FileRemove _ | Print (MsgCleanupWarning _) => true
  | _ => false
  end.

(** ["/".join(names)]: the path of display names the specification calls
    the original path. *)
Definition join_path (names : list string) : string := String.concat "/" names.

(** Two runs of a program, from the worlds [w1] and [w2], agree: they end
    with the same value or exception, and they add the same files to
    Drive and the same rows to the sheet. *)
Definition agree {A} (o1 o2 : Outcome World A) (w1 w2 : World) : Prop :=
  result o1 = result o2
  /\ exists new_thumbnails new_rows,
       thumbnails (final o1) = thumbnails w1 ++ new_thumbnails
       /\ thumbnails (final o2) = thumbnails w2 ++ new_thumbnails
       /\ sheet (final o1) = sheet w1 ++ new_rows
       /\ sheet (final o2) = sheet w2 ++ new_rows.

(** A program that does not look at the world it starts in: what it
    returns, uploads and appends is the same from any two worlds. *)
Definition oblivious {A} (m : M World A) : Prop :=
  forall w1 w2, agree (m w1) (m w2) w1 w2.

(** An event of [append_to_sheet]: a request to the sheet, a wait, or a
    printed line. *)
Definition is_append_step (e : Event) : bool :=
  match e with
  | SheetsAppend _ | Sleep _ | Print _ => true
  | _ => false
  end.

(** [m] only adds to the remote services and to the calls: from any world
    it appends files [ups] to Drive, rows [rows] to the sheet and calls
    [evs] to the calls made, with [Q ups rows evs]; what was there stays. *)
Definition adds {A} (Q : list Upload -> list Row -> list Event -> Prop)
    (m : M World A) : Prop :=
  forall w, exists ups rows evs,
    thumbnails (final (m w)) = thumbnails w ++ ups
    /\ sheet (final (m w)) = sheet w ++ rows
    /\ events (final (m w)) = events w ++ evs
    /\ Q ups rows evs.

(** The value of [item_path] after going down from [path] through the
    folders [names]. *)
Definition descend (path : string) (names : list string) : string :=
  fold_left (fun p name => p +:+ "/" +:+ name) names path.

(** A row of three cells whose second cell is the path of [path] or of a
    folder below it. *)
Definition row_from (path : string) (row : Row) : Prop :=
  exists cell link names, row = [cell; Some (descend path names); link].

(** The walk of the folder [folder_id], called with the path [path],
    goes down to the folder [below] with the path [below_path]: through
    folders listed on the first page of their parent, the name of each
    appended after a "/". *)
Inductive walks_down (drive_service : DriveService)
    : option string -> string -> option string -> string -> Prop :=
| walks_down_here folder_id path :
    walks_down drive_service folder_id path folder_id path
| walks_down_into folder_id path response item below below_path :
    files_list drive_service (children_query folder_id) None = inr response ->
    In item (default [] (files response)) ->
    default "" (item !! "mimeType") = folder_mime ->
    walks_down drive_service (item !! "id")
      (path +:+ "/" +:+ Py.str (item !! "name")) below below_path ->
    walks_down drive_service folder_id path below below_path.

(** A row for a video listed in a folder that the walk of [folder_id]
    goes down to: the path is that of the folder, and the name and the
    link are those Drive answered when the thumbnail of the video was
    uploaded. *)
Definition row_of_listed_video (host : Host) (drive_service : DriveService)
    (folder_id : option string) (path : string) (row : Row) : Prop :=
  exists below below_path response item name media uploaded,
    walks_down drive_service folder_id path below below_path
    /\ files_list drive_service (children_query below) None = inr response
    /\ In item (default [] (files response))
    /\ Py.startswith (default "" (item !! "mimeType")) "video/" = true
    /\ item !! "name" = Some name
    /\ files_create drive_service (thumbnail_name_of name)
         [THUMBNAIL_FOLDER_ID host] media = inr uploaded
    /\ row = [uploaded !! "name"; Some below_path; uploaded !! "webViewLink"].

(** [m] only adds rows to the sheet, each of them with [R]. *)
Definition adds_rows {A} (R : Row -> Prop) (m : M World A) : Prop :=
  forall w, exists rows,
    sheet (final (m w)) = sheet w ++ rows /\ Forall R rows.



(** A file created in the thumbnail folder, named after a video. *)
Definition is_thumbnail (host : Host) (u : Upload) : Prop :=
  up_parents u = [THUMBNAIL_FOLDER_ID host]
  /\ exists name, up_name u = thumbnail_name_of name.

(** A request that reads the folder tree: a listing or a download. *)
Definition is_drive_read (e : Event) : bool :=
  match e with
  | DriveList _ | DriveGetMedia _ => true
  | _ => false
  end.

(** The requests that read the tree below [folder_id] from the first page
    of each listing, depth-first and in listing order: the listing of the
    folder, then for each entry in turn the requests for a sub-folder or
    the download of a video.  A folder whose listing fails has no
    entries; [depth] bounds the depth of the folders listed. *)
Fixpoint first_page_reads (depth : nat) (drive_service : DriveService)
    (folder_id : option string) : list Event :=
  match depth with
  | O => []
  | S depth' =>
      DriveList (children_query folder_id) ::
      match files_list drive_service (children_query folder_id) None with
      | inl _ => []
      | inr results =>
          flat_map
            (fun item =>
               let mime := default "" (item !! "mimeType") in
               if String.eqb mime folder_mime then
                 first_page_reads depth' drive_service (item !! "id")
               else if Py.startswith mime "video/" then
                 [DriveGetMedia (item !! "id")]
               else [])
            (default [] (files results))
      end
  end.

(** [m] makes the requests [expected] to read the tree, or, when it does
    not return, the first of them. *)
Definition reads (m : M World unit) (expected : list Event) : Prop :=
  forall w, exists new,
    events (final (m w)) = events w ++ new
    /\ List.filter is_drive_read new `prefix_of` expected
    /\ (result (m w) = inr tt -> List.filter is_drive_read new = expected).

(** ** A small Drive, for examples

    The folder "root" holds the folder "Clips", which holds the video
    "a.mp4" (30 frames a second) and the text file "notes.txt".  Other
    folders hold what the examples below need: a listing in two pages, a
    video whose download times out, a folder that cannot be listed, a
    video without a frame rate, and an entry without a MIME type. *)

Module Example.

Definition folder (id name : string) : dict :=
  {[ "id" := id; "name" := name; "mimeType" := folder_mime ]}.

Definition file (id name mime : string) : dict :=
  {[ "id" := id; "name" := name; "mimeType" := mime ]}.

Definition a_mp4 : dict := file "v1" "a.mp4" "video/mp4".
Definition b_mp4 : dict := file "v2" "b.mp4" "video/mp4".
Definition slow_mp4 : dict := file "v_slow" "slow.mp4" "video/mp4".
Definition gone_mp4 : dict := file "v_gone" "gone.mp4" "video/mp4".
Definition still_mp4 : dict := file "v_still" "still.mp4" "video/mp4".
Definition notes_txt : dict := file "n1" "notes.txt" "text/plain".
Definition untyped : dict := {[ "id" := "u1"; "name" := "mystery" ]}.

Definition one_page (items : list dict) : exn + ListResponse :=
  inr (mkListResponse (Some items) None).

Definition listing (q : string) (token : option string)
    : exn + ListResponse :=
  if String.eqb q (children_query (Some "root")) then
    one_page [folder "f1" "Clips"]
  else if String.eqb q (children_query (Some "f1")) then
    one_page [a_mp4; notes_txt]
  else if String.eqb q (children_query (Some "paged")) then
    match token with
    | None => inr (mkListResponse (Some [a_mp4]) (Some "page2"))
    | Some _ => inr (mkListResponse (Some [b_mp4]) None)
    end
  else if String.eqb q (children_query (Some "timeouts")) then
    one_page [slow_mp4; a_mp4]
  else if String.eqb q (children_query (Some "errors")) then
    one_page [folder "f_locked" "Locked"; gone_mp4; a_mp4]
  else if String.eqb q (children_query (Some "stills")) then
    one_page [still_mp4; a_mp4]
  else if String.eqb q (children_query (Some "untyped")) then
    one_page [untyped; a_mp4]
  else inl (HttpError 403).

Definition media (file_id : option string) : list Z * (exn + bytes) :=
  match file_id with
  | Some "v1" => ([100%Z], inr [Byte.x01])
  | Some "v2" => ([50%Z; 100%Z], inr [Byte.x01; Byte.x02])
  | Some "v_still" => ([100%Z], inr [Byte.x00])
  | Some "v_slow" => ([50%Z], inl SocketTimeout)
  | _ => ([], inl (HttpError 404))
  end.

Definition created (name : string) (parents : list string) (media : bytes)
    : exn + dict :=
  inr {[ "id" := "id-of-" +:+ name; "name" := name;
         "webViewLink" := "https://drive.example/" +:+ name ]}.

Definition drive : DriveService := mkDrive listing media created.

(** The host: videos that start with byte 1 run at 30 frames a second
    and have a frame 60; any other file has no frame rate.  The current
    directory has no directory in it. *)
Definition host_with (remove_error : string -> option exn) : Host :=
  mkHost "thumbnails" 2%float
    (fun content =>
       match content with
       | Some (Byte.x01 :: _) => 30%float
       | _ => 0%float
       end)
    (fun content frame_id =>
       if (frame_id =? 60)%Z then (true, Some (Image [Byte.xff]))
       else (false, None))
    (fun img => match img with Image pixels => Byte.xd8 :: pixels end)
    remove_error
    (fun _ => false).

Definition host : Host := host_with (fun _ => None).

(** A host on which "temp_a.mp4" cannot be removed. *)
Definition host_locked_file : Host :=
  host_with (fun path =>
               if String.eqb path "temp_a.mp4" then Some OSError else None).

Definition sheets_ok : SheetsService := mkSheets (fun _ => None).

(** The first four requests get a 503, later ones succeed. *)
Definition sheets_flaky : SheetsService :=
  mkSheets (fun n => if Nat.ltb n 4 then Some (HttpError 503) else None).

Definition sheets_down : SheetsService :=
  mkSheets (fun _ => Some (HttpError 503)).

Definition empty_world : World := mkWorld ∅ [] [] [] [].

Definition a_row : Row :=
  [Some "a_Thumbnail.jpg"; Some "Root/Clips";
   Some "https://drive.example/a_Thumbnail.jpg"].

End Example.

(** ** More examples

    A host whose capture timestamp lies beyond the last frame of the
    videos, a host whose OpenCV reports no number for the frame rate or
    a negative one, a video listed without a name, videos named with a
    "/", a Sheets service that loses the connection on the second
    request, and a folder that lists itself. *)

Module Cases.

Definition host_late : Host :=
  mkHost "thumbnails" 10%float (cap_fps Example.host) (cap_read Example.host)
    (imencode_jpg Example.host) (os_remove_error Example.host)
    (os_path_isdir Example.host).

Definition host_nan : Host :=
  mkHost "thumbnails" 2%float (fun _ => PrimFloat.nan) (cap_read Example.host)
    (imencode_jpg Example.host) (os_remove_error Example.host)
    (os_path_isdir Example.host).

Definition nameless : dict := {[ "id" := "v1"; "mimeType" := "video/mp4" ]}.

(** A host whose OpenCV reports a negative frame rate, with a capture
    timestamp of 2.5 seconds; the videos have a frame at every index. *)
Definition host_negative_rate : Host :=
  mkHost "thumbnails" 2.5%float (fun _ => (-1)%float)
    (fun _ _ => (true, Some (Image [Byte.xff])))
    (imencode_jpg Example.host) (os_remove_error Example.host)
    (os_path_isdir Example.host).

(** Videos whose names hold a "/", as Drive allows: one without a frame
    rate, one with. *)
Definition take_still : dict :=
  Example.file "v_still" "take 1/still.mp4" "video/mp4".

Definition take_a : dict := Example.file "v1" "take 1/a.mp4" "video/mp4".

(** A Drive in which the folder "takes" lists the video without a frame
    rate and "a.mp4", and the folder "cuts" lists the other one and
    "a.mp4"; the other answers are those of the example Drive. *)
Definition drive_takes : DriveService :=
  mkDrive
    (fun q token =>
       if String.eqb q (children_query (Some "takes")) then
         Example.one_page [take_still; Example.a_mp4]
       else if String.eqb q (children_query (Some "cuts")) then
         Example.one_page [take_a; Example.a_mp4]
       else Example.listing q token)
    Example.media Example.created.

(** The first request gets a 503, the second one a connection error that
    is neither an [HttpError] nor a timeout. *)
Definition sheets_disconnecting : SheetsService :=
  mkSheets (fun n => match n with
                     | O => Some (HttpError 503)
                     | _ => Some OSError
                     end).

(** A Drive in which the folder "loop" is listed among its own children;
    the other answers are those of the example Drive. *)
Definition drive_loop : DriveService :=
  mkDrive
    (fun q token =>
       if String.eqb q (children_query (Some "loop")) then
         Example.one_page [Example.notes_txt; Example.folder "loop" "Loop"]
       else Example.listing q token)
    Example.media Example.created.

End Cases.

(** ** A small installation, for examples of [main]

    The Drive of the examples above with a root folder "root" named
    "Root"; a sheet that reports the rows it holds; credentials given as
    JSON. *)

Module Office.

Definition drive : DriveClient :=
  mkDriveClient Example.drive
    (fun file_id =>
       if String.eqb file_id "root" then inr {[ "name" := "Root" ]}
       else inl (HttpError 404)).

Definition sheets : SheetsClient :=
  mkSheetsClient Example.sheets_ok
    (fun rows =>
       inr (match rows with
            | [] => None
            | _ => Some (map (map Py.str) rows)
            end)).

(** A sheet that cannot be read. *)
Definition sheets_unreadable : SheetsClient :=
  mkSheetsClient Example.sheets_ok (fun _ => inl (HttpError 403)).

Definition env_with (start_folder_id : string)
    (service_account_json : option string) (sheets_service : SheetsClient)
    : Environment :=
  mkEnvironment None service_account_json start_folder_id "sheet-1"
    (fun text => inr (mkInfo text))
    (fun info => inr (mkCredentials "grabber@example.iam"))
    (fun path content =>
       match content with
       | Some _ => inr (mkCredentials "grabber@example.iam")
       | None => inl OSError
       end)
    (fun _ => inr drive)
    (fun _ => inr sheets_service)
    5.

Definition env : Environment := env_with "root" (Some "{}") sheets.

(** Nothing is set: the identifiers keep their placeholder defaults. *)
Definition env_unset : Environment :=
  env_with "FOLDER_ID_PLACEHOLDER" None sheets.

(** The identifiers are set, the credentials are not. *)
Definition env_no_credentials : Environment := env_with "root" None sheets.

(** The start folder does not exist. *)
Definition env_wrong_folder : Environment :=
  env_with "nowhere" (Some "{}") sheets.

Definition env_unreadable_sheet : Environment :=
  env_with "root" (Some "{}") sheets_unreadable.

Definition start : Run := mkRun Example.empty_world [].

Definition clip_row : Row :=
  [Some "a_Thumbnail.jpg"; Some "Root/Clips";
   Some "https://drive.example/a_Thumbnail.jpg"].

End Office.

(** Run one step of a program: case on what the next call answers. *)
Ltac step :=
  match goal with
  | |- context [match ?x with _ => _ end] =>
      lazymatch x with
      | context [match _ with _ => _ end] => fail
      | _ => destruct x eqn:?
      end
  end.

Ltac unfold_calls :=
  unfold bind, lift, print, sleep, emit, set_locals, get_locals,
    write_file, VideoCapture, vidcap_get_fps, int_of_float,
    vidcap_set_pos_frames, vidcap_read, vidcap_release, splitext_stem,
    imwrite, write_file,
    MediaFileUpload, files_create_execute, files_list_execute,
    set_and_exists, os_path_exists, os_remove, ret, raise, bind, emit.

Arguments writes_of : simpl never.
Arguments download : simpl never.

(** * Properties *)

Lemma append_requests_app (l1 l2 : list Event) :
  append_requests (l1 ++ l2) = append_requests l1 + append_requests l2.
Proof.
  induction l1 as [|e l1 IH]; simpl; [reflexivity|].
  destruct e; simpl; rewrite IH; reflexivity.
Qed.

Lemma schedule_app (l1 l2 : list Event) :
  schedule (l1 ++ l2) = schedule l1 ++ schedule l2.
Proof. unfold schedule. apply List.filter_app. Qed.

(** ** The paths of the temporary files *)

Lemma string_app_assoc (a b c : string) : (a +:+ b) +:+ c = a +:+ b +:+ c.
Proof.
  induction a as [|x a IH]; [reflexivity|].
  change (String x ((a +:+ b) +:+ c) = String x (a +:+ b +:+ c)).
  rewrite IH. reflexivity.
Qed.

(** [rfind] returns -1 or the index of an occurrence. *)
Lemma rfind_from_found (c : ascii) (s : string) :
  forall i last,
    Py.rfind_from c s i last = last
    \/ (i <= Py.rfind_from c s i last)%Z
       /\ String.get (Z.to_nat (Py.rfind_from c s i last - i)) s = Some c.
Proof.
  induction s as [|a s IH]; intros i last; cbn [Py.rfind_from].
  - left. reflexivity.
  - destruct (IH (i + 1)%Z (if Ascii.eqb a c then i else last))
      as [Heq|[Hle Hget]].
    + rewrite Heq. destruct (Ascii.eqb a c) eqn:Hac; [|left; reflexivity].
      right. split; [lia|]. rewrite Z.sub_diag. cbn.
      apply Ascii.eqb_eq in Hac. subst a. reflexivity.
    + right. split; [lia|].
      set (r := Py.rfind_from c s (i + 1) _) in *.
      replace (Z.to_nat (r - i)) with (S (Z.to_nat (r - (i + 1)))) by lia.
      exact Hget.
Qed.

Lemma length_substring_0 (s : string) :
  forall n c, String.get n s = Some c ->
    String.length (String.substring 0 n s) = n.
Proof.
  induction s as [|a s IH]; intros n c Hget.
  - destruct n; discriminate Hget.
  - destruct n as [|n]; [reflexivity|]. cbn in *. f_equal. exact (IH n c Hget).
Qed.

Lemma get_after_prefix (s1 s2 : string) :
  String.get (String.length s1) (s1 +:+ s2) = String.get 0 s2.
Proof.
  induction s1 as [|a s1 IH]; [reflexivity|exact IH].
Qed.

Lemma string_app_length (s1 s2 : string) :
  String.length (s1 +:+ s2) = String.length s1 + String.length s2.
Proof.
  induction s1 as [|a s1 IH]; [reflexivity|].
  change (S (String.length (s1 +:+ s2))
          = S (String.length s1 + String.length s2)).
  f_equal. exact IH.
Qed.

(** The stem [os.path.splitext] returns is the whole name, or the part of
    it before one of its dots. *)
Lemma splitext_stem_cases (p : string) :
  fst (Py.splitext p) = p
  \/ exists d,
       String.get d p = Some "."%char
       /\ fst (Py.splitext p) = String.substring 0 d p.
Proof.
  unfold Py.splitext, Py.rfind.
  destruct (rfind_from_found "." p 0 (-1)) as [Hnone|[Hle Hget]].
  - rewrite Hnone.
    destruct (rfind_from_found "/" p 0 (-1)) as [-> |[Hle _]].
    + left. reflexivity.
    + destruct (Z.ltb_spec (Py.rfind_from "/" p 0 (-1)) (-1)); [lia|].
      left. reflexivity.
  - set (dotIndex := Py.rfind_from "." p 0 (-1)) in *.
    destruct (_ <? dotIndex)%Z; [|left; reflexivity].
    destruct (Py.name_before_dot _ _ _); [|left; reflexivity].
    right. exists (Z.to_nat dotIndex). split; [|reflexivity].
    rewrite Z.sub_0_r in Hget. exact Hget.
Qed.

(** [rfind] returns the last occurrence. *)
Lemma rfind_from_last (c : ascii) (s : string) :
  forall i last j,
    (last < i)%Z ->
    String.get j s = Some c ->
    (i + Z.of_nat j <= Py.rfind_from c s i last)%Z.
Proof.
  assert (Hmono : forall s i last,
            (last < i)%Z -> (last <= Py.rfind_from c s i last)%Z).
  { clear s. induction s as [|a s IH]; intros i last Hlt; cbn; [lia|].
    destruct (Ascii.eqb a c).
    - specialize (IH (i + 1)%Z i ltac:(lia)). lia.
    - apply IH. lia. }
  induction s as [|a s IH]; intros i last j Hlt Hget.
  - destruct j; discriminate Hget.
  - cbn [Py.rfind_from]. destruct j as [|j].
    + cbn in Hget. injection Hget as ->. rewrite Ascii.eqb_refl.
      specialize (Hmono s (i + 1)%Z i ltac:(lia)). lia.
    + cbn in Hget.
      assert (Hlt' : ((if Ascii.eqb a c then i else last) < i + 1)%Z)
        by (destruct (Ascii.eqb a c); lia).
      specialize (IH (i + 1)%Z _ j Hlt' Hget). lia.
Qed.

Lemma substring_whole (s : string) :
  String.substring 0 (String.length s) s = s.
Proof.
  induction s as [|a s IH]; [reflexivity|]. cbn. f_equal. exact IH.
Qed.

Lemma substring_split (s : string) :
  forall n, n <= String.length s ->
    s = String.substring 0 n s
        +:+ String.substring n (String.length s - n) s.
Proof.
  induction s as [|a s IH]; intros n Hn.
  - destruct n; reflexivity.
  - destruct n as [|n].
    + rewrite Nat.sub_0_r, substring_whole. reflexivity.
    + cbn in Hn.
      change (String a s =
              String a (String.substring 0 n s
                        +:+ String.substring n (String.length s - n) s)).
      f_equal. apply IH. lia.
Qed.

Lemma get_some_length (s : string) :
  forall n c, String.get n s = Some c -> n < String.length s.
Proof.
  induction s as [|a s IH]; intros n c Hget.
  - destruct n; discriminate Hget.
  - destruct n as [|n]; cbn in *; [lia|]. specialize (IH n c Hget). lia.
Qed.

Lemma get_substring_from (s : string) :
  forall n j c,
    String.get j (String.substring n (String.length s - n) s) = Some c ->
    String.get (n + j) s = Some c.
Proof.
  induction s as [|a s IH]; intros n j c Hget.
  - destruct n; destruct j; discriminate Hget.
  - destruct n as [|n].
    + rewrite Nat.sub_0_r, substring_whole in Hget. exact Hget.
    + exact (IH n j c Hget).
Qed.

(** A string without "/" has no directory part, and appending it to a
    path leaves the directory part of the path as it is. *)
Lemma split_at_last_sep_none (s : string) :
  (forall j, String.get j s <> Some "/"%char) -> split_at_last_sep s = None.
Proof.
  induction s as [|a s IH]; intros Hno; [reflexivity|].
  cbn. rewrite IH by (intros j; exact (Hno (S j))).
  destruct (Ascii.eqb a "/") eqn:Ha; [|reflexivity].
  apply Ascii.eqb_eq in Ha. subst a. destruct (Hno 0). reflexivity.
Qed.

Lemma split_at_last_sep_app (p s : string) :
  split_at_last_sep s = None ->
  split_at_last_sep (p +:+ s) =
  match split_at_last_sep p with
  | Some (directory, name) => Some (directory, name +:+ s)
  | None => None
  end.
Proof.
  intros Hs. induction p as [|a p IH]; [exact Hs|].
  change (String a p +:+ s) with (String a (p +:+ s)).
  cbn [split_at_last_sep]. rewrite IH.
  destruct (split_at_last_sep p) as [[directory name]|]; [reflexivity|].
  destruct (Ascii.eqb a "/"); reflexivity.
Qed.

(** [os.path.splitext] cuts a name after its last "/": the name is the
    stem followed by an extension without "/". *)
Lemma splitext_extension (name : string) :
  exists ext,
    name = fst (Py.splitext name) +:+ ext
    /\ split_at_last_sep ext = None.
Proof.
  unfold Py.splitext, Py.rfind.
  set (sepIndex := Py.rfind_from "/" name 0 (-1)).
  set (dotIndex := Py.rfind_from "." name 0 (-1)).
  assert (Hwhole : exists ext,
            name = name +:+ ext /\ split_at_last_sep ext = None).
  { exists "". split; [|reflexivity].
    clear. induction name as [|a s IH]; [reflexivity|].
    change (String a s = String a (s +:+ "")). f_equal. exact IH. }
  destruct (Z.ltb_spec sepIndex dotIndex) as [Hlt|]; [|exact Hwhole].
  destruct (Py.name_before_dot _ _ _); [|exact Hwhole].
  cbn [fst].
  destruct (rfind_from_found "." name 0 (-1)) as [Hnone|[Hle Hget]].
  - fold dotIndex in Hnone.
    destruct (rfind_from_found "/" name 0 (-1)) as [Hn|[Hl _]];
      fold sepIndex in Hn || fold sepIndex in Hl; lia.
  - fold dotIndex in Hle, Hget. rewrite Z.sub_0_r in Hget.
    pose proof (get_some_length _ _ _ Hget) as Hlen.
    exists (String.substring (Z.to_nat dotIndex)
              (String.length name - Z.to_nat dotIndex) name).
    split; [apply substring_split; lia|].
    apply split_at_last_sep_none. intros j Hj.
    apply get_substring_from in Hj.
    pose proof (rfind_from_last "/" name 0 (-1) _ ltac:(lia) Hj) as Hlast.
    fold sepIndex in Hlast. lia.
Qed.

(** The thumbnail lies in the directory of the video: where the video can
    be created, so can the thumbnail. *)
Lemma can_create_thumbnail (host : Host) (name : string) :
  can_create host (temp_video_path_of (Some name)) = true ->
  can_create host (thumbnail_path_of name) = true.
Proof.
  unfold can_create, thumbnail_path_of, thumbnail_name_of, temp_video_path_of.
  cbn [Py.str].
  destruct (splitext_extension name) as (ext & Hname & Hext).
  set (stem := fst (Py.splitext name)) in *.
  rewrite Hname at 1. clear Hname.
  rewrite <- !string_app_assoc.
  rewrite (split_at_last_sep_app ("temp_" +:+ stem) ext Hext).
  rewrite (split_at_last_sep_app ("temp_" +:+ stem) "_Thumbnail.jpg")
    by reflexivity.
  destruct (split_at_last_sep ("temp_" +:+ stem)) as [[directory base]|];
    [|reflexivity].
  intros H. apply andb_prop in H as [_ ->]. rewrite andb_true_r.
  destruct base; reflexivity.
Qed.

(** ** The retry loop of [append_to_sheet] *)

Section AppendToSheet.

Variable sheets_service : SheetsService.
Variable row : Row.

(** The attempt succeeds: the row is written and the function returns. *)
Lemma append_attempts_success attempt attempts backoff w :
  values_append sheets_service (append_requests (events w)) = None ->
  append_attempts sheets_service row (attempt :: attempts) backoff w =
    Returned tt
      (log_event (Print MsgWroteToSheet)
         (add_row row (log_event (SheetsAppend row) w))).
Proof.
  intros Hok. cbn. unfold try_except, bind, values_append_execute.
  rewrite Hok. reflexivity.
Qed.

(** The attempt fails with an error of the [except] clause and it is not
    the last one: wait, double the wait, try again. *)
Lemma append_attempts_retry attempt attempts backoff w error :
  values_append sheets_service (append_requests (events w)) = Some error ->
  is_append_retryable error = true ->
  (attempt + 1)%Z <> max_retries ->
  append_attempts sheets_service row (attempt :: attempts) backoff w =
    append_attempts sheets_service row attempts (backoff * 2)
      (log_event (Sleep backoff)
         (log_event (Print (MsgRetrying backoff))
            (log_event (Print (MsgAttemptFailed (attempt + 1) error))
               (log_event (SheetsAppend row) w)))).
Proof.
  intros Herr Hretry Hne. cbn. unfold try_except, bind, values_append_execute.
  rewrite Herr, Hretry. cbn.
  destruct (attempt + 1 =? max_retries)%Z eqn:E; [apply Z.eqb_eq in E; contradiction|].
  reflexivity.
Qed.

(** The last attempt fails with an error of the [except] clause: the
    loop is left, nothing is raised and nothing is slept. *)
Lemma append_attempts_give_up attempt attempts backoff w error :
  values_append sheets_service (append_requests (events w)) = Some error ->
  is_append_retryable error = true ->
  (attempt + 1)%Z = max_retries ->
  append_attempts sheets_service row (attempt :: attempts) backoff w =
    Returned tt
      (log_event (Print MsgMaxRetries)
         (log_event (Print (MsgAttemptFailed (attempt + 1) error))
            (log_event (SheetsAppend row) w))).
Proof.
  intros Herr Hretry Heq. cbn. unfold try_except, bind, values_append_execute.
  rewrite Herr, Hretry. cbn.
  apply Z.eqb_eq in Heq. rewrite Heq. reflexivity.
Qed.

(** An error outside the [except] clause leaves the function. *)
Lemma append_attempts_propagate attempt attempts backoff w error :
  values_append sheets_service (append_requests (events w)) = Some error ->
  is_append_retryable error = false ->
  append_attempts sheets_service row (attempt :: attempts) backoff w =
    Raised error (log_event (SheetsAppend row) w).
Proof.
  intros Herr Hretry. cbn. unfold try_except, bind, values_append_execute.
  rewrite Herr, Hretry. reflexivity.
Qed.

(** Whatever the service answers, the attempts from number [5 - k] on
    (with [k] of them left) add a prefix of the retry schedule: requests
    separated by doubling waits, and no wait after the last attempt. *)
Lemma append_attempts_schedule (k : nat) :
  forall backoff w, k <= 5 ->
  exists new,
    events (final (append_attempts sheets_service row
                     (map Z.of_nat (seq (5 - k) k)) backoff w))
      = events w ++ new
    /\ schedule new `prefix_of` retry_schedule row (k - 1) backoff
    /\ (k = 0 -> new = []).
Proof.
  induction k as [|k IH]; intros backoff w Hk.
  - exists []. cbn. rewrite app_nil_r. repeat split. apply prefix_nil.
  - replace (5 - S k) with (4 - k) by lia.
    replace (S k - 1) with k by lia.
    cbn [seq map].
    replace (S (4 - k)) with (5 - k) by lia.
    assert (Hone : [SheetsAppend row] `prefix_of` retry_schedule row k backoff).
    { destruct k; cbn; [reflexivity|]. apply prefix_cons, prefix_nil. }
    destruct (values_append sheets_service (append_requests (events w)))
      as [error|] eqn:Hans.
    + destruct (is_append_retryable error) eqn:Hretry.
      * destruct (Z.eq_dec (Z.of_nat (4 - k) + 1)%Z max_retries) as [Hlast|Hmore].
        -- rewrite (append_attempts_give_up _ _ _ _ _ Hans Hretry Hlast).
           eexists. cbn. rewrite <- !app_assoc. split; [reflexivity|].
           split; [exact Hone|discriminate].
        -- rewrite (append_attempts_retry _ _ _ _ _ Hans Hretry Hmore).
           unfold max_retries in Hmore.
           destruct k as [|k]; [cbn in Hmore; lia|].
           destruct (IH (backoff * 2)%Z
                       (log_event (Sleep backoff)
                          (log_event (Print (MsgRetrying backoff))
                             (log_event
                                (Print (MsgAttemptFailed (Z.of_nat (4 - S k) + 1)%Z error))
                                (log_event (SheetsAppend row) w)))))
             as (new & Hev & Hpre & _); [lia|].
           rewrite Hev. eexists. cbn. rewrite <- !app_assoc.
           split; [reflexivity|]. split; [|discriminate].
           replace (S k - 1) with k in Hpre by lia.
           cbn. apply prefix_cons, prefix_cons. exact Hpre.
      * rewrite (append_attempts_propagate _ _ _ _ _ Hans Hretry).
        eexists. cbn. split; [reflexivity|]. split; [exact Hone|discriminate].
    + rewrite (append_attempts_success _ _ _ _ Hans).
      eexists. cbn. rewrite <- !app_assoc. split; [reflexivity|].
      split; [exact Hone|discriminate].
Qed.

(** [k] failures, none on the last attempt, then a success: the row is
    written after the first [k] waits. *)
Lemma append_attempts_fail_then_succeed (k : nat) :
  forall a len backoff w,
    a + k < 5 -> k < len ->
    fails_next sheets_service w k ->
    values_append sheets_service (append_requests (events w) + k) = None ->
    exists new,
      let o := append_attempts sheets_service row
                 (map Z.of_nat (seq a len)) backoff w in
      result o = inr tt
      /\ events (final o) = events w ++ new
      /\ schedule new = retry_schedule row k backoff
      /\ sheet (final o) = sheet w ++ [row]
      /\ thumbnails (final o) = thumbnails w.
Proof.
  induction k as [|k IH]; intros a len backoff w Ha Hlen Hfail Hok.
  - destruct len as [|len]; [lia|]. cbn [seq map].
    rewrite Nat.add_0_r in Hok.
    rewrite (append_attempts_success _ _ _ _ Hok).
    eexists. cbn. rewrite <- !app_assoc. repeat split; reflexivity.
  - destruct len as [|len]; [lia|]. cbn [seq map].
    destruct (Hfail 0) as (error & Herr & Hretry); [lia|].
    rewrite Nat.add_0_r in Herr.
    rewrite (append_attempts_retry _ _ _ _ _ Herr Hretry)
      by (unfold max_retries; lia).
    set (w1 := log_event (Sleep backoff) _).
    assert (Hn : append_requests (events w1) = S (append_requests (events w))).
    { subst w1. cbn. rewrite !append_requests_app. cbn. lia. }
    destruct (IH (S a) len (backoff * 2)%Z w1) as (new & Hres & Hev & Hsch & Hsheet & Hth).
    + lia.
    + lia.
    + intros i Hi. rewrite Hn. destruct (Hfail (S i)) as (e & He & Hr); [lia|].
      exists e. split; [|exact Hr]. rewrite <- He. f_equal. lia.
    + rewrite Hn. rewrite <- Hok. f_equal. lia.
    + cbn zeta in *. rewrite Hres, Hev, Hsheet, Hth. subst w1. cbn.
      exists ([SheetsAppend row;
               Print (MsgAttemptFailed (Z.of_nat a + 1)%Z error);
               Print (MsgRetrying backoff); Sleep backoff] ++ new).
      rewrite <- !app_assoc. rewrite schedule_app, Hsch.
      repeat split; reflexivity.
Qed.

(** Every attempt up to the last one fails: the function returns
    without the row and without a wait after the last failure. *)
Lemma append_attempts_all_fail (len : nat) :
  forall a backoff w,
    a + S len = 5 ->
    fails_next sheets_service w (S len) ->
    exists new,
      let o := append_attempts sheets_service row
                 (map Z.of_nat (seq a (S len))) backoff w in
      result o = inr tt
      /\ events (final o) = events w ++ new
      /\ schedule new = retry_schedule row len backoff
      /\ last new = Some (Print MsgMaxRetries)
      /\ sheet (final o) = sheet w
      /\ thumbnails (final o) = thumbnails w.
Proof.
  induction len as [|len IH]; intros a backoff w Ha Hfail.
  - cbn [seq map].
    destruct (Hfail 0) as (error & Herr & Hretry); [lia|].
    rewrite Nat.add_0_r in Herr.
    rewrite (append_attempts_give_up _ _ _ _ _ Herr Hretry)
      by (unfold max_retries; lia).
    eexists. cbn. rewrite <- !app_assoc. repeat split; reflexivity.
  - cbn [seq map].
    destruct (Hfail 0) as (error & Herr & Hretry); [lia|].
    rewrite Nat.add_0_r in Herr.
    rewrite (append_attempts_retry _ _ _ _ _ Herr Hretry)
      by (unfold max_retries; lia).
    set (w1 := log_event (Sleep backoff) _).
    assert (Hn : append_requests (events w1) = S (append_requests (events w))).
    { subst w1. cbn. rewrite !append_requests_app. cbn. lia. }
    destruct (IH (S a) (backoff * 2)%Z w1)
      as (new & Hres & Hev & Hsch & Hlast & Hsheet & Hth).
    + lia.
    + intros i Hi. rewrite Hn. destruct (Hfail (S i)) as (e & He & Hr); [lia|].
      exists e. split; [|exact Hr]. rewrite <- He. f_equal. lia.
    + cbn zeta in *. cbn [seq map] in *. rewrite Hres, Hev, Hsheet, Hth.
      subst w1. cbn.
      exists ([SheetsAppend row;
               Print (MsgAttemptFailed (Z.of_nat a + 1)%Z error);
               Print (MsgRetrying backoff); Sleep backoff] ++ new).
      rewrite <- !app_assoc. rewrite schedule_app, Hsch.
      split; [reflexivity|]. split; [reflexivity|].
      split; [reflexivity|]. split; [|split; reflexivity].
      destruct new as [|e0 new]; [discriminate|]. exact Hlast.
Qed.

End AppendToSheet.

(** ** The per-video pipeline *)

Lemma for_each_print_progress (progress : list Z) (w : World) :
  for_each progress (fun percent => print (MsgDownload percent)) w =
  Returned tt
    (log_events (map (fun percent => Print (MsgDownload percent)) progress) w).
Proof.
  revert w. induction progress as [|percent progress IH]; intros w.
  - destruct w. cbn. unfold log_events. cbn. rewrite app_nil_r. reflexivity.
  - cbn [for_each map]. unfold bind, print, emit. rewrite IH.
    unfold log_events, log_event. cbn. rewrite <- app_assoc. reflexivity.
Qed.

(** The download ends with the content. *)
Lemma download_returns drive_service file_id progress content w :
  get_media drive_service file_id = (progress, inr content) ->
  download drive_service file_id w =
  Returned content (log_events (download_log file_id progress) w).
Proof.
  intros Hd. unfold download, bind, emit. rewrite Hd. cbn [fst snd].
  rewrite for_each_print_progress. unfold ret, log_events, log_event. cbn.
  rewrite <- app_assoc. reflexivity.
Qed.

(** The download ends with an error. *)
Lemma download_raises drive_service file_id progress error w :
  get_media drive_service file_id = (progress, inl error) ->
  download drive_service file_id w =
  Raised error (log_events (download_log file_id progress) w).
Proof.
  intros Hd. unfold download, bind, emit. rewrite Hd. cbn [fst snd].
  rewrite for_each_print_progress. unfold raise, log_events, log_event. cbn.
  rewrite <- app_assoc. reflexivity.
Qed.

(** Case on how the download ends. *)
Ltac case_download drive_service file_id :=
  let progress := fresh "progress" in
  let error := fresh "error" in
  let content := fresh "content" in
  let Hd := fresh "Hd" in
  destruct (get_media drive_service file_id)
    as [progress [error|content]] eqn:Hd;
  [ rewrite !(download_raises _ _ _ _ _ Hd)
  | rewrite !(download_returns _ _ _ _ _ Hd) ].

Lemma writes_of_app (l1 l2 : list Event) :
  writes_of (l1 ++ l2) = writes_of l1 ++ writes_of l2.
Proof. unfold writes_of. apply List.filter_app. Qed.

Lemma writes_of_download_log file_id progress :
  writes_of (download_log file_id progress) = [].
Proof.
  unfold download_log, writes_of. cbn.
  induction progress as [|percent progress IH]; [reflexivity|exact IH].
Qed.

Lemma temp_video_path_nonempty (file_name : option string) :
  negb (String.eqb (temp_video_path_of file_name) "") = true.
Proof. reflexivity. Qed.

(** The thumbnail can be created once the video has been: the case in
    which it cannot does not arise. *)
Ltac no_thumbnail_failure :=
  match goal with
  | Hthumbnail : can_create ?host (_ +:+ fst (Py.splitext ?s) +:+ _) = false,
    Hvideo : can_create ?host _ = true |- _ =>
      let H := fresh "H" in
      pose proof (can_create_thumbnail host s Hvideo) as H;
      change (can_create host (thumbnail_path_of s) = false) in Hthumbnail;
      rewrite H in Hthumbnail; discriminate Hthumbnail
  end.

Ltac can_write Hcan :=
  let H := fresh "H" in
  pose proof Hcan as H;
  unfold temp_video_path_of, thumbnail_path_of, thumbnail_name_of in H;
  cbn [Py.str] in H; rewrite H; clear H.

Ltac storage_step :=
  cbn; rewrite ?writes_of_app, ?writes_of_download_log; cbn;
  rewrite ?app_nil_r, <- ?app_assoc; reflexivity.

Section ProcessVideo.

Variable host : Host.
Variable drive_service : DriveService.

(** The [finally] block returns, whatever [os.remove] does. *)
Lemma process_video_finally_returns (s : Locals * World) :
  exists s', process_video_finally host s = Returned tt s'.
Proof.
  unfold process_video_finally, try_except.
  destruct (bind _ _ s) as [[] s'|e s'] eqn:E.
  - exists s'. reflexivity.
  - cbn. unfold_calls. eexists. reflexivity.
Qed.

(** So the value or exception of [process_video] is the one its
    [try ... except HttpError] part produced. *)
Lemma process_video_result video_file folder_path w :
  result (process_video host drive_service video_file folder_path w) =
  result (process_video_guarded host drive_service (video_file !! "id")
            (video_file !! "name") folder_path
            (mkLocals None None,
             log_event (Print (MsgProcessing (video_file !! "name"))) w)).
Proof.
  unfold process_video, with_locals, try_finally. unfold_calls. cbn.
  destruct (process_video_guarded _ _ _ _ _ _) as [a s|e s]; cbn;
    destruct (process_video_finally_returns s) as [s' ->]; reflexivity.
Qed.

Lemma process_video_final video_file folder_path w :
  final (process_video host drive_service video_file folder_path w) =
  snd (final (process_video_finally host
    (final (process_video_guarded host drive_service (video_file !! "id")
            (video_file !! "name") folder_path
            (mkLocals None None,
             log_event (Print (MsgProcessing (video_file !! "name"))) w))))).
Proof.
  unfold process_video, with_locals, try_finally. unfold_calls. cbn.
  destruct (process_video_guarded _ _ _ _ _ _) as [a s|e s]; cbn;
    destruct (process_video_finally_returns s) as [s' ->]; reflexivity.
Qed.

(** Where the [try] block leaves the local files. *)
Lemma process_video_guarded_storage file_id file_name folder_path w :
  after_try host w file_name
    (final (process_video_guarded host drive_service file_id file_name
              folder_path (mkLocals None None, w))).
Proof.
  unfold process_video_guarded, try_except, process_video_try.
  unfold_calls. cbn.
  case_download drive_service file_id; cbn.
  all: repeat (step; cbn).
  all: try no_thumbnail_failure.
  all: first
    [ solve [apply Stopped_before_write; storage_step]
    | solve [apply Stopped_at_write; [assumption|..]; storage_step]
    | solve [eapply Stopped_after_video; [assumption|..]; storage_step]
    | solve [eapply Stopped_after_thumbnail; [reflexivity|assumption|..];
             storage_step] ].
Qed.

(** The [finally] block from any of these states, when [os.remove]
    does not fail on the two temporary files and no file was already at
    the path of a temporary video that could not be created: the files
    written are removed, nothing else changes, and no file is written. *)
Lemma process_video_finally_storage w file_name s :
  after_try host w file_name s ->
  (can_create host (temp_video_path_of file_name) = false ->
   fs w !! temp_video_path_of file_name = None) ->
  os_remove_error host (temp_video_path_of file_name) = None ->
  (forall name, file_name = Some name ->
     os_remove_error host (thumbnail_path_of name) = None) ->
  let w' := snd (final (process_video_finally host s)) in
  exists new_writes new_states,
    writes_of (events w') = writes_of (events w) ++ new_writes
    /\ fs_history w' = fs_history w ++ new_states
    /\ (forall p, In (FileWrite p) new_writes -> fs w' !! p = None)
    /\ (forall p, ~ In (FileWrite p) new_writes -> fs w' !! p = fs w !! p)
    /\ (forall f p, In f new_states -> ~ In (FileWrite p) new_writes ->
           f !! p = fs w !! p)
    /\ (new_writes = []
        \/ new_writes = [FileWrite (temp_video_path_of file_name)]
        \/ exists name, file_name = Some name
             /\ new_writes = [FileWrite (temp_video_path_of file_name);
                              FileWrite (thumbnail_path_of name)]).
Proof.
  intros Hs Hfree Hv Ht.
  destruct Hs as [w' Hfs Hh Hw | w' Hno Hfs Hh Hw | content w' _ Hfs Hh Hw
                 | name content jpg w' Hname _ Hfs Hh Hw];
    destruct w' as [f hist th sh ev]; cbn in Hfs, Hh, Hw; subst f hist.
  - exists [], []. cbn. rewrite !app_nil_r.
    split; [exact Hw|]. split; [reflexivity|].
    split; [intros p []|]. split; [reflexivity|].
    split; [intros f p []|left; reflexivity].
  - exists [], [].
    pose proof (Hfree Hno) as Hnone.
    unfold process_video_finally, try_except. unfold_calls. cbn.
    rewrite temp_video_path_nonempty. cbn. rewrite Hnone. cbn.
    rewrite !app_nil_r.
    split; [exact Hw|]. split; [reflexivity|].
    split; [intros p []|]. split; [reflexivity|].
    split; [intros f p []|left; reflexivity].
  - exists [FileWrite (temp_video_path_of file_name)],
      [<[temp_video_path_of file_name := content]> (fs w);
       delete (temp_video_path_of file_name)
         (<[temp_video_path_of file_name := content]> (fs w))].
    unfold process_video_finally, try_except. unfold_calls. cbn.
    rewrite temp_video_path_nonempty. cbn.
    repeat first [rewrite Hv | rewrite lookup_insert_eq | progress cbn].
    rewrite writes_of_app, Hw, <- !app_assoc. cbn.
    split; [reflexivity|].
    split; [reflexivity|].
    split; [intros p [[= <-]|[]]; apply lookup_delete_eq|].
    split.
    { intros p Hp. rewrite lookup_delete_ne, lookup_insert_ne;
        [reflexivity| |]; intros <-; apply Hp; left; reflexivity. }
    split; [|right; left; reflexivity].
        intros f p Hf Hnot.
    assert (temp_video_path_of file_name <> p)
      by (intros <-; apply Hnot; left; reflexivity).
    destruct Hf as [<-|[<-|[]]];
      rewrite ?lookup_delete_ne, ?lookup_insert_ne by assumption;
      reflexivity.
  - subst file_name.
    specialize (Ht name eq_refl).
    set (v := temp_video_path_of (Some name)) in *.
    set (t := thumbnail_path_of name) in *.
    exists [FileWrite v; FileWrite t].
    unfold process_video_finally, try_except. unfold_calls. cbn.
    fold v. fold t.
    replace (negb (String.eqb v "")) with true by reflexivity.
    replace (negb (String.eqb t "")) with true by reflexivity.
    cbn.
    assert (Htdef : t = thumbnail_path_of name) by reflexivity.
    clearbody v t.
    assert (Hsome : exists c, <[t := jpg]> (<[v := content]> (fs w)) !! v = Some c).
    { destruct (decide (t = v)) as [->|n].
      - rewrite lookup_insert_eq. eauto.
      - rewrite lookup_insert_ne, lookup_insert_eq by exact n. eauto. }
    destruct Hsome as [c Hc].
    repeat first [rewrite Hv | rewrite Hc | progress cbn].
    destruct (decide (t = v)) as [Heq|Hne].
    + rewrite Heq in *. clear Heq. rewrite lookup_delete_eq. cbn.
      eexists. rewrite !writes_of_app, Hw, <- !app_assoc. cbn.
      split; [reflexivity|].
      split; [reflexivity|].
      split.
      { intros p [[= <-]|[[= <-]|[]]]; apply lookup_delete_eq. }
      split.
      { intros p Hp.
        assert (v <> p) by (intros <-; apply Hp; left; reflexivity).
        rewrite lookup_delete_ne, !lookup_insert_ne by congruence.
        reflexivity. }
      split; [|right; right; exists name; rewrite <- Htdef;
               split; reflexivity].
            intros f p Hf Hnot.
      assert (v <> p) by (intros <-; apply Hnot; left; reflexivity).
      destruct Hf as [<-|[<-|[<-|[]]]];
        rewrite ?lookup_delete_ne, ?lookup_insert_ne by congruence;
        reflexivity.
    + rewrite lookup_delete_ne, lookup_insert_eq by congruence. cbn.
      rewrite Ht. rewrite lookup_delete_ne, lookup_insert_eq by congruence.
      cbn.
      eexists. rewrite !writes_of_app, Hw, <- !app_assoc. cbn.
      split; [reflexivity|].
      split; [reflexivity|].
      split.
      { intros p [[= <-]|[[= <-]|[]]].
        - rewrite lookup_delete_ne, lookup_delete_eq by congruence.
          reflexivity.
        - apply lookup_delete_eq. }
      split.
      { intros p Hp.
        assert (v <> p) by (intros <-; apply Hp; left; reflexivity).
        assert (t <> p) by (intros <-; apply Hp; right; left; reflexivity).
        rewrite !lookup_delete_ne, !lookup_insert_ne by congruence.
        reflexivity. }
      split; [|right; right; exists name; rewrite <- Htdef;
               split; reflexivity].
            intros f p Hf Hnot.
      assert (v <> p) by (intros <-; apply Hnot; left; reflexivity).
      assert (t <> p) by (intros <-; apply Hnot; right; left; reflexivity).
      destruct Hf as [<-|[<-|[<-|[<-|[]]]]];
        rewrite ?lookup_delete_ne, ?lookup_insert_ne by congruence;
        reflexivity.
Qed.

(** The [finally] block from any of these states, when [os.remove] does
    not fail on the two temporary files: the files written are removed,
    no file is written or added, and nothing else changes, except that a
    file that was already at the path of the temporary video is removed
    too. *)
Lemma process_video_finally_keeps w file_name s :
  after_try host w file_name s ->
  os_remove_error host (temp_video_path_of file_name) = None ->
  (forall name, file_name = Some name ->
     os_remove_error host (thumbnail_path_of name) = None) ->
  let w' := snd (final (process_video_finally host s)) in
  exists new_writes new_states,
    writes_of (events w') = writes_of (events w) ++ new_writes
    /\ fs_history w' = fs_history w ++ new_states
    /\ (forall p, In (FileWrite p) new_writes -> fs w' !! p = None)
    /\ (forall p, ~ In (FileWrite p) new_writes ->
          (p <> temp_video_path_of file_name -> fs w' !! p = fs w !! p)
          /\ (is_Some (fs w' !! p) -> is_Some (fs w !! p)))
    /\ (forall f p, In f new_states -> ~ In (FileWrite p) new_writes ->
          (p <> temp_video_path_of file_name -> f !! p = fs w !! p)
          /\ (is_Some (f !! p) -> is_Some (fs w !! p)))
    /\ (new_writes = []
        \/ new_writes = [FileWrite (temp_video_path_of file_name)]
        \/ exists name, file_name = Some name
             /\ new_writes = [FileWrite (temp_video_path_of file_name);
                              FileWrite (thumbnail_path_of name)]).
Proof.
  intros Hs Hv Ht. cbn zeta.
  destruct (decide (can_create host (temp_video_path_of file_name) = false
                    /\ is_Some (fs w !! temp_video_path_of file_name)))
    as [[Hcan [c Hthere]]|Hfree].
  2: { destruct (process_video_finally_storage w file_name s Hs)
         as (new_writes & new_states & Hw & Hh & Hgone & Hkept & Hany
             & Hshape); [|exact Hv|exact Ht|].
       { intros Hcan. apply eq_None_not_Some. intros Hthere. apply Hfree.
         split; assumption. }
       exists new_writes, new_states.
       split; [exact Hw|]. split; [exact Hh|]. split; [exact Hgone|].
       split; [intros p Hp; rewrite (Hkept p Hp); split; auto|].
       split; [intros f p Hf Hp; rewrite (Hany f p Hf Hp); split; auto|].
       exact Hshape. }
  destruct Hs as [w' Hfs Hh Hw | w' Hno Hfs Hh Hw | content w' Hyes Hfs Hh Hw
                 | name content jpg w' Hname Hyes Hfs Hh Hw];
    try congruence;
    destruct w' as [f hist th sh ev]; cbn in Hfs, Hh, Hw; subst f hist.
  - exists [], []. cbn. rewrite !app_nil_r.
    split; [exact Hw|]. split; [reflexivity|].
    split; [intros p []|]. split; [intros p _; split; auto|].
    split; [intros f p []|left; reflexivity].
  - exists [], [delete (temp_video_path_of file_name) (fs w)].
    unfold process_video_finally, try_except. unfold_calls. cbn.
    rewrite temp_video_path_nonempty. cbn.
    repeat first [rewrite Hv | rewrite Hthere | progress cbn].
    rewrite writes_of_app, Hw. cbn. rewrite !app_nil_r.
    split; [reflexivity|]. split; [reflexivity|].
    split; [intros p []|].
    assert (Hsub : forall p,
              is_Some (delete (temp_video_path_of file_name) (fs w) !! p) ->
              is_Some (fs w !! p)).
    { intros p Hp. apply lookup_delete_is_Some in Hp. apply Hp. }
    split.
    { intros p _. split; [|apply Hsub].
      intros Hne. apply lookup_delete_ne. congruence. }
    split; [|left; reflexivity].
    intros f p [<-|[]] _. split; [|apply Hsub].
    intros Hne. apply lookup_delete_ne. congruence.
Qed.




(** The [finally] block leaves Drive and the sheet alone: all it adds
    to the calls are removals and its warning. *)
Lemma process_video_finally_effects (s : Locals * World) :
  let s' := final (process_video_finally host s) in
  thumbnails (snd s') = thumbnails (snd s)
  /\ sheet (snd s') = sheet (snd s)
  /\ exists new,
       events (snd s') = events (snd s) ++ new
       /\ forallb is_cleanup_event new = true.
Proof.
  destruct s as [l w].
  unfold process_video_finally, try_except. unfold_calls. cbn.
  repeat (step; cbn).
  all: split; [reflexivity|]; split; [reflexivity|].
  all: eexists; rewrite <- ?app_assoc;
    (split; [try reflexivity; symmetry; apply app_nil_r|reflexivity]).
Qed.

(** The frame rate is zero: the [try] block stops after reading it. *)
Lemma process_video_guarded_no_fps file_id file_name folder_path w
    progress content :
  get_media drive_service file_id = (progress, inr content) ->
  can_create host (temp_video_path_of file_name) = true ->
  PrimFloat.eqb (cap_fps host (Some content)) 0 = true ->
  process_video_guarded host drive_service file_id file_name folder_path
    (mkLocals None None, w) =
  Returned None
    (mkLocals (Some (temp_video_path_of file_name)) None,
     log_event CapRelease
       (log_event (Print (MsgNoFps file_name))
          (log_event (CapGetFps (temp_video_path_of file_name))
             (set_fs (<[temp_video_path_of file_name := content]> (fs w))
                (log_event (FileWrite (temp_video_path_of file_name))
                   (log_events (download_log file_id progress) w)))))).
Proof.
  intros Hd Hcan Hfps.
  unfold process_video_guarded, try_except, process_video_try.
  unfold_calls. cbn. rewrite (download_returns _ _ _ _ _ Hd). cbn.
  can_write Hcan. cbn.
  change ("temp_" +:+ Py.str file_name) with (temp_video_path_of file_name).
  rewrite lookup_insert_eq. unfold Py.truthy_float. rewrite Hfps. cbn.
  reflexivity.
Qed.

(** Every step succeeds: the row is returned after the upload. *)
Lemma process_video_guarded_success file_id name folder_path w
    progress content frame_id img uploaded :
  get_media drive_service file_id = (progress, inr content) ->
  can_create host (temp_video_path_of (Some name)) = true ->
  PrimFloat.eqb (cap_fps host (Some content)) 0 = false ->
  Py.int (PrimFloat.mul (cap_fps host (Some content))
            (CAPTURE_TIMESTAMP_SECONDS host)) = inr frame_id ->
  cap_read host (Some content) frame_id = (true, Some img) ->
  files_create drive_service (thumbnail_name_of name)
    [THUMBNAIL_FOLDER_ID host] (imencode_jpg host img) = inr uploaded ->
  let v := temp_video_path_of (Some name) in
  let t := thumbnail_path_of name in
  process_video_guarded host drive_service file_id (Some name) folder_path
    (mkLocals None None, w) =
  Returned
    (Some [uploaded !! "name"; Some folder_path; uploaded !! "webViewLink"])
    (mkLocals (Some v) (Some t),
     log_event (Print (MsgThumbnailCreated (uploaded !! "id")))
       (add_thumbnail
          (mkUpload (thumbnail_name_of name) [THUMBNAIL_FOLDER_ID host]
             (imencode_jpg host img))
          (log_event
             (DriveCreate (thumbnail_name_of name) [THUMBNAIL_FOLDER_ID host])
             (log_event (Print (MsgUploading (thumbnail_name_of name)))
                (set_fs
                   (<[t := imencode_jpg host img]>
                      (<[v := content]> (fs w)))
                   (log_event (FileWrite t)
                      (log_event CapRelease
                         (log_event CapRead
                            (log_event (CapSetPosFrames frame_id)
                               (log_event (CapGetFps v)
                                  (set_fs (<[v := content]> (fs w))
                                     (log_event (FileWrite v)
                                        (log_events
                                           (download_log file_id progress)
                                           w))))))))))))).
Proof.
  intros Hd Hcan Hfps Hint Hread Hup v t.
  pose proof (can_create_thumbnail host name Hcan) as Hcan'.
  unfold process_video_guarded, try_except, process_video_try.
  unfold_calls. cbn. rewrite (download_returns _ _ _ _ _ Hd). cbn.
  can_write Hcan. cbn. fold v.
  rewrite lookup_insert_eq. unfold Py.truthy_float.
  rewrite Hfps. cbn. rewrite Hint. cbn. rewrite Hread. cbn.
  can_write Hcan'. cbn.
  change ("temp_" +:+ (fst (Py.splitext name) +:+ "_Thumbnail.jpg")) with t.
  change (fst (Py.splitext name) +:+ "_Thumbnail.jpg")
    with (thumbnail_name_of name).
  rewrite lookup_insert_eq. rewrite Hup. cbn. reflexivity.
Qed.

(** Once the frame rate is known and converts to a frame index, the
    [try] block seeks to that index and then reads, once. *)
Lemma process_video_guarded_seeks file_id file_name folder_path w
    progress content frame_id :
  get_media drive_service file_id = (progress, inr content) ->
  can_create host (temp_video_path_of file_name) = true ->
  PrimFloat.eqb (cap_fps host (Some content)) 0 = false ->
  Py.int (PrimFloat.mul (cap_fps host (Some content))
            (CAPTURE_TIMESTAMP_SECONDS host)) = inr frame_id ->
  let v := temp_video_path_of file_name in
  exists after,
    events (snd (final (process_video_guarded host drive_service file_id
                          file_name folder_path (mkLocals None None, w)))) =
      events w ++
        download_log file_id progress ++
        [FileWrite v; CapGetFps v; CapSetPosFrames frame_id; CapRead]
        ++ after
    /\ List.filter (fun e => match e with CapRead => true | _ => false end)
         after = [].
Proof.
  intros Hd Hcan Hfps Hint v.
  unfold process_video_guarded, try_except, process_video_try.
  unfold_calls. cbn. rewrite (download_returns _ _ _ _ _ Hd). cbn.
  can_write Hcan. cbn. fold v.
  rewrite lookup_insert_eq. unfold Py.truthy_float.
  rewrite Hfps. cbn. rewrite Hint. cbn.
  repeat (step; cbn).
  all: eexists; rewrite <- ?app_assoc; cbn;
    (split; [try reflexivity; rewrite app_nil_r; reflexivity|reflexivity]).
Qed.

End ProcessVideo.

(** On every way out of [process_video] (a returned row, a returned
    [None], or an exception that leaves the function), when [os.remove]
    does not fail on the two temporary files, every file written during
    the call is gone when the call ends, no file is added, and every
    other file is as it was, except that a file that was already at the
    path of the temporary video may be removed; the files written are at
    most the temporary video and the temporary thumbnail, one of each,
    and at every moment of the call the local storage differs from the
    storage at entry only at files written by the call and at that
    path. *)
Lemma process_video_storage
    (host : Host) (drive_service : DriveService) (video_file : dict)
    (folder_path : string) (w : World) :
  let file_name := video_file !! "name" in
  os_remove_error host (temp_video_path_of file_name) = None ->
  (forall name, file_name = Some name ->
     os_remove_error host (thumbnail_path_of name) = None) ->
  let w' := final (process_video host drive_service video_file folder_path w) in
  exists new_writes new_states,
    writes_of (events w') = writes_of (events w) ++ new_writes
    /\ fs_history w' = fs_history w ++ new_states
    /\ (forall p, In (FileWrite p) new_writes -> fs w' !! p = None)
    /\ (forall p, ~ In (FileWrite p) new_writes ->
          (p <> temp_video_path_of file_name -> fs w' !! p = fs w !! p)
          /\ (is_Some (fs w' !! p) -> is_Some (fs w !! p)))
    /\ (forall f p, In f new_states -> ~ In (FileWrite p) new_writes ->
          (p <> temp_video_path_of file_name -> f !! p = fs w !! p)
          /\ (is_Some (f !! p) -> is_Some (fs w !! p)))
    /\ (new_writes = []
        \/ new_writes = [FileWrite (temp_video_path_of file_name)]
        \/ exists name, file_name = Some name
             /\ new_writes = [FileWrite (temp_video_path_of file_name);
                              FileWrite (thumbnail_path_of name)]).
Proof.
  intros file_name Hv Ht w'. subst w'.
  rewrite process_video_final.
  pose proof (process_video_guarded_storage host drive_service
                (video_file !! "id") file_name folder_path
                (log_event (Print (MsgProcessing file_name)) w)) as Hs.
  destruct (process_video_finally_keeps host _ _ _ Hs Hv Ht)
    as (new_writes & new_states & Hw & Hh & Hgone & Hkept & Hany & Hshape).
  exists new_writes, new_states.
  cbn in Hw, Hh, Hkept, Hany.
  rewrite writes_of_app in Hw. cbn in Hw. rewrite app_nil_r in Hw.
  repeat split; try assumption.
  - apply (Hkept p); assumption.
  - apply (Hkept p); assumption.
  - apply (Hany f p); assumption.
  - apply (Hany f p); assumption.
Qed.

(** ** Local storage during the walk *)

Lemma storage_kept_same (w w' : World) :
  fs w' = fs w -> fs_history w' = fs_history w -> storage_kept w w'.
Proof.
  intros Hfs Hh. split; [rewrite Hfs; auto|].
  exists []. rewrite Hh, app_nil_r. split; [reflexivity|]. intros f [].
Qed.

Lemma storage_kept_trans (w w' w'' : World) :
  storage_kept w w' -> storage_kept w' w'' -> storage_kept w w''.
Proof.
  intros (Hsub & states & Hh & Hbound) (Hsub' & states' & Hh' & Hbound').
  split; [auto|].
  exists (states ++ states'). rewrite Hh', Hh, <- app_assoc.
  split; [reflexivity|].
  intros f Hf. apply in_app_or in Hf as [Hf|Hf]; [auto|].
    destruct (Hbound' f Hf) as (file_name & name & Hvt).
  exists file_name, name.
  intros p Hp. destruct (Hvt p Hp) as [Hp'|Hp']; auto.
Qed.

Lemma keeps_storage_ret {A} (a : A) : keeps_storage (ret a).
Proof. intros w. apply storage_kept_same; reflexivity. Qed.

Lemma keeps_storage_raise {A} (e : exn) : keeps_storage (raise e : M World A).
Proof. intros w. apply storage_kept_same; reflexivity. Qed.

Lemma keeps_storage_emit (e : Event) : keeps_storage (emit e).
Proof. intros w. apply storage_kept_same; reflexivity. Qed.

Lemma keeps_storage_bind {A B} (m : M World A) (k : A -> M World B) :
  keeps_storage m -> (forall a, keeps_storage (k a)) ->
  keeps_storage (bind m k).
Proof.
  intros Hm Hk w. specialize (Hm w). unfold bind.
  destruct (m w) as [a w'|e w']; cbn in Hm |- *; [|exact Hm].
  eapply storage_kept_trans; [exact Hm|apply Hk].
Qed.

Lemma keeps_storage_try_except {A} (m : M World A) (catches : exn -> bool)
    (handler : exn -> M World A) :
  keeps_storage m -> (forall e, keeps_storage (handler e)) ->
  keeps_storage (try_except m catches handler).
Proof.
  intros Hm Hh w. specialize (Hm w). unfold try_except.
  destruct (m w) as [a w'|e w']; cbn in Hm |- *; [exact Hm|].
  destruct (catches e); [|exact Hm].
  eapply storage_kept_trans; [exact Hm|apply Hh].
Qed.

Lemma keeps_storage_for_each {A} (xs : list A) (body : A -> M World unit) :
  (forall x, keeps_storage (body x)) -> keeps_storage (for_each xs body).
Proof.
  intros Hbody. induction xs as [|x xs IH]; cbn [for_each].
  - apply keeps_storage_ret.
  - apply keeps_storage_bind; [apply Hbody|]. intros _. exact IH.
Qed.

Lemma keeps_storage_files_list_execute drive_service query :
  keeps_storage (files_list_execute drive_service query).
Proof.
  intros w. unfold files_list_execute.
  destruct (files_list drive_service query None);
    apply storage_kept_same; reflexivity.
Qed.

Lemma keeps_storage_values_append_execute sheets_service row :
  keeps_storage (values_append_execute sheets_service row).
Proof.
  intros w. unfold values_append_execute.
  destruct (values_append sheets_service _);
    apply storage_kept_same; reflexivity.
Qed.

Lemma keeps_storage_append_to_sheet sheets_service data_row :
  keeps_storage (append_to_sheet sheets_service data_row).
Proof.
  unfold append_to_sheet.
  destruct (negb (row_truthy data_row)); [apply keeps_storage_ret|].
  generalize (default [] data_row) as row.
  generalize (range (Z.to_nat max_retries)) as attempts.
  generalize 2%Z as backoff.
  intros backoff attempts. revert backoff.
  induction attempts as [|attempt attempts IH]; intros backoff row;
    cbn [append_attempts].
  - apply keeps_storage_ret.
  - apply keeps_storage_try_except.
    + apply keeps_storage_bind;
        [apply keeps_storage_values_append_execute|].
      intros _. apply keeps_storage_bind; [apply keeps_storage_emit|].
      intros _. apply keeps_storage_ret.
    + intros e. apply keeps_storage_bind; [apply keeps_storage_emit|].
      intros _. destruct (attempt + 1 =? max_retries)%Z;
        [apply keeps_storage_emit|].
      apply keeps_storage_bind; [apply keeps_storage_emit|].
      intros _. apply keeps_storage_bind; [apply keeps_storage_emit|].
      intros _. apply IH.
Qed.

(** When [os.remove] does not fail, [process_video] leaves no file behind
    and holds at most its two temporary files at any moment. *)
Lemma keeps_storage_process_video host drive_service video_file folder_path :
  (forall p, os_remove_error host p = None) ->
  keeps_storage (process_video host drive_service video_file folder_path).
Proof.
  intros Hremove w.
  destruct (process_video_storage host drive_service video_file folder_path w
              (Hremove _) (fun name _ => Hremove _))
    as (new_writes & new_states & _ & Hh & Hgone & Hkept & Hany & Hshape).
    set (v := temp_video_path_of (video_file !! "name")) in *.
  assert (Hwritten : exists name, forall p,
             In (FileWrite p) new_writes ->
             p = v \/ p = thumbnail_path_of name).
  { destruct Hshape as [->|[->|(name & _ & ->)]].
    - exists "". intros p [].
    - exists "". intros p [[= <-]|[]]. left. reflexivity.
    - exists name.
      intros p [[= <-]|[[= <-]|[]]]; [left|right]; reflexivity. }
  destruct Hwritten as [thumbnail_of Hwritten].
  assert (Hdec : forall p, In (FileWrite p) new_writes
                           \/ ~ In (FileWrite p) new_writes).
  { intros p. destruct Hshape as [->|[->|(name & _ & ->)]]; cbn.
    - right. tauto.
    - destruct (decide (v = p)) as [->|n]; [left; auto|].
      right. intros [[= E]|[]]. contradiction.
    - destruct (decide (v = p)) as [->|n]; [left; auto|].
      destruct (decide (thumbnail_path_of name = p)) as [<-|n'];
        [left; auto|].
      right. intros [[= E]|[[= E]|[]]]; contradiction. }
  split.
  - intros p Hp. destruct (Hdec p) as [Hin|Hout].
    + rewrite (Hgone p Hin) in Hp. destruct Hp as [? [=]].
    + exact (proj2 (Hkept p Hout) Hp).
  - exists new_states. split; [exact Hh|].
        intros f Hf. exists (video_file !! "name"), thumbnail_of. intros p Hp.
    destruct (Hdec p) as [Hin|Hout].
    + right. apply Hwritten. exact Hin.
    + left. exact (proj2 (Hany f p Hf Hout) Hp).
Qed.

Lemma keeps_storage_traverse_folder host depth drive_service sheets_service :
  (forall p, os_remove_error host p = None) ->
  forall folder_id current_path,
    keeps_storage (traverse_folder host depth drive_service sheets_service
                     folder_id current_path).
Proof.
  intros Hremove. induction depth as [|depth IH]; intros folder_id current_path.
  - apply keeps_storage_raise.
  - cbn [traverse_folder]. apply keeps_storage_try_except.
    + apply keeps_storage_bind; [apply keeps_storage_files_list_execute|].
      intros results. apply keeps_storage_for_each. intros item.
      unfold traverse_item.
      destruct (String.eqb _ folder_mime); [apply IH|].
      destruct (Py.startswith _ _); [|apply keeps_storage_ret].
      apply keeps_storage_bind;
        [apply keeps_storage_process_video; exact Hremove|].
      intros log_data. apply keeps_storage_bind; [apply keeps_storage_emit|].
      intros _. apply keeps_storage_append_to_sheet.
    + intros e. apply keeps_storage_emit.
Qed.

(** C3: when [os.remove] does not fail.  On every way out of
    [process_video] (a returned row, a returned [None], or an exception
    that leaves the function), every file written during the call is gone
    when the call ends, no file is added, and every other file is as it
    was, except that a file that was already at the path of the temporary
    video may be removed; the files written are at most the temporary
    video and the temporary thumbnail, one of each; and at every moment
    of the call the storage differs from the storage at entry only at
    files written by the call and at that path.  Over a whole walk, no
    file is left that was not there before, and at every moment the
    storage holds, beyond what was there before the walk, at most one
    temporary video and one temporary thumbnail. *)
Theorem temporary_files_are_removed
    (host : Host) (drive_service : DriveService)
    (sheets_service : SheetsService) (w : World) :
  (forall p, os_remove_error host p = None) ->
  (forall video_file folder_path,
     let file_name := video_file !! "name" in
     let w' :=
       final (process_video host drive_service video_file folder_path w) in
     exists new_writes new_states,
       writes_of (events w') = writes_of (events w) ++ new_writes
       /\ fs_history w' = fs_history w ++ new_states
       /\ (forall p, In (FileWrite p) new_writes -> fs w' !! p = None)
       /\ (forall p, ~ In (FileWrite p) new_writes ->
             (p <> temp_video_path_of file_name -> fs w' !! p = fs w !! p)
             /\ (is_Some (fs w' !! p) -> is_Some (fs w !! p)))
       /\ (forall f p, In f new_states -> ~ In (FileWrite p) new_writes ->
             (p <> temp_video_path_of file_name -> f !! p = fs w !! p)
             /\ (is_Some (f !! p) -> is_Some (fs w !! p)))
       /\ (new_writes = []
           \/ new_writes = [FileWrite (temp_video_path_of file_name)]
           \/ exists name, file_name = Some name
                /\ new_writes = [FileWrite (temp_video_path_of file_name);
                                 FileWrite (thumbnail_path_of name)]))
  /\ (forall depth folder_id current_path,
        let w' :=
          final (traverse_folder host depth drive_service sheets_service
                   folder_id current_path w) in
        (forall p, is_Some (fs w' !! p) -> is_Some (fs w !! p))
        /\ exists states,
             fs_history w' = fs_history w ++ states
             /\ forall f, In f states -> only_temporaries_added (fs w) f).
Proof.
  intros Hremove. split.
  - intros video_file folder_path.
    apply process_video_storage; [apply Hremove|].
    intros name _. apply Hremove.
  - intros depth folder_id current_path.
    apply (keeps_storage_traverse_folder host depth drive_service
             sheets_service Hremove folder_id current_path w).
Qed.

(** In the example, "temp_a.mp4" and "temp_a_Thumbnail.jpg" are written and
    both are gone when [process_video] returns; after the walk of "root"
    the local storage is empty again. *)
Lemma temporary_files_are_removed_example :
  (forall p, os_remove_error Example.host p = None)
  /\ (let w' := final (process_video Example.host Example.drive Example.a_mp4
                        "Root/Clips" Example.empty_world) in
      writes_of (events w') =
        [FileWrite "temp_a.mp4"; FileWrite "temp_a_Thumbnail.jpg"]
      /\ fs w' !! "temp_a.mp4" = None
      /\ fs w' !! "temp_a_Thumbnail.jpg" = None)
  /\ (let w' := final (traverse_folder Example.host 5 Example.drive
                        Example.sheets_ok (Some "root") "Root"
                        Example.empty_world) in
      forall p, fs w' !! p = None).
Proof.
  assert (Hremove : forall p, os_remove_error Example.host p = None)
    by reflexivity.
  destruct (temporary_files_are_removed Example.host Example.drive
              Example.sheets_ok Example.empty_world Hremove)
    as [Hcall Hwalk].
  split; [exact Hremove|]. split.
  - destruct (Hcall Example.a_mp4 "Root/Clips")
      as (new_writes & new_states & Hw & _ & Hgone & _).
    cbn zeta.
    assert (Hnew : new_writes =
                     [FileWrite "temp_a.mp4"; FileWrite "temp_a_Thumbnail.jpg"]).
    { pose proof Hw as Hw'. vm_compute in Hw'. symmetry. exact Hw'. }
    rewrite Hw, Hnew. split; [reflexivity|].
    split; apply Hgone; rewrite Hnew; cbn; auto.
  - cbn zeta. intros p.
    destruct (Hwalk 5 (Some "root") "Root") as [Hsub _].
    apply eq_None_not_Some. intros Hp. apply Hsub in Hp.
    destruct Hp as [content Hnone].
    change (fs Example.empty_world) with (∅ : gmap string bytes) in Hnone.
    rewrite lookup_empty in Hnone. discriminate.
Defined.

(** C3, as worded, fails when [os.remove] raises: with "temp_a.mp4"
    locked, [process_video] returns the row of "a.mp4" and leaves both
    "temp_a.mp4" and "temp_a_Thumbnail.jpg" in a local storage that was
    empty before the call; the walk of "root" leaves them too. *)
Lemma temporary_files_remain_when_remove_fails :
  let o := process_video Example.host_locked_file Example.drive Example.a_mp4
             "Root/Clips" Example.empty_world in
  let w' := final (traverse_folder Example.host_locked_file 5 Example.drive
                     Example.sheets_ok (Some "root") "Root"
                     Example.empty_world) in
  (forall p, fs Example.empty_world !! p = None)
  /\ result o = inr (Some Example.a_row)
  /\ is_Some (fs (final o) !! "temp_a.mp4")
  /\ is_Some (fs (final o) !! "temp_a_Thumbnail.jpg")
  /\ is_Some (fs w' !! "temp_a.mp4")
  /\ is_Some (fs w' !! "temp_a_Thumbnail.jpg").
Proof.
  cbn zeta. split; [intros p; apply lookup_empty|].
  split; [vm_compute; reflexivity|].
  repeat split; vm_compute; eauto.
Qed.



Lemma append_requests_schedule (l : list Event) :
  append_requests (schedule l) = append_requests l.
Proof.
  unfold schedule.
  induction l as [|e l IH]; [reflexivity|].
  destruct e; cbn; rewrite ?IH; reflexivity.
Qed.

Lemma total_wait_schedule (l : list Event) :
  total_wait (schedule l) = total_wait l.
Proof.
  unfold schedule.
  induction l as [|e l IH]; [reflexivity|].
  destruct e; cbn; rewrite ?IH; reflexivity.
Qed.

Lemma append_requests_prefix (l1 l2 : list Event) :
  l1 `prefix_of` l2 -> append_requests l1 <= append_requests l2.
Proof. intros [k ->]. rewrite append_requests_app. lia. Qed.

(** C2: [append_to_sheet] on a non-empty row.  Whatever the service
    answers, the requests and waits are a prefix of: request, wait 2,
    request, wait 4, request, wait 8, request, wait 16, request; so there
    are at most 5 attempts and no wait after the fifth.  When attempts 1
    to 4 fail with an error of the [except] clause and the fifth succeeds,
    the whole schedule is run, the waits add up to 30 and the row is
    written.  When all five fail so, the function still returns normally,
    the last thing it does is print that it gives up, and the sheet is
    unchanged. *)
Theorem append_to_sheet_retries
    (sheets_service : SheetsService) (row : Row) (w : World) :
  row <> [] ->
  let o := append_to_sheet sheets_service (Some row) w in
  exists new,
    events (final o) = events w ++ new
    /\ schedule new `prefix_of` retry_schedule row 4 2
    /\ append_requests new <= 5
    /\ (fails_next sheets_service w 4 ->
        values_append sheets_service (append_requests (events w) + 4) = None ->
        result o = inr tt
        /\ schedule new = retry_schedule row 4 2
        /\ total_wait new = 30%Z
        /\ sheet (final o) = sheet w ++ [row])
    /\ (fails_next sheets_service w 5 ->
        result o = inr tt
        /\ schedule new = retry_schedule row 4 2
        /\ last new = Some (Print MsgMaxRetries)
        /\ sheet (final o) = sheet w).
Proof.
  intros Hrow. cbn zeta.
  unfold append_to_sheet.
  destruct row as [|cell row']; [contradiction|]. cbn [row_truthy negb default].
  set (row := cell :: row').
  change (range (Z.to_nat max_retries)) with (map Z.of_nat (seq (5 - 5) 5)).
  destruct (append_attempts_schedule sheets_service row 5 2%Z w)
    as (new & Hev & Hprefix & _); [lia|].
  change (seq (5 - 5) 5) with (seq 0 5) in *.
  exists new. split; [exact Hev|]. split; [exact Hprefix|].
  split.
  { rewrite <- append_requests_schedule.
    apply append_requests_prefix in Hprefix. exact Hprefix. }
  split.
  - intros Hfail Hok.
    destruct (append_attempts_fail_then_succeed sheets_service row 4 0 5 2%Z w)
      as (new' & Hres & Hev' & Hsch & Hsheet & _); try lia; try assumption.
    cbn zeta in *. rewrite Hev in Hev'. apply app_inv_head in Hev'. subst new'.
    split; [exact Hres|]. split; [exact Hsch|]. split; [|exact Hsheet].
    rewrite <- total_wait_schedule, Hsch. reflexivity.
  - intros Hfail.
    destruct (append_attempts_all_fail sheets_service row 4 0 2%Z w)
      as (new' & Hres & Hev' & Hsch & Hlast & Hsheet & _); try lia;
      try assumption.
    cbn zeta in *. rewrite Hev in Hev'. apply app_inv_head in Hev'. subst new'.
    repeat split; assumption.
Qed.

(** In the example, a service that answers 503 four times and then
    accepts gets the row after waits of 2, 4, 8 and 16; a service that is
    down gets five requests, then [append_to_sheet] returns. *)
Lemma append_to_sheet_retries_example :
  Example.a_row <> []
  /\ (let o := append_to_sheet Example.sheets_flaky (Some Example.a_row)
                 Example.empty_world in
      result o = inr tt
      /\ sheet (final o) = [Example.a_row]
      /\ total_wait (events (final o)) = 30%Z)
  /\ (let o := append_to_sheet Example.sheets_down (Some Example.a_row)
                 Example.empty_world in
      result o = inr tt
      /\ sheet (final o) = []
      /\ append_requests (events (final o)) = 5
      /\ last (events (final o)) = Some (Print MsgMaxRetries)).
Proof.
  assert (Hrow : Example.a_row <> []) by discriminate.
  split; [exact Hrow|]. split.
  - destruct (append_to_sheet_retries Example.sheets_flaky Example.a_row
                Example.empty_world Hrow)
      as (new & Hev & _ & _ & Hflaky & _).
    destruct Hflaky as (Hres & _ & Hwait & Hsheet).
    + intros i Hi. exists (HttpError 503). split; [|reflexivity].
      cbn. destruct i as [|[|[|[|i]]]]; try reflexivity; lia.
    + reflexivity.
    + cbn zeta. rewrite Hev. split; [exact Hres|]. split; [exact Hsheet|].
      exact Hwait.
  - destruct (append_to_sheet_retries Example.sheets_down Example.a_row
                Example.empty_world Hrow)
      as (new & Hev & _ & _ & _ & Hdown).
    destruct Hdown as (Hres & Hsch & Hlast & Hsheet).
    + intros i Hi. exists (HttpError 503). split; reflexivity.
    + cbn zeta. rewrite Hev. split; [exact Hres|]. split; [exact Hsheet|].
      split; [|exact Hlast].
      cbn. rewrite <- append_requests_schedule, Hsch. reflexivity.
Defined.

(** ** The tree walker, one item at a time *)

Lemma result_returned {S A} (o : Outcome S A) (a : A) :
  result o = inr a -> o = Returned a (final o).
Proof. destruct o; cbn; congruence. Qed.

(** The loop goes on with the next item when the body returns. *)
Lemma for_each_cons_returned {S A} (x : A) (xs : list A)
    (body : A -> M S unit) (s s' : S) :
  body x s = Returned tt s' ->
  for_each (x :: xs) body s = for_each xs body s'.
Proof. intros H. cbn. unfold bind. rewrite H. reflexivity. Qed.

Lemma video_mime_is_not_folder_mime (mime : string) :
  Py.startswith mime "video/" = true -> String.eqb mime folder_mime = false.
Proof.
  intros H. destruct (String.eqb_spec mime folder_mime) as [->|]; [|reflexivity].
  discriminate H.
Qed.

Lemma download_log_sends file_id progress :
  List.filter is_upload_or_append (download_log file_id progress) = []
  /\ List.filter is_download (download_log file_id progress)
     = [DriveGetMedia file_id].
Proof.
  unfold download_log. cbn.
  induction progress as [|percent progress [IH1 IH2]]; [split; reflexivity|].
  cbn. split; [exact IH1|exact IH2].
Qed.

Lemma cleanup_events_send_nothing (new : list Event) :
  forallb is_cleanup_event new = true ->
  List.filter is_upload_or_append new = []
  /\ List.filter is_download new = [].
Proof.
  induction new as [|e new IH]; [split; reflexivity|].
  cbn. intros H. apply andb_prop in H as [He H].
  destruct (IH H) as [IH1 IH2].
  destruct e as [| | | | | | | | | | |m]; try discriminate He; cbn; auto.
Qed.

(** What [traverse_item] does with a video: the pipeline, the debugging
    line, the append. *)
Lemma traverse_item_video host traverse drive_service sheets_service
    current_path item w :
  Py.startswith (default "" (item !! "mimeType")) "video/" = true ->
  traverse_item host traverse drive_service sheets_service current_path item w =
  bind (process_video host drive_service item current_path)
    (fun log_data =>
       bind (print (MsgDataToBeLogged log_data))
         (fun _ => append_to_sheet sheets_service log_data)) w.
Proof.
  intros Hvideo. unfold traverse_item.
  rewrite (video_mime_is_not_folder_mime _ Hvideo), Hvideo. reflexivity.
Qed.

(** C6: a video that is downloaded and written to local storage and
    whose frame rate reads as zero (OpenCV's answer also when it has
    none).  [process_video] returns [None]; all it does is one download,
    one write of the temporary video, one query of the frame rate, the
    message and the release, then the cleanup: no second download or
    query, no seek, no read.  The item's turn in the loop ends normally,
    having sent nothing to Drive's thumbnail folder and no request to the
    sheet, and the loop goes on with the next item. *)
Theorem zero_frame_rate_video_is_skipped
    (host : Host) (traverse : option string -> string -> M World unit)
    (drive_service : DriveService) (sheets_service : SheetsService)
    (current_path : string) (item : dict) (w : World)
    (progress : list Z) (content : bytes) :
  Py.startswith (default "" (item !! "mimeType")) "video/" = true ->
  get_media drive_service (item !! "id") = (progress, inr content) ->
  can_create host (temp_video_path_of (item !! "name")) = true ->
  PrimFloat.eqb (cap_fps host (Some content)) 0 = true ->
  let body :=
    traverse_item host traverse drive_service sheets_service current_path in
  let v := temp_video_path_of (item !! "name") in
  result (process_video host drive_service item current_path w) = inr None
  /\ exists w' cleanup,
       let new :=
         [Print (MsgProcessing (item !! "name"))] ++
         download_log (item !! "id") progress ++
         [FileWrite v; CapGetFps v; Print (MsgNoFps (item !! "name"));
          CapRelease] ++
         cleanup ++ [Print (MsgDataToBeLogged None)] in
       body item w = Returned tt w'
       /\ events w' = events w ++ new
       /\ forallb is_cleanup_event cleanup = true
       /\ List.filter is_upload_or_append new = []
       /\ List.filter is_download new = [DriveGetMedia (item !! "id")]
       /\ thumbnails w' = thumbnails w
       /\ sheet w' = sheet w
       /\ forall rest, for_each (item :: rest) body w = for_each rest body w'.
Proof.
  intros Hvideo Hd Hcan Hfps body v.
  assert (Hres : result (process_video host drive_service item current_path w)
                 = inr None).
  { rewrite process_video_result.
    rewrite (process_video_guarded_no_fps host drive_service _ _ _ _
               progress content Hd Hcan Hfps).
    reflexivity. }
  split; [exact Hres|].
  pose proof (process_video_final host drive_service item current_path w) as Hfin.
  rewrite (process_video_guarded_no_fps host drive_service _ _ _ _
             progress content Hd Hcan Hfps) in Hfin.
  cbn [final] in Hfin.
  match type of Hfin with
  | _ = snd (final (process_video_finally _ ?s)) =>
      destruct (process_video_finally_effects host s)
        as (Hth & Hsh & new & Hev & Hclean)
  end.
  cbn zeta in Hth, Hsh, Hev. rewrite <- Hfin in Hth, Hsh, Hev.
  apply result_returned in Hres.
  set (wf := final (process_video host drive_service item current_path w)) in *.
  clearbody wf.
  cbn in Hth, Hsh, Hev.
  assert (Hbody : body item w =
                  Returned tt (log_event (Print (MsgDataToBeLogged None)) wf)).
  { subst body. rewrite (traverse_item_video _ _ _ _ _ _ _ Hvideo).
    unfold bind at 1. rewrite Hres. reflexivity. }
  destruct (cleanup_events_send_nothing new Hclean) as [Hnone Hnodl].
  destruct (download_log_sends (item !! "id") progress) as [Hlog Hlogdl].
  exists (log_event (Print (MsgDataToBeLogged None)) wf), new.
  cbn zeta.
  split; [exact Hbody|].
  split; [cbn; rewrite Hev, <- !app_assoc; reflexivity|].
  split; [exact Hclean|].
  rewrite !List.filter_app, Hnone, Hnodl, Hlog, Hlogdl.
  split; [reflexivity|]. split; [reflexivity|].
  split; [exact Hth|]. split; [exact Hsh|].
  intros rest. apply (for_each_cons_returned item rest body). exact Hbody.
Qed.

(** In the example, "still.mp4" has no frame rate: nothing is uploaded or
    appended for it, and the next item, "a.mp4", gets its row. *)
Lemma zero_frame_rate_video_is_skipped_example :
  let o := traverse_folder Example.host 5 Example.drive Example.sheets_ok
             (Some "stills") "Stills" Example.empty_world in
  Py.startswith (default "" (Example.still_mp4 !! "mimeType")) "video/" = true
    /\ get_media Example.drive (Example.still_mp4 !! "id")
     = ([100%Z], inr [Byte.x00])
  /\ can_create Example.host "temp_still.mp4" = true
  /\ PrimFloat.eqb (cap_fps Example.host (Some [Byte.x00])) 0 = true
  /\ result (process_video Example.host Example.drive Example.still_mp4
               "Stills" Example.empty_world) = inr None
  /\ result o = inr tt
  /\ map up_name (thumbnails (final o)) = ["a_Thumbnail.jpg"]
  /\ sheet (final o) =
       [[Some "a_Thumbnail.jpg"; Some "Stills";
         Some "https://drive.example/a_Thumbnail.jpg"]].
Proof.
  cbn zeta.
  destruct (zero_frame_rate_video_is_skipped Example.host
              (traverse_folder Example.host 4 Example.drive Example.sheets_ok)
                            Example.drive Example.sheets_ok "Stills" Example.still_mp4
              Example.empty_world [100%Z] [Byte.x00] eq_refl eq_refl eq_refl
              eq_refl)
    as (Hres & _).
  split; [reflexivity|]. split; [reflexivity|]. split; [reflexivity|].
  split; [reflexivity|].
  split; [exact Hres|].
  vm_compute. repeat split; reflexivity.
Defined.

(** C6, as worded, fails for a video whose name holds a "/": the video
    "take 1/still.mp4" has no frame rate, yet the temporary file
    "temp_take 1/still.mp4" cannot be opened, the [OSError] is not caught,
    and the walk of its folder ends there: "a.mp4", the next item, is
    never downloaded. *)
Lemma zero_frame_rate_video_named_with_a_slash_ends_the_walk :
  let o := traverse_folder Example.host 5 Cases.drive_takes Example.sheets_ok
             (Some "takes") "Takes" Example.empty_world in
  Py.startswith (default "" (Cases.take_still !! "mimeType")) "video/" = true
  /\ files_list Cases.drive_takes (children_query (Some "takes")) None
     = Example.one_page [Cases.take_still; Example.a_mp4]
  /\ get_media Cases.drive_takes (Cases.take_still !! "id")
     = ([100%Z], inr [Byte.x00])
  /\ PrimFloat.eqb (cap_fps Example.host (Some [Byte.x00])) 0 = true
  /\ result (process_video Example.host Cases.drive_takes Cases.take_still
               "Takes" Example.empty_world) = inl OSError
  /\ result o = inl OSError
  /\ List.filter is_download (events (final o))
     = [DriveGetMedia (Some "v_still")]
  /\ thumbnails (final o) = []
  /\ sheet (final o) = [].
Proof. cbn zeta. repeat split; vm_compute; reflexivity. Qed.

(** ** The frame index *)

(** On a float that is finite and not negative, [int] (truncation) and
    [math.floor] agree. *)
Lemma int_is_floor_of_nonnegative (x : float) :
  Py.nonneg_finite x = true ->
  exists n, Py.int x = inr n /\ Py.floor x = Some n.
Proof.
  unfold Py.nonneg_finite, Py.int, Py.floor.
  destruct (Prim2SF x) as [s|s| |s m e]; try discriminate.
  - intros _. exists 0%Z. split; reflexivity.
  - destruct s; [discriminate|]. intros _. eexists. split; reflexivity.
Qed.

(** On any finite float, [int] is [math.floor] or one more: it rounds
    toward zero. *)
Lemma int_is_floor_or_one_more (x : float) (n : Z) :
  Py.int x = inr n ->
  exists below, Py.floor x = Some below /\ (below <= n <= below + 1)%Z.
Proof.
  unfold Py.int, Py.floor.
  destruct (Prim2SF x) as [s|s| |s m e]; try discriminate.
  - intros [= <-]. exists 0%Z. split; [reflexivity|lia].
  - intros [= <-]. eexists. split; [reflexivity|].
    destruct s; [|lia].
    destruct (Z.le_gt_cases 0 e) as [He|He].
    + rewrite !Z.shiftl_mul_pow2 by exact He. lia.
    + rewrite <- !(Z.shiftr_opp_r _ e), !Z.shiftr_div_pow2 by lia.
      assert (Hpow : (0 < 2 ^ (- e))%Z) by (apply Z.pow_pos_nonneg; lia).
      change (Z.neg m) with (- Z.pos m)%Z.
      destruct (Z.eq_dec (Z.pos m mod 2 ^ (- e)) 0)%Z as [Hz|Hnz].
      * rewrite Z.div_opp_l_z by lia. lia.
      * rewrite Z.div_opp_l_nz by lia. lia.
Qed.

(** Below zero they differ: [int] rounds toward zero. *)
Example int_truncates_below_zero :
  Py.int (PrimFloat.mul 29.5%float (-0.5)%float) = inr (-14)%Z
  /\ Py.floor (PrimFloat.mul 29.5%float (-0.5)%float) = Some (-15)%Z.
Proof. split; vm_compute; reflexivity. Qed.

Lemma cleanup_events_read_nothing (new : list Event) :
  forallb is_cleanup_event new = true ->
  List.filter (fun e => match e with CapRead => true | _ => false end) new = [].
Proof.
  induction new as [|e new IH]; [reflexivity|].
  cbn. intros H. apply andb_prop in H as [He H].
  destruct e; try discriminate He; cbn; auto.
Qed.

(** C7: for a video that is downloaded and written to local storage and
    has a frame rate other than zero, with a finite product of frame rate
    and capture timestamp: [process_video] sets the position to
    int(frame rate * timestamp), the product rounded toward zero, and
    then reads, once; the calls up to the read are the download, the
    write of the temporary video, the frame-rate query and the seek.  The
    index is floor(frame rate * timestamp) when the product is not
    negative, and never below the floor nor more than one above it.  With
    30 frames a second and a timestamp of 2.0 the index is 60. *)
Theorem target_frame_index
    (host : Host) (drive_service : DriveService) (video_file : dict)
    (folder_path : string) (w : World) (progress : list Z)
    (content : bytes) (frame_id : Z) :
  let file_id := video_file !! "id" in
  let file_name := video_file !! "name" in
  let v := temp_video_path_of file_name in
  let fps := cap_fps host (Some content) in
  let product := PrimFloat.mul fps (CAPTURE_TIMESTAMP_SECONDS host) in
  get_media drive_service file_id = (progress, inr content) ->
  can_create host v = true ->
  PrimFloat.eqb fps 0 = false ->
  Py.int product = inr frame_id ->
  (exists after,
     events (final (process_video host drive_service video_file
                      folder_path w)) =
       events w ++
         [Print (MsgProcessing file_name)] ++
         download_log file_id progress ++
         [FileWrite v; CapGetFps v; CapSetPosFrames frame_id; CapRead]
         ++ after
     /\ List.filter (fun e => match e with CapRead => true | _ => false end)
          after = [])
  /\ (Py.nonneg_finite product = true -> Py.floor product = Some frame_id)
  /\ (exists below,
        Py.floor product = Some below
        /\ (below <= frame_id <= below + 1)%Z)
  /\ (fps = 30%float -> CAPTURE_TIMESTAMP_SECONDS host = 2%float ->
      frame_id = 60%Z).
Proof.
  intros file_id file_name v fps product Hd Hcan Hfps Hint.
  split; [|split; [|split]].
  - destruct (process_video_guarded_seeks host drive_service file_id
                file_name folder_path
                (log_event (Print (MsgProcessing file_name)) w)
                progress content frame_id Hd Hcan Hfps Hint)
      as (after & Hev & Hreads).
    rewrite process_video_final. fold file_id file_name.
    destruct (process_video_finally_effects host
                (final (process_video_guarded host drive_service file_id
                          file_name folder_path
                          (mkLocals None None,
                           log_event (Print (MsgProcessing file_name)) w))))
      as (_ & _ & new & Hev' & Hclean).
    cbn zeta in Hev'. rewrite Hev', Hev. cbn [events log_event].
    exists (after ++ new). split.
    { rewrite <- !app_assoc. reflexivity. }
    rewrite List.filter_app, Hreads, (cleanup_events_read_nothing new Hclean).
    reflexivity.
  - intros Hnonneg.
    destruct (int_is_floor_of_nonnegative product Hnonneg)
      as (n & Hint' & Hfloor).
    congruence.
  - apply int_is_floor_or_one_more. exact Hint.
  - intros H30 H2. subst product. rewrite H30, H2 in Hint.
    vm_compute in Hint. congruence.
Qed.

(** In the example, "a.mp4" runs at 30 frames a second and the capture
    timestamp is 2.0: the position is set to frame 60 before the read. *)
Lemma target_frame_index_example :
  let o := process_video Example.host Example.drive Example.a_mp4
             "Root/Clips" Example.empty_world in
  get_media Example.drive (Some "v1") = ([100%Z], inr [Byte.x01])
  /\ can_create Example.host "temp_a.mp4" = true
  /\ PrimFloat.eqb (cap_fps Example.host (Some [Byte.x01])) 0 = false
  /\ Py.int (PrimFloat.mul 30 2) = inr 60%Z
  /\ Py.floor (PrimFloat.mul 30 2) = Some 60%Z
  /\ exists after,
       events (final o) =
         [Print (MsgProcessing (Some "a.mp4")); DriveGetMedia (Some "v1");
          Print (MsgDownload 100);
          FileWrite "temp_a.mp4"; CapGetFps "temp_a.mp4";
          CapSetPosFrames 60; CapRead] ++ after.
Proof.
  cbn zeta.
  destruct (target_frame_index Example.host Example.drive Example.a_mp4
              "Root/Clips" Example.empty_world [100%Z] [Byte.x01] 60%Z
              eq_refl eq_refl eq_refl eq_refl)
    as ((after & Hev & _) & Hfloor & _ & _).
  split; [reflexivity|]. split; [reflexivity|]. split; [reflexivity|].
  split; [reflexivity|]. split; [apply Hfloor; reflexivity|].
  exists after. rewrite Hev. reflexivity.
Defined.

(** C7, as worded, fails below zero: with a frame rate of -1 and a
    capture timestamp of 2.5 the product is -2.5, whose floor is -3;
    [process_video] seeks to frame -2, reads, and returns the row. *)
Lemma negative_frame_rate_seeks_above_the_floor :
  let o := process_video Cases.host_negative_rate Example.drive Example.a_mp4
             "Root/Clips" Example.empty_world in
  cap_fps Cases.host_negative_rate (Some [Byte.x01]) = (-1)%float
  /\ CAPTURE_TIMESTAMP_SECONDS Cases.host_negative_rate = 2.5%float
  /\ Py.floor (PrimFloat.mul (-1) 2.5) = Some (-3)%Z
  /\ List.filter
       (fun e => match e with CapSetPosFrames _ => true | _ => false end)
       (events (final o)) = [CapSetPosFrames (-2)]
  /\ result o = inr (Some Example.a_row).
Proof. cbn zeta. repeat split; vm_compute; reflexivity. Qed.

(** ** The ledger row *)

(** Going down into a folder appends its display name to the path. *)
Lemma join_path_snoc (names : list string) (name : string) :
  names <> [] ->
  join_path (names ++ [name]) = join_path names +:+ "/" +:+ name.
Proof.
  unfold join_path. induction names as [|n names IH]; [contradiction|].
  intros _. destruct names as [|n' names].
  - reflexivity.
  - change (String.concat "/" ((n :: n' :: names) ++ [name]))
      with (n +:+ "/" +:+ String.concat "/" ((n' :: names) ++ [name])).
    rewrite IH by discriminate.
    change (String.concat "/" (n :: n' :: names))
      with (n +:+ "/" +:+ String.concat "/" (n' :: names)).
    rewrite !string_app_assoc. reflexivity.
Qed.

(** The first request is accepted: one request, one row. *)
Lemma append_to_sheet_first_try sheets_service (cell : option string)
    (cells : list (option string)) (w : World) :
  values_append sheets_service (append_requests (events w)) = None ->
  append_to_sheet sheets_service (Some (cell :: cells)) w =
    Returned tt
      (log_event (Print MsgWroteToSheet)
         (add_row (cell :: cells)
            (log_event (SheetsAppend (cell :: cells)) w))).
Proof.
  intros Hok. unfold append_to_sheet. cbn [row_truthy negb].
  change (range (Z.to_nat max_retries)) with (map Z.of_nat (seq 0 5)).
  cbn [seq map].
  apply append_attempts_success. exact Hok.
Qed.

(** C5: a video for which every step succeeds: the download, the write
    of the temporary video (its directory exists; the thumbnail is then
    written next to it), the frame rate, the read of the frame and the
    upload.  [process_video] returns
    one row: the name Drive reports for the uploaded file, the path of the
    folder the video was found in (the walker passes its [current_path],
    without the video's name), and the view link Drive reports.  The file
    uploaded is named stem + "_Thumbnail.jpg" and is the only upload; when
    Drive reports the name it was given, that is the first cell.  The
    walker hands exactly this row to [append_to_sheet], which writes it
    once when the first request is accepted.  The path is "/"-joined: for
    a folder item the walker goes down with the folder's display name
    appended after a "/". *)
Theorem successful_video_gives_one_row
    (host : Host) (traverse : option string -> string -> M World unit)
    (drive_service : DriveService) (sheets_service : SheetsService)
    (current_path : string) (item : dict) (w : World)
    (name : string) (progress : list Z) (content : bytes) (frame_id : Z)
    (img : image) (uploaded : dict) :
  Py.startswith (default "" (item !! "mimeType")) "video/" = true ->
  item !! "name" = Some name ->
  get_media drive_service (item !! "id") = (progress, inr content) ->
  can_create host (temp_video_path_of (Some name)) = true ->
  PrimFloat.eqb (cap_fps host (Some content)) 0 = false ->
  Py.int (PrimFloat.mul (cap_fps host (Some content))
            (CAPTURE_TIMESTAMP_SECONDS host)) = inr frame_id ->
  cap_read host (Some content) frame_id = (true, Some img) ->
  files_create drive_service (thumbnail_name_of name)
    [THUMBNAIL_FOLDER_ID host] (imencode_jpg host img) = inr uploaded ->
  let row : Row :=
    [uploaded !! "name"; Some current_path; uploaded !! "webViewLink"] in
  let pipeline := process_video host drive_service item current_path w in
  let visit :=
    traverse_item host traverse drive_service sheets_service current_path
      item w in
  result pipeline = inr (Some row)
  /\ thumbnails (final pipeline) =
       thumbnails w ++
         [mkUpload (fst (Py.splitext name) +:+ "_Thumbnail" +:+ ".jpg")
            [THUMBNAIL_FOLDER_ID host] (imencode_jpg host img)]
  /\ (uploaded !! "name" = Some (thumbnail_name_of name) ->
      row = [Some (fst (Py.splitext name) +:+ "_Thumbnail" +:+ ".jpg");
             Some current_path; uploaded !! "webViewLink"])
  /\ visit =
       append_to_sheet sheets_service (Some row)
         (log_event (Print (MsgDataToBeLogged (Some row))) (final pipeline))
  /\ (values_append sheets_service (append_requests (events (final pipeline)))
        = None ->
      result visit = inr tt /\ sheet (final visit) = sheet w ++ [row])
  /\ (forall names folder_item,
        names <> [] ->
        folder_item !! "mimeType" = Some folder_mime ->
        traverse_item host traverse drive_service sheets_service
          (join_path names) folder_item =
        traverse (folder_item !! "id")
          (join_path (names ++ [Py.str (folder_item !! "name")]))).
Proof.
  intros Hvideo Hname Hd Hcan Hfps Hint Hread Hup row pipeline visit.
  assert (Hstem : fst (Py.splitext name) +:+ "_Thumbnail" +:+ ".jpg"
                  = thumbnail_name_of name).
  { unfold thumbnail_name_of. reflexivity. }
  rewrite Hstem.
  pose proof (process_video_guarded_success host drive_service (item !! "id")
                name current_path
                                (log_event (Print (MsgProcessing (item !! "name"))) w)
                progress content frame_id img uploaded Hd Hcan Hfps Hint Hread
                Hup)
    as Hg.
  cbn zeta in Hg.
  assert (Hres : result pipeline = inr (Some row)).
  { subst pipeline. rewrite process_video_result, Hname.
    rewrite Hname in Hg. rewrite Hg. reflexivity. }
  pose proof (process_video_final host drive_service item current_path w)
    as Hfin.
  rewrite Hname in Hfin. rewrite Hname in Hg. rewrite Hg in Hfin.
  cbn [final] in Hfin.
  match type of Hfin with
  | _ = snd (final (process_video_finally _ ?s)) =>
      destruct (process_video_finally_effects host s)
        as (Hth & Hsh & new & Hev & Hclean)
  end.
  cbn zeta in Hth, Hsh, Hev. rewrite <- Hfin in Hth, Hsh, Hev.
  fold pipeline in Hth, Hsh, Hev.
  apply result_returned in Hres.
  set (wf := final pipeline) in *. clearbody wf.
  cbn in Hth, Hsh.
  assert (Hvisit : visit =
            append_to_sheet sheets_service (Some row)
              (log_event (Print (MsgDataToBeLogged (Some row))) wf)).
  { subst visit. rewrite (traverse_item_video _ _ _ _ _ _ _ Hvideo).
    unfold bind at 1. fold pipeline. rewrite Hres. reflexivity. }
  split; [rewrite Hres; reflexivity|].
  split; [exact Hth|].
  split; [intros Hecho; subst row; rewrite Hecho; reflexivity|].
  split; [exact Hvisit|].
  split.
  - intros Hok. rewrite Hvisit. subst row.
    rewrite append_to_sheet_first_try.
    + cbn. rewrite Hsh. split; reflexivity.
    + cbn. rewrite append_requests_app. cbn. rewrite Nat.add_0_r. exact Hok.
  - intros names folder_item Hnames Hmime.
    unfold traverse_item. rewrite Hmime. cbn [default].
    rewrite String.eqb_refl. rewrite join_path_snoc by exact Hnames.
    reflexivity.
Qed.

(** In the example: "a.mp4" in "Root/Clips" gives the row
    ("a_Thumbnail.jpg", "Root/Clips", link), written once. *)
Lemma successful_video_gives_one_row_example :
  let visit :=
    traverse_item Example.host
      (traverse_folder Example.host 3 Example.drive Example.sheets_ok)
      Example.drive Example.sheets_ok "Root/Clips" Example.a_mp4
      Example.empty_world in
  Py.startswith (default "" (Example.a_mp4 !! "mimeType")) "video/" = true
  /\ Example.a_mp4 !! "name" = Some "a.mp4"
  /\ can_create Example.host "temp_a.mp4" = true
  /\ result (process_video Example.host Example.drive Example.a_mp4
               "Root/Clips" Example.empty_world) = inr (Some Example.a_row)
  /\ result visit = inr tt
  /\ sheet (final visit) = [Example.a_row].
Proof.
  cbn zeta.
  destruct (successful_video_gives_one_row Example.host
              (traverse_folder Example.host 3 Example.drive Example.sheets_ok)
              Example.drive Example.sheets_ok "Root/Clips" Example.a_mp4
                            Example.empty_world "a.mp4" [100%Z] [Byte.x01] 60%Z
              (Image [Byte.xff])
              {[ "id" := "id-of-a_Thumbnail.jpg"; "name" := "a_Thumbnail.jpg";
                 "webViewLink" := "https://drive.example/a_Thumbnail.jpg" ]}
              eq_refl eq_refl eq_refl eq_refl eq_refl eq_refl eq_refl eq_refl)
    as (Hres & _ & _ & _ & Hsheet & _).
  destruct (Hsheet eq_refl) as [Hvisit Hrows].
  split; [reflexivity|]. split; [reflexivity|]. split; [reflexivity|].
  split; [exact Hres|]. split; [exact Hvisit|]. exact Hrows.
Defined.

(** ** Entries that are neither folders nor videos *)

(** C9: an entry whose listing has no [mimeType] key.  [item.get("mimeType",
    "")] is the empty string, which is neither the folder type nor a
    video type: the entry's turn in the loop does nothing at all (no call,
    no error) and the loop goes on with the next item. *)
Theorem entry_without_mime_type_is_ignored
    (host : Host) (traverse : option string -> string -> M World unit)
    (drive_service : DriveService) (sheets_service : SheetsService)
    (current_path : string) (item : dict) (w : World) :
  item !! "mimeType" = None ->
  let body :=
    traverse_item host traverse drive_service sheets_service current_path in
  default "" (item !! "mimeType") = ""
  /\ body item w = Returned tt w
  /\ forall rest, for_each (item :: rest) body w = for_each rest body w.
Proof.
  intros Hmime body.
  assert (Hbody : body item w = Returned tt w).
  { subst body. unfold traverse_item. rewrite Hmime. reflexivity. }
  split; [rewrite Hmime; reflexivity|]. split; [exact Hbody|].
  intros rest. apply (for_each_cons_returned item rest body). exact Hbody.
Qed.

(** In the example, the entry "mystery" has no MIME type: walking its
    folder makes no call for it, and "a.mp4" after it gets its row. *)
Lemma entry_without_mime_type_is_ignored_example :
  let body :=
    traverse_item Example.host
      (traverse_folder Example.host 4 Example.drive Example.sheets_ok)
      Example.drive Example.sheets_ok "Untyped" in
  let o := traverse_folder Example.host 5 Example.drive Example.sheets_ok
             (Some "untyped") "Untyped" Example.empty_world in
  Example.untyped !! "mimeType" = None
  /\ body Example.untyped Example.empty_world = Returned tt Example.empty_world
  /\ result o = inr tt
  /\ List.filter is_download (events (final o)) = [DriveGetMedia (Some "v1")]
  /\ length (sheet (final o)) = 1.
Proof.
  cbn zeta.
  destruct (entry_without_mime_type_is_ignored Example.host
              (traverse_folder Example.host 4 Example.drive Example.sheets_ok)
              Example.drive Example.sheets_ok "Untyped" Example.untyped
              Example.empty_world eq_refl)
    as (_ & Hbody & _).
  split; [reflexivity|]. split; [exact Hbody|].
  vm_compute. repeat split; reflexivity.
Defined.

(** ** Errors of the remote services *)

(** [try ... except HttpError] with a handler that returns: no
    [HttpError] leaves it. *)
Lemma try_except_HttpError_contained {S A} (body : M S A)
    (handler : exn -> M S A) (s : S) (status : Z) :
  (forall e s', exists a s'', handler e s' = Returned a s'') ->
  result (try_except body is_HttpError handler s) <> inl (HttpError status).
Proof.
  intros Hh. unfold try_except.
  destruct (body s) as [a s'|e s']; cbn; [discriminate|].
  destruct (is_HttpError e) eqn:E.
  - destruct (Hh e s') as (a & s'' & ->). discriminate.
  - cbn. intros [= ->]. discriminate.
Qed.

(** No error of the [except] clause of [append_to_sheet] leaves it. *)
Lemma append_attempts_contains_retryable sheets_service row attempts :
  forall backoff w e,
    result (append_attempts sheets_service row attempts backoff w) = inl e ->
    is_append_retryable e = false.
Proof.
  induction attempts as [|attempt attempts IH]; intros backoff w e.
  - discriminate.
  - cbn [append_attempts]. unfold try_except, bind, values_append_execute.
    destruct (values_append sheets_service _) as [error|]; cbn.
    + destruct (is_append_retryable error) eqn:E; cbn.
      * destruct (attempt + 1 =? max_retries)%Z; cbn; [discriminate|].
        apply IH.
      * intros [= <-]. exact E.
    + discriminate.
Qed.

Lemma append_to_sheet_contains_retryable sheets_service data_row w e :
  result (append_to_sheet sheets_service data_row w) = inl e ->
  is_append_retryable e = false.
Proof.
  unfold append_to_sheet.
  destruct (negb (row_truthy data_row)); [discriminate|].
  apply append_attempts_contains_retryable.
Qed.

Section HttpErrors.

Variable host : Host.
Variable drive_service : DriveService.
Variable sheets_service : SheetsService.

(** No [HttpError] leaves [process_video]. *)
Lemma process_video_contains_HttpError video_file folder_path w status :
  result (process_video host drive_service video_file folder_path w)
    <> inl (HttpError status).
Proof.
  rewrite process_video_result. unfold process_video_guarded.
  apply try_except_HttpError_contained.
  intros e s'. unfold_calls. eexists. eexists. reflexivity.
Qed.

(** No [HttpError] leaves [traverse_folder]. *)
Lemma traverse_folder_contains_HttpError depth folder_id current_path w status :
  result (traverse_folder host depth drive_service sheets_service folder_id
            current_path w) <> inl (HttpError status).
Proof.
  destruct depth as [|depth]; [discriminate|].
  cbn [traverse_folder].
  apply try_except_HttpError_contained.
  intros e s'. unfold_calls. eexists. eexists. reflexivity.
Qed.

(** The listing fails with an [HttpError]: one request, the error is
    printed, the call returns. *)
Lemma traverse_folder_listing_HttpError depth folder_id current_path w status :
  files_list drive_service (children_query folder_id) None
    = inl (HttpError status) ->
  traverse_folder host (S depth) drive_service sheets_service folder_id
    current_path w =
  Returned tt
    (log_event (Print (MsgErrorOccurred (HttpError status)))
       (log_event (DriveList (children_query folder_id)) w)).
Proof.
  intros Hlist. cbn [traverse_folder].
  unfold try_except, bind, files_list_execute. rewrite Hlist. reflexivity.
Qed.

(** The download fails with an [HttpError]: [None] is returned after
    that one request, and nothing is written anywhere. *)
Lemma process_video_download_HttpError video_file folder_path w
    progress status :
  get_media drive_service (video_file !! "id")
    = (progress, inl (HttpError status)) ->
  process_video host drive_service video_file folder_path w =
  Returned None
    (log_event (Print (MsgErrorOccurred (HttpError status)))
       (log_events (download_log (video_file !! "id") progress)
          (log_event (Print (MsgProcessing (video_file !! "name"))) w))).
Proof.
  intros Hd.
  unfold process_video, with_locals, try_finally, process_video_guarded,
        try_except, process_video_try, process_video_finally.
  unfold_calls. cbn. rewrite (download_raises _ _ _ _ _ Hd). cbn.
  reflexivity.
Qed.

(** The upload fails with an [HttpError], after the temporary files
    were written: [None] is returned; Drive gets no file and the sheet no
    row. *)
Lemma process_video_upload_HttpError video_file folder_path w
    name progress content frame_id img status :
  video_file !! "name" = Some name ->
  get_media drive_service (video_file !! "id") = (progress, inr content) ->
  can_create host (temp_video_path_of (Some name)) = true ->
  PrimFloat.eqb (cap_fps host (Some content)) 0 = false ->
  Py.int (PrimFloat.mul (cap_fps host (Some content))
            (CAPTURE_TIMESTAMP_SECONDS host)) = inr frame_id ->
  cap_read host (Some content) frame_id = (true, Some img) ->
  files_create drive_service (thumbnail_name_of name)
    [THUMBNAIL_FOLDER_ID host] (imencode_jpg host img)
    = inl (HttpError status) ->
  let o := process_video host drive_service video_file folder_path w in
  result o = inr None
  /\ thumbnails (final o) = thumbnails w
  /\ sheet (final o) = sheet w.
Proof.
  intros Hname Hd Hcan Hfps Hint Hread Hup o.
  pose proof (can_create_thumbnail host name Hcan) as Hcan'.
  assert (Hg : exists s,
             process_video_guarded host drive_service (video_file !! "id")
               (video_file !! "name") folder_path
               (mkLocals None None,
                log_event (Print (MsgProcessing (video_file !! "name"))) w)
             = Returned None s
             /\ thumbnails (snd s) = thumbnails w
             /\ sheet (snd s) = sheet w).
  { unfold process_video_guarded, try_except, process_video_try.
        unfold_calls. cbn. rewrite (download_returns _ _ _ _ _ Hd). cbn.
    rewrite Hname. cbn. can_write Hcan. cbn.
    rewrite lookup_insert_eq. unfold Py.truthy_float.
    rewrite Hfps. cbn. rewrite Hint. cbn. rewrite Hread. cbn.
    can_write Hcan'. cbn.
    rewrite lookup_insert_eq.
    change (fst (Py.splitext name) +:+ "_Thumbnail.jpg")
      with (thumbnail_name_of name).
    rewrite Hup. cbn. eexists. repeat split; reflexivity. }
  destruct Hg as (s & Hg & Hth & Hsh).
  subst o. split.
  - rewrite process_video_result, Hg. reflexivity.
  - rewrite process_video_final, Hg. cbn [final].
    destruct (process_video_finally_effects host s) as (Hth' & Hsh' & _).
    cbn zeta in Hth', Hsh'. rewrite Hth', Hsh'. split; assumption.
Qed.

(** No [HttpError] leaves the turn of an item in the loop. *)
Lemma traverse_item_contains_HttpError depth current_path item w status :
  result (traverse_item host
            (traverse_folder host depth drive_service sheets_service)
            drive_service sheets_service current_path item w)
    <> inl (HttpError status).
Proof.
  unfold traverse_item.
  destruct (String.eqb _ folder_mime).
  - apply traverse_folder_contains_HttpError.
  - destruct (Py.startswith _ _); [|discriminate].
    unfold bind.
    destruct (process_video host drive_service item current_path w)
      as [log_data w'|e w'] eqn:E.
    + cbn. intros H. apply append_to_sheet_contains_retryable in H.
      discriminate.
    + cbn. intros [= ->].
      apply (process_video_contains_HttpError item current_path w status).
      rewrite E. reflexivity.
Qed.

End HttpErrors.

(** C4, as the code has it, for the walk: the errors caught per folder
    and per video are the [HttpError]s.  No [HttpError] leaves
    [traverse_folder] or the turn of an item in its loop.  When listing a
    sub-folder fails with an [HttpError], that one request is all that is
    done for the sub-folder (no retry) and the loop goes on with the next
    item; when a video's download fails with an [HttpError], or its
    upload does once the temporary files are written, [process_video]
    returns [None], nothing is added to Drive or to the sheet, and the
    loop goes on with the next item. *)
Theorem http_errors_skip_one_unit
    (host : Host) (depth : nat) (drive_service : DriveService)
    (sheets_service : SheetsService) (current_path : string) (w : World) :
  let walk := traverse_folder host (S depth) drive_service sheets_service in
  let body :=
    traverse_item host walk drive_service sheets_service current_path in
  (forall folder_id status,
     result (walk folder_id current_path w) <> inl (HttpError status))
  /\ (forall item status, result (body item w) <> inl (HttpError status))
  /\ (forall item rest status,
        item !! "mimeType" = Some folder_mime ->
        files_list drive_service (children_query (item !! "id")) None
          = inl (HttpError status) ->
        for_each (item :: rest) body w =
        for_each rest body
          (log_event (Print (MsgErrorOccurred (HttpError status)))
             (log_event (DriveList (children_query (item !! "id"))) w)))
    /\ (forall item rest progress status,
        Py.startswith (default "" (item !! "mimeType")) "video/" = true ->
        get_media drive_service (item !! "id")
          = (progress, inl (HttpError status)) ->
        result (process_video host drive_service item current_path w)
          = inr None
        /\ for_each (item :: rest) body w =
           for_each rest body
             (log_event (Print (MsgDataToBeLogged None))
                (log_event (Print (MsgErrorOccurred (HttpError status)))
                   (log_events (download_log (item !! "id") progress)
                      (log_event (Print (MsgProcessing (item !! "name")))
                         w)))))
  /\ (forall item rest name progress content frame_id img status,
        Py.startswith (default "" (item !! "mimeType")) "video/" = true ->
        item !! "name" = Some name ->
        get_media drive_service (item !! "id") = (progress, inr content) ->
        can_create host (temp_video_path_of (Some name)) = true ->
        PrimFloat.eqb (cap_fps host (Some content)) 0 = false ->
        Py.int (PrimFloat.mul (cap_fps host (Some content))
                  (CAPTURE_TIMESTAMP_SECONDS host)) = inr frame_id ->
        cap_read host (Some content) frame_id = (true, Some img) ->
        files_create drive_service (thumbnail_name_of name)
          [THUMBNAIL_FOLDER_ID host] (imencode_jpg host img)
          = inl (HttpError status) ->
        result (process_video host drive_service item current_path w)
          = inr None
        /\ exists w',
             thumbnails w' = thumbnails w
             /\ sheet w' = sheet w
             /\ for_each (item :: rest) body w = for_each rest body w').
Proof.
  intros walk body.
  split; [intros; apply traverse_folder_contains_HttpError|].
  split; [intros; apply traverse_item_contains_HttpError|].
  split; [|split].
  - intros item rest status Hmime Hlist.
    apply (for_each_cons_returned item rest body).
    subst body walk. unfold traverse_item. rewrite Hmime. cbn [default].
    rewrite String.eqb_refl.
    apply traverse_folder_listing_HttpError. exact Hlist.
    - intros item rest progress status Hvideo Hd.
    pose proof (process_video_download_HttpError host drive_service item
                  current_path w progress status Hd) as Hpv.
    split; [rewrite Hpv; reflexivity|].
    apply (for_each_cons_returned item rest body).
    subst body. rewrite (traverse_item_video _ _ _ _ _ _ _ Hvideo).
    unfold bind at 1. rewrite Hpv. reflexivity.
    - intros item rest name progress content frame_id img status
      Hvideo Hname Hd Hcan Hfps Hint Hread Hup.
    destruct (process_video_upload_HttpError host drive_service item
                current_path w name progress content frame_id img status
                Hname Hd Hcan Hfps Hint Hread Hup) as (Hres & Hth & Hsh).
    split; [exact Hres|].
    apply result_returned in Hres.
    exists (log_event (Print (MsgDataToBeLogged None))
              (final (process_video host drive_service item current_path w))).
    split; [exact Hth|]. split; [exact Hsh|].
    apply (for_each_cons_returned item rest body).
    subst body. rewrite (traverse_item_video _ _ _ _ _ _ _ Hvideo).
    unfold bind at 1. rewrite Hres. reflexivity.
Qed.

(** In the example, the folder "errors" holds a folder that cannot be
    listed (403), a video that cannot be downloaded (404) and "a.mp4": the
    walk returns normally and "a.mp4" gets its row. *)
Lemma http_errors_skip_one_unit_example :
  let o := traverse_folder Example.host 5 Example.drive Example.sheets_ok
             (Some "errors") "Errors" Example.empty_world in
  files_list Example.drive (children_query (Some "f_locked")) None
    = inl (HttpError 403)
    /\ get_media Example.drive (Some "v_gone") = ([], inl (HttpError 404))
  /\ result (process_video Example.host Example.drive Example.gone_mp4
               "Errors" Example.empty_world) = inr None
  /\ result o = inr tt
  /\ List.filter is_download (events (final o)) =
       [DriveGetMedia (Some "v_gone"); DriveGetMedia (Some "v1")]
  /\ sheet (final o) =
       [[Some "a_Thumbnail.jpg"; Some "Errors";
         Some "https://drive.example/a_Thumbnail.jpg"]].
Proof.
  cbn zeta.
  destruct (http_errors_skip_one_unit Example.host 3 Example.drive
              Example.sheets_ok "Errors" Example.empty_world)
    as (_ & _ & _ & Hdownload & _).
    destruct (Hdownload Example.gone_mp4 [] [] 404%Z eq_refl eq_refl)
    as [Hnone _].
  split; [reflexivity|]. split; [reflexivity|]. split; [exact Hnone|].
  vm_compute. repeat split; reflexivity.
Defined.

(** C4 as stated does not hold for every error: a timeout while a video is
    downloaded is not an [HttpError].  In the example, the folder
    "timeouts" holds "slow.mp4", whose download times out, and then
    "a.mp4": the timeout leaves [process_video] and [traverse_folder], and
    "a.mp4" is never processed. *)
Lemma timeout_during_download_aborts_the_walk :
  let o := traverse_folder Example.host 5 Example.drive Example.sheets_ok
             (Some "timeouts") "Timeouts" Example.empty_world in
  get_media Example.drive (Example.slow_mp4 !! "id")
  = ([50%Z], inl SocketTimeout)
  /\ result (process_video Example.host Example.drive Example.slow_mp4
               "Timeouts" Example.empty_world) = inl SocketTimeout
  /\ result o = inl SocketTimeout
  /\ List.filter is_download (events (final o)) =
       [DriveGetMedia (Some "v_slow")]
  /\ sheet (final o) = [].
Proof. vm_compute. repeat split; reflexivity. Qed.

(** ** Running twice *)

Lemma oblivious_ret {A} (a : A) : oblivious (ret a).
Proof.
  intros w1 w2. split; [reflexivity|]. exists [], []. cbn.
  rewrite !app_nil_r. auto.
Qed.

Lemma oblivious_raise {A} (e : exn) : oblivious (raise e : M World A).
Proof.
  intros w1 w2. split; [reflexivity|]. exists [], []. cbn.
  rewrite !app_nil_r. auto.
Qed.

Lemma oblivious_emit (e : Event) : oblivious (emit e).
Proof.
  intros w1 w2. split; [reflexivity|]. exists [], []. cbn.
  rewrite !app_nil_r. auto.
Qed.

Lemma oblivious_bind {A B} (m : M World A) (k : A -> M World B) :
  oblivious m -> (forall a, oblivious (k a)) -> oblivious (bind m k).
Proof.
  intros Hm Hk w1 w2.
  destruct (Hm w1 w2) as (Hr & nt & ns & Ht1 & Ht2 & Hs1 & Hs2).
  unfold bind.
  destruct (m w1) as [a w1'|e w1'], (m w2) as [a' w2'|e' w2'];
    cbn in Hr, Ht1, Ht2, Hs1, Hs2; try discriminate Hr.
  - injection Hr as <-.
    destruct (Hk a w1' w2') as (Hr' & nt' & ns' & Ht1' & Ht2' & Hs1' & Hs2').
    split; [exact Hr'|]. exists (nt ++ nt'), (ns ++ ns').
    rewrite Ht1', Ht2', Hs1', Hs2', Ht1, Ht2, Hs1, Hs2, <- !app_assoc. auto.
  - injection Hr as <-. split; [reflexivity|]. exists nt, ns. cbn. auto.
Qed.

Lemma oblivious_try_except {A} (m : M World A) (catches : exn -> bool)
    (handler : exn -> M World A) :
  oblivious m -> (forall e, oblivious (handler e)) ->
  oblivious (try_except m catches handler).
Proof.
  intros Hm Hh w1 w2.
  destruct (Hm w1 w2) as (Hr & nt & ns & Ht1 & Ht2 & Hs1 & Hs2).
  unfold try_except.
  destruct (m w1) as [a w1'|e w1'], (m w2) as [a' w2'|e' w2'];
    cbn in Hr, Ht1, Ht2, Hs1, Hs2; try discriminate Hr.
  - split; [exact Hr|]. exists nt, ns. cbn. auto.
  - injection Hr as <-. destruct (catches e).
    + destruct (Hh e w1' w2') as (Hr' & nt' & ns' & Ht1' & Ht2' & Hs1' & Hs2').
      split; [exact Hr'|]. exists (nt ++ nt'), (ns ++ ns').
      rewrite Ht1', Ht2', Hs1', Hs2', Ht1, Ht2, Hs1, Hs2, <- !app_assoc. auto.
    + split; [reflexivity|]. exists nt, ns. cbn. auto.
Qed.

Lemma oblivious_for_each {A} (xs : list A) (body : A -> M World unit) :
  (forall x, oblivious (body x)) -> oblivious (for_each xs body).
Proof.
  intros Hbody. induction xs as [|x xs IH]; cbn [for_each].
  - apply oblivious_ret.
  - apply oblivious_bind; [apply Hbody|]. intros _. exact IH.
Qed.

Lemma oblivious_files_list_execute drive_service query :
  oblivious (files_list_execute drive_service query).
Proof.
  intros w1 w2. unfold files_list_execute.
  destruct (files_list drive_service query None); cbn;
    (split; [reflexivity|]); exists [], []; cbn; rewrite !app_nil_r; auto.
Qed.

(** When the Sheets service accepts every request, [append_to_sheet]
    adds its row whatever the sheet holds already. *)
Lemma oblivious_append_to_sheet sheets_service data_row :
  (forall n, values_append sheets_service n = None) ->
  oblivious (append_to_sheet sheets_service data_row).
Proof.
  intros Hok w1 w2.
  destruct data_row as [[|cell cells]|].
  - apply oblivious_ret.
  - rewrite !append_to_sheet_first_try by apply Hok.
    split; [reflexivity|]. exists [], [cell :: cells]. cbn.
    rewrite !app_nil_r. auto.
  - apply oblivious_ret.
Qed.

(** The [try] block of [process_video] reads only the files it has just
    written: what it returns and uploads does not depend on the world. *)
Lemma process_video_guarded_oblivious host drive_service file_id file_name
    folder_path (w1 w2 : World) :
  let o1 := process_video_guarded host drive_service file_id file_name
              folder_path (mkLocals None None, w1) in
  let o2 := process_video_guarded host drive_service file_id file_name
              folder_path (mkLocals None None, w2) in
  result o1 = result o2
  /\ exists new_thumbnails,
       thumbnails (snd (final o1)) = thumbnails w1 ++ new_thumbnails
       /\ thumbnails (snd (final o2)) = thumbnails w2 ++ new_thumbnails
       /\ sheet (snd (final o1)) = sheet w1
       /\ sheet (snd (final o2)) = sheet w2.
Proof.
    unfold process_video_guarded, try_except, process_video_try.
  unfold_calls. cbn.
  case_download drive_service file_id; cbn.
  { destruct (is_HttpError error); cbn; (split; [reflexivity|]); exists [];
      rewrite !app_nil_r; auto. }
  repeat (step; cbn; rewrite ?lookup_insert_eq).
  all: try no_thumbnail_failure.
  all: try congruence.
  all: split; [reflexivity|].
  all: first [ solve [exists []; rewrite !app_nil_r; auto]
             | solve [eexists; repeat split; reflexivity] ].
Qed.

Lemma oblivious_process_video host drive_service video_file folder_path :
  oblivious (process_video host drive_service video_file folder_path).
Proof.
  intros w1 w2.
  destruct (process_video_guarded_oblivious host drive_service
              (video_file !! "id") (video_file !! "name") folder_path
              (log_event (Print (MsgProcessing (video_file !! "name"))) w1)
              (log_event (Print (MsgProcessing (video_file !! "name"))) w2))
    as (Hr & nt & Ht1 & Ht2 & Hs1 & Hs2).
  split; [rewrite !process_video_result; exact Hr|].
  exists nt, []. rewrite !process_video_final, !app_nil_r.
  repeat match goal with
  | |- context [final (process_video_finally host ?s)] =>
      let Hth := fresh "Hth" in
      let Hsh := fresh "Hsh" in
      destruct (process_video_finally_effects host s) as (Hth & Hsh & _);
      cbn zeta in Hth, Hsh; rewrite Hth, Hsh; clear Hth Hsh
  end.
  repeat split; assumption.
Qed.

Lemma oblivious_traverse_item host traverse drive_service sheets_service
    current_path item :
  (forall n, values_append sheets_service n = None) ->
  (forall folder_id path, oblivious (traverse folder_id path)) ->
  oblivious (traverse_item host traverse drive_service sheets_service
               current_path item).
Proof.
  intros Hok Htraverse. unfold traverse_item.
  destruct (String.eqb _ folder_mime); [apply Htraverse|].
  destruct (Py.startswith _ _); [|apply oblivious_ret].
  apply oblivious_bind; [apply oblivious_process_video|].
  intros log_data. apply oblivious_bind; [apply oblivious_emit|].
  intros _. apply oblivious_append_to_sheet. exact Hok.
Qed.

Lemma oblivious_traverse_folder host depth drive_service sheets_service :
  (forall n, values_append sheets_service n = None) ->
  forall folder_id current_path,
    oblivious (traverse_folder host depth drive_service sheets_service
                 folder_id current_path).
Proof.
  intros Hok. induction depth as [|depth IH]; intros folder_id current_path.
  - apply oblivious_raise.
  - cbn [traverse_folder]. apply oblivious_try_except.
    + apply oblivious_bind; [apply oblivious_files_list_execute|].
      intros results. apply oblivious_for_each. intros item.
      apply oblivious_traverse_item; assumption.
    + intros e. apply oblivious_emit.
Qed.

(** C8: the walk consults neither the thumbnails already in Drive nor the
    rows already in the sheet.  With a Sheets service that accepts every
    request, a second walk over the same listings, started where the
    first one ended, ends as the first did and adds once more the very
    uploads and rows the first walk added: every thumbnail and every row
    of the first run is there twice. *)
Theorem second_run_repeats_uploads_and_rows
    (host : Host) (depth : nat) (drive_service : DriveService)
    (sheets_service : SheetsService) (folder_id : option string)
    (current_path : string) (w : World) :
  (forall n, values_append sheets_service n = None) ->
  let run :=
    traverse_folder host depth drive_service sheets_service folder_id
      current_path in
  let first := run w in
  let second := run (final first) in
  exists new_thumbnails new_rows,
    thumbnails (final first) = thumbnails w ++ new_thumbnails
    /\ sheet (final first) = sheet w ++ new_rows
    /\ result second = result first
    /\ thumbnails (final second) =
         thumbnails w ++ new_thumbnails ++ new_thumbnails
    /\ sheet (final second) = sheet w ++ new_rows ++ new_rows.
Proof.
  intros Hok run first second.
  destruct (oblivious_traverse_folder host depth drive_service sheets_service
              Hok folder_id current_path w (final first))
    as (Hr & nt & ns & Ht1 & Ht2 & Hs1 & Hs2).
  fold run in Hr, Ht1, Ht2, Hs1, Hs2. fold first in Hr, Ht1, Ht2, Hs1, Hs2.
  fold second in Hr, Ht2, Hs2.
  exists nt, ns. rewrite Ht2, Hs2, Ht1, Hs1, <- !app_assoc. auto.
Qed.

(** In the example, walking "root" twice leaves two thumbnails named
    "a_Thumbnail.jpg" in Drive and the same row twice in the sheet. *)
Lemma second_run_repeats_uploads_and_rows_example :
  let run :=
    traverse_folder Example.host 5 Example.drive Example.sheets_ok
      (Some "root") "Root" in
  let twice := final (run (final (run Example.empty_world))) in
  (forall n, values_append Example.sheets_ok n = None)
  /\ sheet (final (run Example.empty_world)) = [Example.a_row]
  /\ sheet twice = [Example.a_row; Example.a_row]
  /\ map up_name (thumbnails twice) = ["a_Thumbnail.jpg"; "a_Thumbnail.jpg"].
Proof.
  cbn zeta.
  assert (Hok : forall n, values_append Example.sheets_ok n = None)
    by reflexivity.
  destruct (second_run_repeats_uploads_and_rows Example.host 5 Example.drive
              Example.sheets_ok (Some "root") "Root" Example.empty_world Hok)
    as (nt & ns & Ht1 & Hs1 & _ & Ht2 & Hs2).
  cbn zeta in *.
  assert (Hns : ns = [Example.a_row]).
  { pose proof Hs1 as H. vm_compute in H. symmetry. exact H. }
  assert (Hnt : map up_name nt = ["a_Thumbnail.jpg"]).
  { change (thumbnails Example.empty_world ++ nt) with nt in Ht1.
    rewrite <- Ht1. vm_compute. reflexivity. }
  split; [exact Hok|].
  split; [rewrite Hs1, Hns; reflexivity|].
  split; [rewrite Hs2, Hns; reflexivity|].
  rewrite Ht2. cbn. rewrite map_app, Hnt. reflexivity.
Defined.

(** ** Listings in several pages *)

Lemma for_each_ext {S A} (xs : list A) (f g : A -> M S unit) :
  (forall x s, f x s = g x s) -> forall s, for_each xs f s = for_each xs g s.
Proof.
  intros Hfg. induction xs as [|x xs IH]; intros s; cbn; [reflexivity|].
  unfold bind. rewrite Hfg. destruct (g x s); [apply IH|reflexivity].
Qed.

(** X1: [traverse_folder] sends each listing request once, without a
    page token, and never reads [nextPageToken]: two Drives that answer the
    token-less requests alike are walked alike, whatever they would
    answer to a request for a further page. *)
Lemma traverse_folder_reads_first_pages_only host depth sheets_service
    (listing listing' : string -> option string -> exn + ListResponse)
    (media : option string -> list Z * (exn + bytes))
    (create : string -> list string -> bytes -> exn + dict) :
  (forall q, listing q None = listing' q None) ->
  forall folder_id current_path w,
    traverse_folder host depth (mkDrive listing media create) sheets_service
      folder_id current_path w =
    traverse_folder host depth (mkDrive listing' media create) sheets_service
      folder_id current_path w.
Proof.
  intros Hfirst. induction depth as [|depth IH]; intros folder_id current_path w.
  - reflexivity.
  - cbn [traverse_folder]. unfold try_except, bind, files_list_execute.
    cbn [files_list]. rewrite Hfirst.
    destruct (listing' (children_query folder_id) None) as [e|results];
      [reflexivity|].
    rewrite (for_each_ext (default [] (files results)) _
               (traverse_item host
                  (traverse_folder host depth (mkDrive listing' media create)
                     sheets_service)
                  (mkDrive listing' media create) sheets_service current_path)).
    + reflexivity.
    + intros item s. unfold traverse_item.
      destruct (String.eqb _ folder_mime); [apply IH|]. reflexivity.
Qed.

(** C1 fails on a listing in two pages.  In the example, the folder
    "paged" answers the first request with "a.mp4" and a [nextPageToken],
    and the request for that token with "b.mp4".  The walk sends one
    listing request and ends normally; "a.mp4" is processed, "b.mp4",
    a child on the second page, is never downloaded and gets no row. *)
Lemma children_beyond_the_first_page_are_not_visited :
  let q := children_query (Some "paged") in
  let o := traverse_folder Example.host 5 Example.drive Example.sheets_ok
             (Some "paged") "Paged" Example.empty_world in
  files_list Example.drive q None
    = inr (mkListResponse (Some [Example.a_mp4]) (Some "page2"))
  /\ files_list Example.drive q (Some "page2")
     = inr (mkListResponse (Some [Example.b_mp4]) None)
  /\ result o = inr tt
  /\ List.filter (fun e => match e with DriveList _ => true | _ => false end)
       (events (final o)) = [DriveList q]
  /\ List.filter is_download (events (final o)) = [DriveGetMedia (Some "v1")]
  /\ sheet (final o) =
       [[Some "a_Thumbnail.jpg"; Some "Paged";
         Some "https://drive.example/a_Thumbnail.jpg"]].
Proof. vm_compute. repeat split; reflexivity. Qed.

(** In the example, a Drive that answers every request as the example Drive
    answers the token-less one is walked exactly as the example Drive. *)
Lemma traverse_folder_reads_first_pages_only_example :
  (forall q,
     Example.listing q None =
     (fun q (_ : option string) => Example.listing q None) q None)
  /\ traverse_folder Example.host 5 Example.drive Example.sheets_ok
       (Some "paged") "Paged" Example.empty_world =
     traverse_folder Example.host 5
       (mkDrive (fun q _ => Example.listing q None) Example.media
          Example.created)
       Example.sheets_ok (Some "paged") "Paged" Example.empty_world.
Proof.
  split; [reflexivity|].
  apply (traverse_folder_reads_first_pages_only Example.host 5
           Example.sheets_ok Example.listing
           (fun q _ => Example.listing q None) Example.media Example.created).
  reflexivity.
Defined.

(** ** What [append_to_sheet] adds *)

(** What the retry loop adds, whatever the service answers: requests for
    this row, waits and lines, and the row at most once. *)
Lemma append_attempts_effects sheets_service row attempts :
  forall backoff w,
    let o := append_attempts sheets_service row attempts backoff w in
    thumbnails (final o) = thumbnails w
    /\ fs (final o) = fs w
    /\ exists new,
         events (final o) = events w ++ new
         /\ forallb is_append_step new = true
         /\ (forall r, In (SheetsAppend r) new -> r = row)
         /\ (attempts = [] \/ exists rest, new = SheetsAppend row :: rest)
         /\ ((sheet (final o) = sheet w /\ ~ In (Print MsgWroteToSheet) new)
             \/ (sheet (final o) = sheet w ++ [row]
                 /\ result o = inr tt
                 /\ last new = Some (Print MsgWroteToSheet))).
Proof.
  induction attempts as [|attempt attempts IH]; intros backoff w; cbn zeta.
  - cbn. split; [reflexivity|]. split; [reflexivity|].
    exists []. rewrite app_nil_r.
    split; [reflexivity|]. split; [reflexivity|]. split; [intros r []|].
    split; [left; reflexivity|]. left. split; [reflexivity|intros []].
  - cbn [append_attempts]. unfold try_except, bind, values_append_execute.
    destruct (values_append sheets_service _) as [error|]; cbn.
    + destruct (is_append_retryable error) eqn:E; cbn.
      * destruct (attempt + 1 =? max_retries)%Z; cbn.
        -- split; [reflexivity|]. split; [reflexivity|].
           eexists. rewrite <- !app_assoc. cbn.
           split; [reflexivity|]. split; [reflexivity|].
           split; [intros r [[= <-]|[[=]|[[=]|[]]]]; reflexivity|].
           split; [right; eexists; reflexivity|].
           left. split; [reflexivity|].
           intros [[=]|[[=]|[[=]|[]]]].
        -- match goal with
           | |- context [append_attempts _ _ _ _ ?w0] =>
               destruct (IH (backoff * 2)%Z w0)
                 as (Ht & Hf & new & Hev & Hall & Hrows & _ & Hsheet)
           end.
           cbn zeta in *. rewrite Ht, Hf. cbn.
           split; [reflexivity|]. split; [reflexivity|].
           rewrite Hev. cbn. rewrite <- !app_assoc. cbn.
           eexists. split; [reflexivity|]. cbn.
           split; [exact Hall|].
           split.
           { intros r [[= <-]|[[=]|[[=]|[[=]|Hin]]]]; [reflexivity|].
             apply Hrows. exact Hin. }
           split; [right; eexists; reflexivity|].
           destruct Hsheet as [[Hs Hnot]|(Hs & Hr & Hlast)].
           ++ left. split; [exact Hs|].
              intros [[=]|[[=]|[[=]|[[=]|Hin]]]]. exact (Hnot Hin).
           ++ right. split; [exact Hs|]. split; [exact Hr|].
              destruct new as [|e new]; [discriminate|]. exact Hlast.
      * split; [reflexivity|]. split; [reflexivity|].
        eexists. split; [reflexivity|]. cbn.
        split; [reflexivity|]. split; [intros r [[= <-]|[]]; reflexivity|].
        split; [right; eexists; reflexivity|].
        left. split; [reflexivity|]. intros [[=]|[]].
    + split; [reflexivity|]. split; [reflexivity|].
      eexists. rewrite <- !app_assoc. cbn.
      split; [reflexivity|]. split; [reflexivity|].
      split; [intros r [[= <-]|[[=]|[]]]; reflexivity|].
      split; [right; eexists; reflexivity|].
      right. repeat split.
Qed.

Lemma total_wait_app (l1 l2 : list Event) :
  total_wait (l1 ++ l2) = (total_wait l1 + total_wait l2)%Z.
Proof.
  induction l1 as [|e l1 IH]; [reflexivity|].
  destruct e; cbn; rewrite ?IH; lia.
Qed.

(** The waits of the retry schedule grow from a wait that is not
    negative: every part of the schedule waits a time that is not
    negative. *)
Lemma retry_schedule_part_wait row failures :
  forall backoff l1 l2,
    (0 <= backoff)%Z ->
    retry_schedule row failures backoff = l1 ++ l2 ->
    (0 <= total_wait l1)%Z /\ (0 <= total_wait l2)%Z.
Proof.
  induction failures as [|k IH]; intros backoff l1 l2 Hb Heq.
  - cbn in Heq. destruct l1 as [|e [|e' l1]]; cbn in Heq.
    + subst l2. cbn. lia.
    + injection Heq as <- <-. cbn. lia.
    + discriminate.
  - cbn [retry_schedule] in Heq.
    destruct l1 as [|e [|e' l1]]; cbn in Heq.
    + subst l2. cbn.
      destruct (IH (backoff * 2)%Z [] (retry_schedule row k (backoff * 2)))
        as [_ H]; [lia|reflexivity|]. lia.
    + injection Heq as <- <-. cbn.
      destruct (IH (backoff * 2)%Z [] (retry_schedule row k (backoff * 2)))
        as [_ H]; [lia|reflexivity|]. lia.
    + injection Heq as <- <- Heq.
      destruct (IH (backoff * 2)%Z l1 l2) as [H1 H2]; [lia|exact Heq|].
      cbn. lia.
Qed.

(** The five attempts of [append_to_sheet] wait 30 seconds at most. *)
Lemma append_to_sheet_wait sheets_service row w new :
  events (final (append_attempts sheets_service row
                   (range (Z.to_nat max_retries)) 2 w)) = events w ++ new ->
  (0 <= total_wait new <= 30)%Z.
Proof.
  intros Hnew.
  change (range (Z.to_nat max_retries)) with (map Z.of_nat (seq (5 - 5) 5))
    in Hnew.
  destruct (append_attempts_schedule sheets_service row 5 2%Z w)
    as (new' & Hev & [rest Hrest] & _); [lia|].
  rewrite Hnew in Hev. apply app_inv_head in Hev. subst new'.
  destruct (retry_schedule_part_wait row 4 2%Z (schedule new) rest)
    as [H1 H2]; [lia|exact Hrest|].
  assert (Htotal : (total_wait (schedule new) + total_wait rest = 30)%Z).
  { rewrite <- total_wait_app, <- Hrest. reflexivity. }
  rewrite total_wait_schedule in *. lia.
Qed.


(** Requests to the sheet, waits and lines are no requests to Drive. *)
Lemma append_steps_send_nothing_to_drive (new : list Event) :
  forallb is_append_step new = true ->
  List.filter is_download new = []
  /\ forall name parents, ~ In (DriveCreate name parents) new.
Proof.
  induction new as [|e new IH]; cbn; [intros _; split; [reflexivity|]; tauto|].
  intros H. apply andb_prop in H as [He H]. destruct (IH H) as [IH1 IH2].
  destruct e; try discriminate He; cbn; (split; [exact IH1|]);
    intros name parents [[=]|Hin]; exact (IH2 _ _ Hin).
Qed.

(** What [append_to_sheet] adds, whatever the service answers. *)
Lemma append_to_sheet_effects sheets_service data_row w :
  let o := append_to_sheet sheets_service data_row w in
  thumbnails (final o) = thumbnails w
  /\ fs (final o) = fs w
  /\ exists new,
       events (final o) = events w ++ new
       /\ forallb is_append_step new = true
       /\ (row_truthy data_row = false -> o = Returned tt w /\ new = [])
       /\ (forall r, In (SheetsAppend r) new -> data_row = Some r)
       /\ (row_truthy data_row = true ->
           exists row rest,
             data_row = Some row /\ new = SheetsAppend row :: rest)
       /\ (0 <= total_wait new <= 30)%Z
       /\ ((sheet (final o) = sheet w /\ ~ In (Print MsgWroteToSheet) new)
           \/ (exists row,
                 data_row = Some row
                 /\ sheet (final o) = sheet w ++ [row]
                 /\ result o = inr tt
                 /\ last new = Some (Print MsgWroteToSheet))).
Proof.
  cbn zeta. unfold append_to_sheet.
  destruct (row_truthy data_row) eqn:Htruthy; cbn [negb].
  - destruct data_row as [[|cell row]|]; try discriminate. cbn [default].
    destruct (append_attempts_effects sheets_service (cell :: row)
                (range (Z.to_nat max_retries)) 2%Z w)
      as (Ht & Hf & new & Hev & Hall & Hrows & Hfirst & Hsheet).
    cbn zeta in *.
    split; [exact Ht|]. split; [exact Hf|]. exists new.
    split; [exact Hev|]. split; [exact Hall|]. split; [discriminate|].
    split; [intros r Hin; f_equal; symmetry; exact (Hrows r Hin)|].
    split.
    { intros _. destruct Hfirst as [Hnil|[rest ->]]; [discriminate Hnil|].
      exists (cell :: row), rest. split; reflexivity. }
    split; [exact (append_to_sheet_wait _ _ _ _ Hev)|].
    destruct Hsheet as [H|(Hs & Hr & Hl)]; [left; exact H|].
    right. exists (cell :: row). repeat split; assumption.
  - cbn. split; [reflexivity|]. split; [reflexivity|].
    exists []. rewrite app_nil_r. split; [reflexivity|].
    split; [reflexivity|]. split; [intros _; split; reflexivity|].
    split; [intros r []|]. split; [discriminate|]. split; [cbn; lia|].
    left. split; [reflexivity|intros []].
Qed.

(** The answers to the requests of the retry loop: a request that the
    service accepts is the last one, and the success line follows it. *)
Lemma append_attempts_answers sheets_service row attempts :
  forall backoff w,
    let o := append_attempts sheets_service row attempts backoff w in
    exists new,
      events (final o) = events w ++ new
      /\ (append_requests new = 0 -> new = [])
      /\ (last new = Some (Print MsgWroteToSheet) -> result o = inr tt)
      /\ forall i, i < append_requests new ->
           (values_append sheets_service (append_requests (events w) + i)
              = None
            <-> i + 1 = append_requests new
                /\ last new = Some (Print MsgWroteToSheet)).
Proof.
  induction attempts as [|attempt attempts IH]; intros backoff w; cbn zeta.
  - exists []. cbn. rewrite app_nil_r. split; [reflexivity|].
    split; [reflexivity|]. split; [discriminate|]. intros i Hi. lia.
  - cbn [append_attempts]. unfold try_except, bind, values_append_execute.
    destruct (values_append sheets_service (append_requests (events w)))
      as [error|] eqn:Hans; cbn.
    + destruct (is_append_retryable error) eqn:E; cbn.
      * destruct (attempt + 1 =? max_retries)%Z; cbn.
        -- eexists. rewrite <- !app_assoc. cbn.
           split; [reflexivity|]. split; [discriminate|].
           split; [discriminate|]. intros i Hi.
           assert (i = 0) as -> by (cbn in Hi; lia).
           rewrite Nat.add_0_r, Hans. cbn.
           split; [discriminate|intros [_ [=]]].
        -- match goal with
           | |- context [append_attempts _ _ _ _ ?w0] =>
               destruct (IH (backoff * 2)%Z w0)
                 as (new & Hev & Hnil & Hlast & Hanswers)
           end.
           cbn zeta in *. rewrite Hev. cbn. rewrite <- !app_assoc. cbn.
           eexists. split; [reflexivity|]. cbn.
           split; [discriminate|].
           cbn in Hanswers. rewrite !append_requests_app in Hanswers.
           cbn in Hanswers.
           set (k := append_requests new) in *.
           destruct new as [|e new]; cbn [last].
           ++ split; [discriminate|]. intros i Hi.
              assert (i = 0) as -> by (cbn in Hi; lia).
              rewrite Nat.add_0_r, Hans.
              split; [discriminate|intros [_ [=]]].
           ++ split; [exact Hlast|]. intros [|i] Hi.
              ** rewrite Nat.add_0_r, Hans. split; [discriminate|].
                 intros [Hone _].
                 assert (Hzero : k = 0) by lia.
                 apply Hnil in Hzero. discriminate Hzero.
              ** replace (append_requests (events w) + S i)
                   with (append_requests (events w) + 1 + 0 + 0 + 0 + i)
                   by lia.
                 rewrite (Hanswers i) by lia.
                 split; intros [H1 H2]; (split; [lia|exact H2]).
      * eexists. split; [reflexivity|]. cbn.
        split; [discriminate|]. split; [discriminate|]. intros i Hi.
        assert (i = 0) as -> by (cbn in Hi; lia).
           rewrite Nat.add_0_r, Hans. cbn.
        split; [discriminate|intros [_ [=]]].
    + eexists. rewrite <- !app_assoc. cbn.
      split; [reflexivity|]. split; [discriminate|].
      split; [reflexivity|]. intros i Hi.
      assert (i = 0) as -> by (cbn in Hi; lia).
           rewrite Nat.add_0_r, Hans. cbn.
      split; [intros _; split; reflexivity|reflexivity].
Qed.

(** X2: whatever the Sheets service answers, [append_to_sheet] leaves
    Drive and the local files alone; all it does is send requests for the
    row it was given, sleep and print; it sends at most five requests and
    sleeps between 0 and 30 seconds in all.  It stops at the first request
    that the service accepts: a request is accepted exactly when it is the
    last one sent and the success line is the last thing the function
    did, and the function has then returned.  On [None] or an empty row
    it returns at once and does nothing. *)
Theorem append_to_sheet_stops_at_the_accepted_request
    (sheets_service : SheetsService) (data_row : option Row) (w : World) :
  let o := append_to_sheet sheets_service data_row w in
  thumbnails (final o) = thumbnails w
  /\ fs (final o) = fs w
  /\ (row_truthy data_row = false -> o = Returned tt w)
  /\ exists new,
       events (final o) = events w ++ new
       /\ forallb is_append_step new = true
       /\ (forall r, In (SheetsAppend r) new -> data_row = Some r)
       /\ append_requests new <= 5
       /\ (0 <= total_wait new <= 30)%Z
       /\ (last new = Some (Print MsgWroteToSheet) -> result o = inr tt)
       /\ forall i, i < append_requests new ->
            (values_append sheets_service (append_requests (events w) + i)
               = None
             <-> i + 1 = append_requests new
                 /\ last new = Some (Print MsgWroteToSheet)).
Proof.
  destruct (append_to_sheet_effects sheets_service data_row w)
    as (Ht & Hf & new & Hev & Hsteps & Hfalsy & Hrows & _ & Hwait & _).
  cbn zeta in *. split; [exact Ht|]. split; [exact Hf|].
  split; [intros H; exact (proj1 (Hfalsy H))|].
  exists new. split; [exact Hev|]. split; [exact Hsteps|].
  split; [exact Hrows|].
  revert Hev. unfold append_to_sheet.
  destruct (negb (row_truthy data_row)).
  { cbn. intros Hev.
    assert (new = []) as ->.
    { apply (app_inv_head (events w)). rewrite app_nil_r. symmetry.
      exact Hev. }
    cbn. split; [lia|]. split; [exact Hwait|]. split; [discriminate|].
    intros i Hi. lia. }
  intros Hev.
  split.
  { change (range (Z.to_nat max_retries)) with (map Z.of_nat (seq (5 - 5) 5))
      in Hev.
    destruct (append_attempts_schedule sheets_service (default [] data_row)
                5 2%Z w) as (new' & Hev' & Hprefix & _); [lia|].
    rewrite Hev in Hev'. apply app_inv_head in Hev'. subst new'.
    rewrite <- append_requests_schedule.
    apply append_requests_prefix in Hprefix. exact Hprefix. }
  split; [exact Hwait|].
  destruct (append_attempts_answers sheets_service (default [] data_row)
              (range (Z.to_nat max_retries)) 2%Z w)
    as (new' & Hev' & _ & Hlast & Hanswers).
  cbn zeta in *. rewrite Hev in Hev'. apply app_inv_head in Hev'. subst new'.
  split; [exact Hlast|exact Hanswers].
Qed.

(** [k] failures with errors of the [except] clause, none on the last
    attempt, then an error outside it: the error leaves the loop at that
    request. *)
Lemma append_attempts_fail_then_raise sheets_service row (k : nat) :
  forall a len backoff w error,
    a + k < 5 -> k < len ->
    fails_next sheets_service w k ->
    values_append sheets_service (append_requests (events w) + k)
      = Some error ->
    is_append_retryable error = false ->
    exists new,
      let o := append_attempts sheets_service row
                 (map Z.of_nat (seq a len)) backoff w in
      result o = inl error
      /\ events (final o) = events w ++ new
      /\ schedule new = retry_schedule row k backoff
      /\ last new = Some (SheetsAppend row)
      /\ sheet (final o) = sheet w.
Proof.
  induction k as [|k IH]; intros a len backoff w error Ha Hlen Hfail Herr Hno.
  - destruct len as [|len]; [lia|]. cbn [seq map].
    rewrite Nat.add_0_r in Herr.
    rewrite (append_attempts_propagate _ _ _ _ _ _ _ Herr Hno).
    eexists. cbn. repeat split; reflexivity.
  - destruct len as [|len]; [lia|]. cbn [seq map].
    destruct (Hfail 0) as (error0 & Herr0 & Hretry); [lia|].
    rewrite Nat.add_0_r in Herr0.
    rewrite (append_attempts_retry _ _ _ _ _ _ _ Herr0 Hretry)
      by (unfold max_retries; lia).
    set (w1 := log_event (Sleep backoff) _).
    assert (Hn : append_requests (events w1) = S (append_requests (events w))).
    { subst w1. cbn. rewrite !append_requests_app. cbn. lia. }
    destruct (IH (S a) len (backoff * 2)%Z w1 error)
      as (new & Hres & Hev & Hsch & Hlast & Hsheet).
    + lia.
    + lia.
    + intros i Hi. rewrite Hn. destruct (Hfail (S i)) as (e & He & Hr); [lia|].
      exists e. split; [|exact Hr]. rewrite <- He. f_equal. lia.
    + rewrite Hn. rewrite <- Herr. f_equal. lia.
    + exact Hno.
    + cbn zeta in *. rewrite Hres, Hev, Hsheet. subst w1. cbn.
      exists ([SheetsAppend row;
               Print (MsgAttemptFailed (Z.of_nat a + 1)%Z error0);
               Print (MsgRetrying backoff); Sleep backoff] ++ new).
      rewrite <- !app_assoc. rewrite schedule_app, Hsch.
      split; [reflexivity|]. split; [reflexivity|]. split; [reflexivity|].
      split; [|reflexivity].
      destruct new as [|e new]; [discriminate|]. exact Hlast.
Qed.

Theorem append_to_sheet_other_error_is_raised
    (sheets_service : SheetsService) (row : Row) (w : World) (k : nat)
    (error : exn) :
  row <> [] ->
  k < 5 ->
  fails_next sheets_service w k ->
  values_append sheets_service (append_requests (events w) + k) = Some error ->
  is_append_retryable error = false ->
  let o := append_to_sheet sheets_service (Some row) w in
  result o = inl error
  /\ sheet (final o) = sheet w
  /\ exists new,
       events (final o) = events w ++ new
       /\ schedule new = retry_schedule row k 2
       /\ last new = Some (SheetsAppend row).
Proof.
  intros Hrow Hk Hfail Herr Hno. cbn zeta. unfold append_to_sheet.
  destruct row as [|cell row']; [contradiction|]. cbn [row_truthy negb default].
  change (range (Z.to_nat max_retries)) with (map Z.of_nat (seq 0 5)).
  destruct (append_attempts_fail_then_raise sheets_service (cell :: row') k
              0 5 2%Z w error) as (new & Hres & Hev & Hsch & Hlast & Hsheet);
    try assumption; try lia.
  cbn zeta in *. split; [exact Hres|]. split; [exact Hsheet|].
  exists new. repeat split; assumption.
Qed.

(** In the example, the service answers 503 and then loses the
    connection: after one wait of 2 seconds the second request raises the
    [OSError], and the row is not written. *)
Lemma append_to_sheet_other_error_is_raised_example :
  let o := append_to_sheet Cases.sheets_disconnecting (Some Example.a_row)
             Example.empty_world in
  values_append Cases.sheets_disconnecting 0 = Some (HttpError 503)
  /\ values_append Cases.sheets_disconnecting 1 = Some OSError
  /\ result o = inl OSError
  /\ sheet (final o) = []
  /\ schedule (events (final o)) =
       [SheetsAppend Example.a_row; Sleep 2; SheetsAppend Example.a_row].
Proof.
  cbn zeta.
  destruct (append_to_sheet_other_error_is_raised Cases.sheets_disconnecting
              Example.a_row Example.empty_world 1 OSError)
    as (Hres & Hsheet & new & Hev & Hsch & _).
  - discriminate.
  - lia.
  - intros i Hi. exists (HttpError 503). split; [|reflexivity].
    destruct i; [reflexivity|lia].
  - reflexivity.
  - reflexivity.
  - cbn zeta in *. split; [reflexivity|]. split; [reflexivity|].
    split; [exact Hres|]. split; [exact Hsheet|].
    rewrite Hev. exact Hsch.
Defined.

(** ** What [process_video] adds *)

(** What the [try ... except HttpError] part of [process_video] adds, on
    every way out: one download request; no row; and one file in Drive
    exactly when it returns a row. *)
Lemma process_video_guarded_effects host drive_service file_id file_name
    folder_path w :
  let o := process_video_guarded host drive_service file_id file_name
             folder_path (mkLocals None None, w) in
  sheet (snd (final o)) = sheet w
  /\ exists new,
       events (snd (final o)) = events w ++ new
       /\ List.filter is_download new = [DriveGetMedia file_id]
       /\ ((exists name cell link media,
              file_name = Some name
              /\ result o = inr (Some [cell; Some folder_path; link])
              /\ thumbnails (snd (final o)) =
                   thumbnails w ++
                     [mkUpload (thumbnail_name_of name)
                        [THUMBNAIL_FOLDER_ID host] media]
              /\ List.filter is_upload_or_append new =
                   [DriveCreate (thumbnail_name_of name)
                      [THUMBNAIL_FOLDER_ID host]])
           \/ ((forall row, result o <> inr (Some row))
               /\ thumbnails (snd (final o)) = thumbnails w
               /\ (List.filter is_upload_or_append new = []
                   \/ exists name,
                        file_name = Some name
                        /\ List.filter is_upload_or_append new =
                             [DriveCreate (thumbnail_name_of name)
                                [THUMBNAIL_FOLDER_ID host]]))).
Proof.
  unfold process_video_guarded, try_except, process_video_try.
  unfold_calls. cbn.
  case_download drive_service file_id; cbn.
  { destruct (is_HttpError error); cbn; (split; [reflexivity|]);
      rewrite <- ?app_assoc; eexists; (split; [reflexivity|]);
      rewrite ?List.filter_app, ?(proj1 (download_log_sends _ _)),
        ?(proj2 (download_log_sends _ _)); cbn;
      (split; [reflexivity|]); right;
      (split; [intros row; discriminate|]); (split; [reflexivity|]);
      left; reflexivity. }
  repeat (step; cbn; rewrite ?lookup_insert_eq).
  all: try no_thumbnail_failure.
  all: try congruence.
  all: split; [reflexivity|].
  all: rewrite <- ?app_assoc; eexists; (split; [reflexivity|]).
  all: rewrite ?List.filter_app, ?(proj1 (download_log_sends _ _)),
         ?(proj2 (download_log_sends _ _)); cbn.
  all: split; [reflexivity|].
  all: first
    [ right; (split; [intros row; discriminate|]); (split; [reflexivity|]);
      first [ left; reflexivity | right; eexists; split; reflexivity ]
    | left; do 4 eexists; repeat split; reflexivity ].
Qed.

(** What [process_video] adds, on every way out: one download request;
    no row; and one file in Drive exactly when it returns a row. *)
Lemma process_video_effects host drive_service video_file folder_path w :
  let o := process_video host drive_service video_file folder_path w in
  sheet (final o) = sheet w
  /\ exists new,
       events (final o) = events w ++ new
       /\ List.filter is_download new = [DriveGetMedia (video_file !! "id")]
       /\ ((exists name cell link media,
              video_file !! "name" = Some name
              /\ result o = inr (Some [cell; Some folder_path; link])
              /\ thumbnails (final o) =
                   thumbnails w ++
                     [mkUpload (thumbnail_name_of name)
                        [THUMBNAIL_FOLDER_ID host] media]
              /\ List.filter is_upload_or_append new =
                   [DriveCreate (thumbnail_name_of name)
                      [THUMBNAIL_FOLDER_ID host]])
           \/ ((forall row, result o <> inr (Some row))
               /\ thumbnails (final o) = thumbnails w
               /\ (List.filter is_upload_or_append new = []
                   \/ exists name,
                        video_file !! "name" = Some name
                        /\ List.filter is_upload_or_append new =
                             [DriveCreate (thumbnail_name_of name)
                                [THUMBNAIL_FOLDER_ID host]]))).
Proof.
  cbn zeta. rewrite process_video_result, process_video_final.
  set (w0 := log_event (Print (MsgProcessing (video_file !! "name"))) w).
  destruct (process_video_guarded_effects host drive_service
              (video_file !! "id") (video_file !! "name") folder_path w0)
    as (Hsheet & new & Hev & Hdl & Hcases).
  cbn zeta in *.
  set (o := process_video_guarded _ _ _ _ _ _) in *. clearbody o.
  destruct (process_video_finally_effects host (final o))
    as (Hth & Hsh & cleanup & Hev' & Hclean).
  cbn zeta in *.
  destruct (cleanup_events_send_nothing cleanup Hclean) as [Hnone Hnodl].
  rewrite Hsh, Hsheet. split; [reflexivity|].
  exists ([Print (MsgProcessing (video_file !! "name"))] ++ new ++ cleanup).
  rewrite Hev', Hev. subst w0. cbn [events log_event].
  split; [rewrite <- !app_assoc; reflexivity|].
  rewrite !List.filter_app, Hdl, Hnodl, Hnone, Hth. cbn [List.filter is_download
    is_upload_or_append app]. rewrite !app_nil_r.
  split; [reflexivity|]. exact Hcases.
Qed.

(** The only upload request of [process_video] goes to the thumbnail
    folder, under the thumbnail's name. *)
Lemma process_video_creates host drive_service video_file folder_path w new :
  events (final (process_video host drive_service video_file folder_path w))
    = events w ++ new ->
  (forall r, ~ In (SheetsAppend r) new)
  /\ forall name parents,
       In (DriveCreate name parents) new ->
       parents = [THUMBNAIL_FOLDER_ID host]
       /\ exists video,
            video_file !! "name" = Some video
            /\ name = thumbnail_name_of video.
Proof.
  intros Hnew.
  destruct (process_video_effects host drive_service video_file folder_path w)
    as (_ & new' & Hev & _ & Hcases).
  cbn zeta in *. rewrite Hnew in Hev. apply app_inv_head in Hev. subst new'.
  assert (Hin : forall e, is_upload_or_append e = true -> In e new ->
                  In e (List.filter is_upload_or_append new)).
  { intros e He Hin. apply List.filter_In. split; assumption. }
  assert (Hup : List.filter is_upload_or_append new = []
                \/ exists video,
                     video_file !! "name" = Some video
                     /\ List.filter is_upload_or_append new =
                          [DriveCreate (thumbnail_name_of video)
                             [THUMBNAIL_FOLDER_ID host]]).
  { destruct Hcases as [(video & cell & link & media & Hname & _ & _ & Hup)
                       |(_ & _ & Hup)]; [|exact Hup].
    right. exists video. split; assumption. }
  split.
  - intros r Hr. apply Hin in Hr; [|reflexivity].
    destruct Hup as [Hup|(video & _ & Hup)]; rewrite Hup in Hr; cbn in Hr;
      intuition discriminate.
  - intros name parents Hc. apply Hin in Hc; [|reflexivity].
    destruct Hup as [Hup|(video & Hname & Hup)]; rewrite Hup in Hc;
      cbn in Hc; [contradiction|].
    destruct Hc as [[= <- <-]|[]]. split; [reflexivity|].
    exists video. split; [exact Hname|reflexivity].
Qed.


(** The turn of a video in the loop: the pipeline, the debugging line and
    the append.  One download; append requests exactly when the pipeline
    returned a row, and then for that row; a row in the sheet only after
    its upload. *)
Lemma visit_video_effects host drive_service sheets_service current_path
    item w :
  let pipeline := process_video host drive_service item current_path w in
  let o :=
    bind (process_video host drive_service item current_path)
      (fun log_data =>
         bind (print (MsgDataToBeLogged log_data))
           (fun _ => append_to_sheet sheets_service log_data)) w in
  exists ups rows evs,
    thumbnails (final o) = thumbnails w ++ ups
    /\ sheet (final o) = sheet w ++ rows
    /\ events (final o) = events w ++ evs
    /\ List.filter is_download evs = [DriveGetMedia (item !! "id")]
    /\ (forall name parents,
          In (DriveCreate name parents) evs ->
          parents = [THUMBNAIL_FOLDER_ID host]
          /\ exists video,
               item !! "name" = Some video /\ name = thumbnail_name_of video)
    /\ (((forall row, result pipeline <> inr (Some row))
         /\ ups = [] /\ rows = []
         /\ forall r, ~ In (SheetsAppend r) evs)
        \/ (exists name cell link media,
              let row := [cell; Some current_path; link] in
              item !! "name" = Some name
              /\ result pipeline = inr (Some row)
              /\ ups = [mkUpload (thumbnail_name_of name)
                          [THUMBNAIL_FOLDER_ID host] media]
              /\ (rows = [] \/ rows = [row])
              /\ In (SheetsAppend row) evs
              /\ forall r, In (SheetsAppend r) evs -> r = row)).
Proof.
  cbn zeta.
  destruct (process_video_effects host drive_service item current_path w)
    as (Hsheet & new & Hev & Hdl & Hcases).
  cbn zeta in *.
  destruct (process_video_creates host drive_service item current_path w new
              Hev) as [Hnone Hcreate].
  unfold bind, print, emit.
  destruct (process_video host drive_service item current_path w)
    as [log_data w1|e w1] eqn:Hpv; cbn [result final] in *.
  - set (w2 := log_event (Print (MsgDataToBeLogged log_data)) w1).
    destruct (append_to_sheet_effects sheets_service log_data w2)
      as (Ht & _ & steps & Hev2 & Hsteps & Hfalsy & Hreq & Hfirst & _ & Hsh).
    cbn zeta in *.
    destruct (append_steps_send_nothing_to_drive steps Hsteps)
      as [Hnodl Hnocreate].
    assert (Hcreates : forall name parents,
              In (DriveCreate name parents)
                (new ++ [Print (MsgDataToBeLogged log_data)] ++ steps) ->
              parents = [THUMBNAIL_FOLDER_ID host]
              /\ exists video,
                   item !! "name" = Some video
                   /\ name = thumbnail_name_of video).
    { intros name parents Hin. apply in_app_or in Hin as [Hin|Hin];
        [exact (Hcreate _ _ Hin)|].
      apply in_app_or in Hin as [[[=]|[]]|Hin].
      destruct (Hnocreate _ _ Hin). }
    assert (Hevs : events (final (append_to_sheet sheets_service log_data w2))
                   = events w ++
                       new ++ [Print (MsgDataToBeLogged log_data)] ++ steps).
    { rewrite Hev2. subst w2. cbn [events log_event]. rewrite Hev.
      rewrite <- !app_assoc. reflexivity. }
    destruct Hcases as [(name & cell & link & media & Hname & Hres & Hth & _)
                       |(Hno & Hth & _)].
    + injection Hres as ->.
      destruct Hfirst as (row0 & rest & Hrow & Hsteps'); [reflexivity|].
      injection Hrow as <-.
      assert (Hrequests :
        let row := [cell; Some current_path; link] in
        let evs := new ++ [Print (MsgDataToBeLogged (Some row))] ++ steps in
        In (SheetsAppend row) evs
        /\ forall r, In (SheetsAppend r) evs -> r = row).
      { cbn zeta. split.
        - apply in_or_app. right. apply in_or_app. right. rewrite Hsteps'.
          left. reflexivity.
        - intros r Hin. apply in_app_or in Hin as [Hin|Hin];
            [destruct (Hnone r Hin)|].
          apply in_app_or in Hin as [[[=]|[]]|Hin].
          specialize (Hreq r Hin). injection Hreq as <-. reflexivity. }
      exists [mkUpload (thumbnail_name_of name) [THUMBNAIL_FOLDER_ID host]
                media].
      cbn zeta in Hrequests.
      destruct Hsh as [[Hs _]|(row0 & Hrow & Hs & _)].
      * exists []. eexists. rewrite Ht, Hs. subst w2.
        cbn [thumbnails sheet log_event]. rewrite Hsheet, app_nil_r.
        split; [exact Hth|]. split; [reflexivity|]. split; [exact Hevs|].
        split; [rewrite !List.filter_app, Hdl, Hnodl; reflexivity|].
        split; [exact Hcreates|].
        right. exists name, cell, link, media. cbn zeta.
        split; [exact Hname|]. split; [reflexivity|]. split; [reflexivity|].
        split; [left; reflexivity|]. exact Hrequests.
      * injection Hrow as <-.
        exists [[cell; Some current_path; link]]. eexists. rewrite Ht, Hs.
        subst w2. cbn [thumbnails sheet log_event]. rewrite Hsheet.
        split; [exact Hth|]. split; [reflexivity|]. split; [exact Hevs|].
        split; [rewrite !List.filter_app, Hdl, Hnodl; reflexivity|].
        split; [exact Hcreates|].
        right. exists name, cell, link, media. cbn zeta.
        split; [exact Hname|]. split; [reflexivity|]. split; [reflexivity|].
        split; [right; reflexivity|]. exact Hrequests.
    + assert (Hfalse : row_truthy log_data = false).
      { destruct log_data as [[|c r]|]; try reflexivity.
        destruct (Hno (c :: r)). reflexivity. }
      destruct (Hfalsy Hfalse) as [Hret ->]. rewrite Hret. cbn [final].
      exists [], [], (new ++ [Print (MsgDataToBeLogged log_data)]).
      subst w2. cbn [thumbnails sheet events log_event].
      rewrite Hth, Hsheet, Hev, !app_nil_r, <- app_assoc.
      split; [reflexivity|]. split; [reflexivity|]. split; [reflexivity|].
      split; [rewrite List.filter_app, Hdl; reflexivity|].
      split; [rewrite app_nil_r in Hcreates; exact Hcreates|].
      left. split; [exact Hno|]. split; [reflexivity|]. split; [reflexivity|].
      intros r Hin. apply in_app_or in Hin as [Hin|[[=]|[]]].
      exact (Hnone r Hin).
  - destruct Hcases as [(name & cell & link & media & _ & Hres & _)
                       |(Hno & Hth & _)]; [discriminate Hres|].
    exists [], [], new. rewrite Hth, Hsheet, Hev, !app_nil_r.
    split; [reflexivity|]. split; [reflexivity|]. split; [reflexivity|].
    split; [exact Hdl|]. split; [exact Hcreate|].
    left. split; [exact Hno|]. split; [reflexivity|]. split; [reflexivity|].
    exact Hnone.
Qed.

(** X5: the turn of a video in the loop of [traverse_folder].  Requests
    go to the sheet exactly when [process_video] returned a row, and then
    each of them carries that row, which is added at most once.  When
    [process_video] returned [None] or raised, no request is sent and the
    sheet gets no row. *)
Theorem video_row_is_requested_exactly_when_returned
    (host : Host) (traverse : option string -> string -> M World unit)
    (drive_service : DriveService) (sheets_service : SheetsService)
    (current_path : string) (item : dict) (w : World) :
  Py.startswith (default "" (item !! "mimeType")) "video/" = true ->
  let pipeline := process_video host drive_service item current_path w in
  let o :=
    traverse_item host traverse drive_service sheets_service current_path
      item w in
  exists new_rows new_events,
    sheet (final o) = sheet w ++ new_rows
    /\ events (final o) = events w ++ new_events
    /\ ((forall row, result pipeline <> inr (Some row)) ->
        new_rows = [] /\ forall r, ~ In (SheetsAppend r) new_events)
    /\ (forall row,
          result pipeline = inr (Some row) ->
          In (SheetsAppend row) new_events
          /\ (forall r, In (SheetsAppend r) new_events -> r = row)
          /\ (new_rows = [] \/ new_rows = [row])).
Proof.
  intros Hvideo pipeline o. subst o.
  rewrite (traverse_item_video _ _ _ _ _ _ _ Hvideo).
  destruct (visit_video_effects host drive_service sheets_service
              current_path item w)
    as (ups & rows & evs & _ & Hrows & Hevs & _ & _ & Hcases).
  cbn zeta in *. fold pipeline in Hcases.
  exists rows, evs. split; [exact Hrows|]. split; [exact Hevs|].
  destruct Hcases as [(Hno & _ & -> & Hnone)
                     |(name & cell & link & media & _ & Hres & _ & Hwritten
                       & Hin & Honly)].
  - split; [intros _; split; [reflexivity|exact Hnone]|].
    intros row Hres. destruct (Hno row Hres).
  - split; [intros Hno; destruct (Hno _ Hres)|].
    intros row Hrow. rewrite Hres in Hrow. injection Hrow as <-.
    repeat split; assumption.
Qed.

(** In the example, "a.mp4" gets its thumbnail and its row is returned;
    the Sheets service is down, so the row is requested and never
    written. *)
Lemma video_row_is_requested_exactly_when_returned_example :
  let o :=
    traverse_item Example.host
      (traverse_folder Example.host 4 Example.drive Example.sheets_down)
      Example.drive Example.sheets_down "Root/Clips" Example.a_mp4
      Example.empty_world in
  Py.startswith (default "" (Example.a_mp4 !! "mimeType")) "video/" = true
  /\ result (process_video Example.host Example.drive Example.a_mp4
               "Root/Clips" Example.empty_world) = inr (Some Example.a_row)
  /\ In (SheetsAppend Example.a_row) (events (final o))
  /\ sheet (final o) = [].
Proof.
  cbn zeta.
  destruct (video_row_is_requested_exactly_when_returned Example.host
              (traverse_folder Example.host 4 Example.drive
                 Example.sheets_down)
              Example.drive Example.sheets_down "Root/Clips" Example.a_mp4
              Example.empty_world eq_refl)
    as (rows & evs & Hrows & Hevs & _ & Hrow).
  cbn zeta in *.
  destruct (Hrow Example.a_row) as (Hin & _); [vm_compute; reflexivity|].
  split; [reflexivity|]. split; [vm_compute; reflexivity|].
  split; [rewrite Hevs; exact Hin|]. vm_compute. reflexivity.
Defined.

(** ** What the walk adds *)

(** A property [Q] of what is added, indexed by the path of the folder
    walked, is kept by the walk when it holds of nothing, of a listing
    request, of the line that reports an error, of what two programs add
    one after
    the other, of what the walk of a sub-folder adds, and of the turn of a
    video in the loop. *)
Section Adds.

Variable Q : string -> list Upload -> list Row -> list Event -> Prop.

Hypothesis Q_nil : forall path, Q path [] [] [].

Hypothesis Q_list : forall path query, Q path [] [] [DriveList query].

Hypothesis Q_error :
  forall path error, Q path [] [] [Print (MsgErrorOccurred error)].

Hypothesis Q_app :
  forall path ups1 rows1 evs1 ups2 rows2 evs2,
    Q path ups1 rows1 evs1 -> Q path ups2 rows2 evs2 ->
    Q path (ups1 ++ ups2) (rows1 ++ rows2) (evs1 ++ evs2).

Hypothesis Q_down :
  forall path name ups rows evs,
    Q (path +:+ "/" +:+ name) ups rows evs -> Q path ups rows evs.

Lemma adds_ret {A} path (a : A) : adds (Q path) (ret a).
Proof.
  intros w. exists [], [], []. cbn. rewrite !app_nil_r. repeat split.
  apply Q_nil.
Qed.

Lemma adds_raise {A} path (e : exn) : adds (Q path) (raise e : M World A).
Proof.
  intros w. exists [], [], []. cbn. rewrite !app_nil_r. repeat split.
  apply Q_nil.
Qed.

Lemma adds_print_error path (error : exn) :
  adds (Q path) (print (MsgErrorOccurred error)).
Proof.
  intros w. exists [], [], [Print (MsgErrorOccurred error)]. cbn.
  rewrite !app_nil_r. repeat split. apply Q_error.
Qed.

Lemma adds_bind {A B} path (m : M World A) (k : A -> M World B) :
  adds (Q path) m -> (forall a, adds (Q path) (k a)) ->
  adds (Q path) (bind m k).
Proof.
  intros Hm Hk w. unfold bind.
  destruct (Hm w) as (u1 & r1 & e1 & Hu1 & Hr1 & He1 & HQ1).
  destruct (m w) as [a w'|e w']; cbn [final] in *.
  - destruct (Hk a w') as (u2 & r2 & e2 & Hu2 & Hr2 & He2 & HQ2).
    exists (u1 ++ u2), (r1 ++ r2), (e1 ++ e2).
    rewrite Hu2, Hr2, He2, Hu1, Hr1, He1, <- !app_assoc.
    repeat split. apply Q_app; assumption.
  - exists u1, r1, e1. repeat split; assumption.
Qed.

Lemma adds_try_except {A} path (m : M World A) (catches : exn -> bool)
    (handler : exn -> M World A) :
  adds (Q path) m -> (forall e, adds (Q path) (handler e)) ->
  adds (Q path) (try_except m catches handler).
Proof.
  intros Hm Hh w. unfold try_except.
  destruct (Hm w) as (u1 & r1 & e1 & Hu1 & Hr1 & He1 & HQ1).
  destruct (m w) as [a w'|e w']; cbn [final] in *.
  - exists u1, r1, e1. repeat split; assumption.
  - destruct (catches e).
    + destruct (Hh e w') as (u2 & r2 & e2 & Hu2 & Hr2 & He2 & HQ2).
      exists (u1 ++ u2), (r1 ++ r2), (e1 ++ e2).
      rewrite Hu2, Hr2, He2, Hu1, Hr1, He1, <- !app_assoc.
      repeat split. apply Q_app; assumption.
    + exists u1, r1, e1. repeat split; assumption.
Qed.

Lemma adds_for_each {A} path (xs : list A) (body : A -> M World unit) :
  (forall x, adds (Q path) (body x)) -> adds (Q path) (for_each xs body).
Proof.
  intros Hbody. induction xs as [|x xs IH]; cbn [for_each].
  - apply adds_ret.
  - apply adds_bind; [apply Hbody|intros _; exact IH].
Qed.

Lemma adds_files_list_execute path drive_service query :
  adds (Q path) (files_list_execute drive_service query).
Proof.
  intros w. unfold files_list_execute.
  exists [], [], [DriveList query].
  destruct (files_list drive_service query None); cbn;
    rewrite !app_nil_r; repeat split; apply Q_list.
Qed.

Variable host : Host.
Variable drive_service : DriveService.
Variable sheets_service : SheetsService.

(** The turn of a video in the loop keeps [Q]. *)
Hypothesis Q_video :
  forall current_path item,
    adds (Q current_path)
      (bind (process_video host drive_service item current_path)
         (fun log_data =>
            bind (print (MsgDataToBeLogged log_data))
              (fun _ => append_to_sheet sheets_service log_data))).

Lemma adds_traverse_item traverse current_path item :
  (forall folder_id name,
     adds (Q (current_path +:+ "/" +:+ name)) (traverse folder_id
       (current_path +:+ "/" +:+ name))) ->
  adds (Q current_path)
    (traverse_item host traverse drive_service sheets_service current_path
       item).
Proof.
  intros Htraverse. unfold traverse_item.
  destruct (String.eqb _ folder_mime).
  - intros w.
    destruct (Htraverse (item !! "id") (Py.str (item !! "name")) w)
      as (ups & rows & evs & Hu & Hr & He & HQ).
    exists ups, rows, evs. repeat split; try assumption.
    exact (Q_down _ _ _ _ _ HQ).
  - destruct (Py.startswith _ _); [apply Q_video|apply adds_ret].
Qed.

Lemma adds_traverse_folder depth :
  forall folder_id current_path,
    adds (Q current_path)
      (traverse_folder host depth drive_service sheets_service folder_id
         current_path).
Proof.
  induction depth as [|depth IH]; intros folder_id current_path.
  - apply adds_raise.
  - cbn [traverse_folder]. apply adds_try_except.
    + apply adds_bind; [apply adds_files_list_execute|].
      intros results. apply adds_for_each. intros item.
      apply adds_traverse_item. intros id name. apply IH.
    + intros e. apply adds_print_error.
Qed.

End Adds.

Lemma row_from_down path name row :
  row_from (path +:+ "/" +:+ name) row -> row_from path row.
Proof.
  intros (cell & link & names & ->). exists cell, link, (name :: names).
  reflexivity.
Qed.

(** The rows of a walk hold the path of the folder walked, or of a
    folder below it. *)
Lemma walk_rows host depth drive_service sheets_service folder_id
    current_path w :
  exists new_rows,
    sheet (final (traverse_folder host depth drive_service sheets_service
                    folder_id current_path w)) = sheet w ++ new_rows
    /\ Forall (row_from current_path) new_rows.
Proof.
  destruct (adds_traverse_folder
              (fun path _ rows _ => Forall (row_from path) rows))
    with (host := host) (drive_service := drive_service)
         (sheets_service := sheets_service) (depth := depth)
         (folder_id := folder_id) (current_path := current_path) (w := w)
    as (ups & rows & evs & _ & Hrows & _ & HQ).
  - intros path. constructor.
  - intros path query. constructor.
  - intros path error. constructor.
  - intros path u1 r1 e1 u2 r2 e2 H1 H2. apply Forall_app. split; assumption.
  - intros path name ups rows evs H.
    eapply Forall_impl; [exact H|]. intros row. apply row_from_down.
  - intros path item w0.
    destruct (visit_video_effects host drive_service sheets_service path
                item w0)
      as (ups & rows & evs & Hu & Hr & He & _ & _ & Hcases).
    cbn zeta in *. exists ups, rows, evs. repeat split; try assumption.
    destruct Hcases as [(_ & _ & -> & _)
                       |(name & cell & link & media & _ & _ & _ & Hrows & _)].
    + constructor.
    + destruct Hrows as [->| ->]; constructor; [|constructor].
      exists cell, link, []. reflexivity.
  - exists rows. split; assumption.
Qed.

(** A row that [process_video] returns holds what Drive answered to
    the upload of the thumbnail, around the path it was called with. *)
Lemma process_video_guarded_row host drive_service file_id file_name
    folder_path w row :
  result (process_video_guarded host drive_service file_id file_name
            folder_path (mkLocals None None, w)) = inr (Some row) ->
  exists name media uploaded,
    file_name = Some name
    /\ files_create drive_service (thumbnail_name_of name)
         [THUMBNAIL_FOLDER_ID host] media = inr uploaded
    /\ row = [uploaded !! "name"; Some folder_path; uploaded !! "webViewLink"].
Proof.
  unfold process_video_guarded, try_except, process_video_try.
  unfold_calls. cbn.
  case_download drive_service file_id; cbn.
  { destruct (is_HttpError error); discriminate. }
  repeat (step; cbn).
  all: try discriminate.
  all: intros [= <-]; do 3 eexists; split; [reflexivity|];
    split; [eassumption|reflexivity].
Qed.

Lemma process_video_row host drive_service video_file folder_path w row :
  result (process_video host drive_service video_file folder_path w)
    = inr (Some row) ->
  exists name media uploaded,
    video_file !! "name" = Some name
    /\ files_create drive_service (thumbnail_name_of name)
         [THUMBNAIL_FOLDER_ID host] media = inr uploaded
    /\ row = [uploaded !! "name"; Some folder_path; uploaded !! "webViewLink"].
Proof.
  rewrite process_video_result. apply process_video_guarded_row.
Qed.

Section RowsAdded.

Variable R : Row -> Prop.

Lemma adds_rows_same {A} (m : M World A) :
  (forall w, sheet (final (m w)) = sheet w) -> adds_rows R m.
Proof.
  intros H w. exists []. rewrite H, app_nil_r. split; [reflexivity|constructor].
Qed.

Lemma adds_rows_bind {A B} (m : M World A) (k : A -> M World B) :
  adds_rows R m -> (forall a, adds_rows R (k a)) -> adds_rows R (bind m k).
Proof.
  intros Hm Hk w. unfold bind.
  destruct (Hm w) as (r1 & Hr1 & H1).
  destruct (m w) as [a w'|e w']; cbn [final] in *.
  - destruct (Hk a w') as (r2 & Hr2 & H2).
    exists (r1 ++ r2). rewrite Hr2, Hr1, <- app_assoc.
    split; [reflexivity|]. apply Forall_app. split; assumption.
  - exists r1. split; assumption.
Qed.

Lemma adds_rows_try_except {A} (m : M World A) (catches : exn -> bool)
    (handler : exn -> M World A) :
  adds_rows R m -> (forall e, adds_rows R (handler e)) ->
  adds_rows R (try_except m catches handler).
Proof.
  intros Hm Hh w. unfold try_except.
  destruct (Hm w) as (r1 & Hr1 & H1).
  destruct (m w) as [a w'|e w']; cbn [final] in *.
  - exists r1. split; assumption.
  - destruct (catches e).
    + destruct (Hh e w') as (r2 & Hr2 & H2).
      exists (r1 ++ r2). rewrite Hr2, Hr1, <- app_assoc.
      split; [reflexivity|]. apply Forall_app. split; assumption.
    + exists r1. split; assumption.
Qed.

(** In a loop, it is enough to look at the turns of the items of the
    list. *)
Lemma adds_rows_for_each {A} (xs : list A) (body : A -> M World unit) :
  (forall x, In x xs -> adds_rows R (body x)) ->
  adds_rows R (for_each xs body).
Proof.
  induction xs as [|x xs IH]; intros Hbody; cbn [for_each].
  - apply adds_rows_same. reflexivity.
  - apply adds_rows_bind; [apply Hbody; left; reflexivity|].
    intros _. apply IH. intros y Hy. apply Hbody. right. exact Hy.
Qed.

End RowsAdded.

Lemma row_of_listed_video_down host drive_service folder_id path response
    item row :
  files_list drive_service (children_query folder_id) None = inr response ->
  In item (default [] (files response)) ->
  default "" (item !! "mimeType") = folder_mime ->
  row_of_listed_video host drive_service (item !! "id")
    (path +:+ "/" +:+ Py.str (item !! "name")) row ->
  row_of_listed_video host drive_service folder_id path row.
Proof.
  intros Hlist Hin Hmime
    (below & below_path & response' & video & name & media & uploaded
     & Hdown & Hrest).
  exists below, below_path, response', video, name, media, uploaded.
  split; [|exact Hrest].
  exact (walks_down_into _ _ _ _ _ _ _ Hlist Hin Hmime Hdown).
Qed.

(** The rows of a walk are rows of videos listed in the folder walked or
    in a folder the walk goes down to. *)
Lemma walk_rows_of_listed_videos host depth drive_service sheets_service :
  forall folder_id current_path,
    adds_rows (row_of_listed_video host drive_service folder_id current_path)
      (traverse_folder host depth drive_service sheets_service folder_id
         current_path).
Proof.
  induction depth as [|depth IH]; intros folder_id current_path.
  - apply adds_rows_same. reflexivity.
  - cbn [traverse_folder].
    apply adds_rows_try_except; [|intros e; apply adds_rows_same; reflexivity].
    intros w. unfold bind at 1, files_list_execute.
    destruct (files_list drive_service (children_query folder_id) None)
      as [error|response] eqn:Hlist; cbn [final].
    { exists []. cbn. rewrite app_nil_r. split; [reflexivity|constructor]. }
    match goal with
    | |- context [for_each ?xs ?body ?w0] =>
        destruct (adds_rows_for_each
                    (row_of_listed_video host drive_service folder_id
                       current_path) xs body) with (w := w0)
          as (rows & Hrows & Hall)
    end.
    2: { exists rows. split; [exact Hrows|exact Hall]. }
    intros item Hin. unfold traverse_item.
    destruct (String.eqb_spec (default "" (item !! "mimeType")) folder_mime)
      as [Hmime|Hmime].
    + intros w0.
      destruct (IH (item !! "id")
                  (current_path +:+ "/" +:+ Py.str (item !! "name")) w0)
        as (rows & Hrows & Hall).
      exists rows. split; [exact Hrows|].
      eapply Forall_impl; [exact Hall|]. intros row.
      apply row_of_listed_video_down with (response := response);
        assumption.
    + destruct (Py.startswith _ _) eqn:Hvideo;
        [|apply adds_rows_same; reflexivity].
      intros w0.
      destruct (visit_video_effects host drive_service sheets_service
                  current_path item w0)
        as (ups & rows & evs & _ & Hrows & _ & _ & _ & Hcases).
      cbn zeta in *. exists rows. split; [exact Hrows|].
      destruct Hcases as [(_ & _ & -> & _)
                         |(name & cell & link & media & _ & Hres & _ & Hwritten
                           & _)]; [constructor|].
      destruct Hwritten as [->| ->]; constructor; [|constructor].
      apply process_video_row in Hres
        as (name' & media' & uploaded & Hname & Hup & Hrow).
      exists folder_id, current_path, response, item, name', media', uploaded.
      split; [apply walks_down_here|]. repeat split; assumption.
Qed.

(** X6: whatever the services answer and however the walk ends,
    [traverse_folder] only adds rows below those the sheet holds, and
    every row it adds is the row of a video that the walk found: the
    video is listed, on the first page, in the folder walked or in a
    folder reached from it through listed folders; the second cell is the
    path of that folder, which is the path the walk was called with
    followed by the names of the folders gone through, each after a "/",
    without the name of the video; the first and the third cell are the name and the link that Drive answered to the upload of
    the thumbnail of that video.  Every row has three cells. *)
Theorem walk_rows_hold_the_folder_path
    (host : Host) (depth : nat) (drive_service : DriveService)
    (sheets_service : SheetsService) (folder_id : option string)
    (current_path : string) (w : World) :
  let o := traverse_folder host depth drive_service sheets_service folder_id
             current_path w in
  exists new_rows,
    sheet (final o) = sheet w ++ new_rows
    /\ Forall (row_of_listed_video host drive_service folder_id current_path)
         new_rows
    /\ Forall (row_from current_path) new_rows
    /\ Forall (fun row => length row = 3) new_rows.
Proof.
  cbn zeta.
  destruct (walk_rows_of_listed_videos host depth drive_service sheets_service
              folder_id current_path w) as (rows & Hrows & Hlisted).
  destruct (walk_rows host depth drive_service sheets_service folder_id
              current_path w) as (rows' & Hrows' & Hall).
  rewrite Hrows in Hrows'. apply app_inv_head in Hrows'. subst rows'.
  exists rows. split; [exact Hrows|]. split; [exact Hlisted|].
  split; [exact Hall|].
  eapply Forall_impl; [exact Hall|].
  intros row (cell & link & names & ->). reflexivity.
Qed.

(** In the example, the walk of "root" adds the row of "a.mp4", which is
    listed in the folder "Clips" that "root" lists: the path of the row
    is "Root/Clips". *)
Lemma walk_rows_hold_the_folder_path_example :
  Forall (row_of_listed_video Example.host Example.drive (Some "root") "Root")
    [[Some "a_Thumbnail.jpg"; Some "Root/Clips";
      Some "https://drive.example/a_Thumbnail.jpg"]].
Proof.
  destruct (walk_rows_hold_the_folder_path Example.host 5 Example.drive
              Example.sheets_ok (Some "root") "Root" Example.empty_world)
    as (rows & Hrows & Hlisted & _).
  vm_compute in Hrows. rewrite <- Hrows in Hlisted. exact Hlisted.
Defined.












(** X8: every file the walk creates in Drive, and every upload request
    it sends, accepted or not, has the thumbnail folder as its only parent
    and the name of a thumbnail: the stem of a video's name followed by
    "_Thumbnail.jpg". *)
Theorem walk_uploads_only_thumbnails
    (host : Host) (depth : nat) (drive_service : DriveService)
    (sheets_service : SheetsService) (folder_id : option string)
    (current_path : string) (w : World) :
  let o := traverse_folder host depth drive_service sheets_service folder_id
             current_path w in
  exists new_thumbnails new_events,
    thumbnails (final o) = thumbnails w ++ new_thumbnails
    /\ events (final o) = events w ++ new_events
    /\ Forall (is_thumbnail host) new_thumbnails
    /\ forall name parents,
         In (DriveCreate name parents) new_events ->
         parents = [THUMBNAIL_FOLDER_ID host]
         /\ exists video, name = thumbnail_name_of video.
Proof.
  cbn zeta.
  destruct (adds_traverse_folder
              (fun _ ups _ evs =>
                 Forall (is_thumbnail host) ups
                 /\ forall name parents,
                      In (DriveCreate name parents) evs ->
                      parents = [THUMBNAIL_FOLDER_ID host]
                      /\ exists video, name = thumbnail_name_of video))
    with (host := host) (drive_service := drive_service)
         (sheets_service := sheets_service) (depth := depth)
         (folder_id := folder_id) (current_path := current_path) (w := w)
    as (ups & rows & evs & Hu & Hr & He & HQ1 & HQ2).
  - intros _. split; [constructor|intros name parents []].
  - intros _ query. split; [constructor|].
    intros name parents [[=]|[]].
  - intros _ error. split; [constructor|].
    intros name parents [[=]|[]].
  - intros _ u1 r1 e1 u2 r2 e2 [H1 H1'] [H2 H2']. split.
    + apply Forall_app. split; assumption.
    + intros name parents Hin. apply in_app_or in Hin as [Hin|Hin];
        [exact (H1' _ _ Hin)|exact (H2' _ _ Hin)].
  - intros _ _ ups rows evs H. exact H.
  - intros path item w0.
    destruct (visit_video_effects host drive_service sheets_service path
                item w0)
      as (ups & rows & evs & Hu & Hr & He & _ & Hcreate & Hcases).
    cbn zeta in *. exists ups, rows, evs. repeat split; try assumption.
    + destruct Hcases as [(_ & -> & _)
                         |(name & cell & link & media & _ & _ & -> & _)].
      * constructor.
      * constructor; [|constructor]. split; [reflexivity|].
        exists name. reflexivity.
    + exact (proj1 (Hcreate _ _ H)).
    + destruct (Hcreate _ _ H) as (_ & video & _ & ->). exists video.
      reflexivity.
  - exists ups, evs. repeat split; try assumption.
    + exact (proj1 (HQ2 _ _ H)).
    + exact (proj2 (HQ2 _ _ H)).
Qed.

(** ** Videos that stop the pipeline after the frame rate is read *)

Section Edges.

Variable host : Host.
Variable drive_service : DriveService.

(** The events of [process_video] up to the [finally] block are those of
    its [try ... except HttpError] part, after the line that names the
    video; the block adds removals and its warning, and leaves Drive and
    the sheet alone. *)
Lemma process_video_of_guarded video_file folder_path w a l wg :
  process_video_guarded host drive_service (video_file !! "id")
    (video_file !! "name") folder_path
    (mkLocals None None,
     log_event (Print (MsgProcessing (video_file !! "name"))) w)
    = a ->
  final a = (l, wg) ->
  let o := process_video host drive_service video_file folder_path w in
  result o = result a
  /\ thumbnails (final o) = thumbnails wg
  /\ sheet (final o) = sheet wg
  /\ exists cleanup,
       events (final o) = events wg ++ cleanup
       /\ forallb is_cleanup_event cleanup = true.
Proof.
  intros Ha Hfinal. cbn zeta.
  rewrite process_video_result, process_video_final, Ha, Hfinal.
  split; [reflexivity|].
  destruct (process_video_finally_effects host (l, wg))
    as (Hth & Hsh & cleanup & Hev & Hclean).
  cbn zeta in *. cbn [snd] in *.
  split; [exact Hth|]. split; [exact Hsh|].
  exists cleanup. split; assumption.
Qed.

(** The temporary video cannot be created: [open] raises. *)
Lemma process_video_guarded_no_file file_id file_name folder_path w
    progress content :
  get_media drive_service file_id = (progress, inr content) ->
  can_create host (temp_video_path_of file_name) = false ->
  process_video_guarded host drive_service file_id file_name folder_path
    (mkLocals None None, w) =
  Raised OSError
    (mkLocals (Some (temp_video_path_of file_name)) None,
     log_events (download_log file_id progress) w).
Proof.
  intros Hd Hcan.
  unfold process_video_guarded, try_except, process_video_try.
  unfold_calls. cbn. rewrite (download_returns _ _ _ _ _ Hd). cbn.
  can_write Hcan. cbn. reflexivity.
Qed.

(** The frame cannot be read. *)
Lemma process_video_guarded_no_frame file_id file_name folder_path w
    progress content frame_id success frame :
  get_media drive_service file_id = (progress, inr content) ->
  can_create host (temp_video_path_of file_name) = true ->
  PrimFloat.eqb (cap_fps host (Some content)) 0 = false ->
  Py.int (PrimFloat.mul (cap_fps host (Some content))
            (CAPTURE_TIMESTAMP_SECONDS host)) = inr frame_id ->
  cap_read host (Some content) frame_id = (success, frame) ->
  success = false \/ frame = None ->
  let v := temp_video_path_of file_name in
  process_video_guarded host drive_service file_id file_name folder_path
    (mkLocals None None, w) =
  Returned None
    (mkLocals (Some v) None,
     log_event (Print (MsgNoFrame file_name))
       (log_event CapRelease
          (log_event CapRead
             (log_event (CapSetPosFrames frame_id)
                (log_event (CapGetFps v)
                   (set_fs (<[v := content]> (fs w))
                      (log_event (FileWrite v)
                         (log_events (download_log file_id progress)
                            w)))))))).
Proof.
  intros Hd Hcan Hfps Hint Hread Hbad v.
  unfold process_video_guarded, try_except, process_video_try.
  unfold_calls. cbn. rewrite (download_returns _ _ _ _ _ Hd). cbn.
  can_write Hcan. cbn. fold v.
  rewrite lookup_insert_eq. unfold Py.truthy_float.
  rewrite Hfps. cbn. rewrite Hint. cbn. rewrite Hread. cbn.
  destruct Hbad as [-> | ->]; [reflexivity|].
  destruct success; reflexivity.
Qed.

(** [int] fails on the product of frame rate and timestamp. *)
Lemma process_video_guarded_no_index file_id file_name folder_path w
    progress content error :
  get_media drive_service file_id = (progress, inr content) ->
  can_create host (temp_video_path_of file_name) = true ->
  PrimFloat.eqb (cap_fps host (Some content)) 0 = false ->
  Py.int (PrimFloat.mul (cap_fps host (Some content))
            (CAPTURE_TIMESTAMP_SECONDS host)) = inl error ->
  let v := temp_video_path_of file_name in
  process_video_guarded host drive_service file_id file_name folder_path
    (mkLocals None None, w) =
  Raised (exn_of_int_error error)
    (mkLocals (Some v) None,
     log_event (CapGetFps v)
       (set_fs (<[v := content]> (fs w))
          (log_event (FileWrite v)
             (log_events (download_log file_id progress) w)))).
Proof.
  intros Hd Hcan Hfps Hint v.
  unfold process_video_guarded, try_except, process_video_try.
  unfold_calls. cbn. rewrite (download_returns _ _ _ _ _ Hd). cbn.
  can_write Hcan. cbn. fold v.
  rewrite lookup_insert_eq. unfold Py.truthy_float.
  rewrite Hfps. cbn. rewrite Hint. cbn.
  destruct error; reflexivity.
Qed.

(** The video has no name: [os.path.splitext(None)] fails once the frame
    is read. *)
Lemma process_video_guarded_no_name file_id folder_path w
    progress content frame_id img :
  get_media drive_service file_id = (progress, inr content) ->
  PrimFloat.eqb (cap_fps host (Some content)) 0 = false ->
  Py.int (PrimFloat.mul (cap_fps host (Some content))
            (CAPTURE_TIMESTAMP_SECONDS host)) = inr frame_id ->
  cap_read host (Some content) frame_id = (true, Some img) ->
  process_video_guarded host drive_service file_id None folder_path
    (mkLocals None None, w) =
  Raised TypeError
    (mkLocals (Some "temp_None") None,
     log_event CapRelease
       (log_event CapRead
          (log_event (CapSetPosFrames frame_id)
             (log_event (CapGetFps "temp_None")
                (set_fs (<["temp_None" := content]> (fs w))
                   (log_event (FileWrite "temp_None")
                      (log_events (download_log file_id progress) w))))))).
Proof.
  intros Hd Hfps Hint Hread.
  unfold process_video_guarded, try_except, process_video_try.
  unfold_calls. cbn. rewrite (download_returns _ _ _ _ _ Hd). cbn.
  change (can_create host ("temp_" +:+ "None")) with true. cbn.
  rewrite lookup_insert_eq. unfold Py.truthy_float.
  rewrite Hfps. cbn. rewrite Hint. cbn. rewrite Hread. cbn.
  reflexivity.
Qed.

End Edges.

(** An exception of the pipeline ends the loop over the items: the items
    after the video are not visited. *)
Lemma for_each_video_raises host traverse drive_service sheets_service
    current_path item rest w e :
  Py.startswith (default "" (item !! "mimeType")) "video/" = true ->
  result (process_video host drive_service item current_path w) = inl e ->
  for_each (item :: rest)
    (traverse_item host traverse drive_service sheets_service current_path) w
  = Raised e (final (process_video host drive_service item current_path w)).
Proof.
  intros Hvideo Hres. cbn [for_each]. unfold bind at 1.
  rewrite (traverse_item_video _ _ _ _ _ _ _ Hvideo). unfold bind at 1.
  destruct (process_video host drive_service item current_path w);
    [discriminate|].
  injection Hres as ->. reflexivity.
Qed.

(** The pipeline returns [None]: the debugging line is printed, no request
    goes to the sheet, and the loop goes on. *)
Lemma for_each_video_skipped host traverse drive_service sheets_service
    current_path item rest w :
  Py.startswith (default "" (item !! "mimeType")) "video/" = true ->
  result (process_video host drive_service item current_path w) = inr None ->
  for_each (item :: rest)
    (traverse_item host traverse drive_service sheets_service current_path) w
  = for_each rest
      (traverse_item host traverse drive_service sheets_service current_path)
      (log_event (Print (MsgDataToBeLogged None))
         (final (process_video host drive_service item current_path w))).
Proof.
  intros Hvideo Hres. apply for_each_cons_returned.
  rewrite (traverse_item_video _ _ _ _ _ _ _ Hvideo). unfold bind at 1.
  apply result_returned in Hres. rewrite Hres. reflexivity.
Qed.

(** X9: a video that is downloaded and written to local storage and
    has a frame rate, but whose frame at the capture timestamp cannot be read ([read] answers [False],
    or no image).  [process_video] returns [None] after the download, the
    write of the temporary video, the frame-rate query, the seek, the one
    read, the release and the line that names the failure; all it does
    afterwards is clean up.  Nothing is created in Drive or added to the
    sheet, and the loop goes on with the next item. *)
Theorem unreadable_frame_is_skipped
    (host : Host) (traverse : option string -> string -> M World unit)
    (drive_service : DriveService) (sheets_service : SheetsService)
    (current_path : string) (item : dict) (w : World)
    (progress : list Z) (content : bytes) (frame_id : Z) (success : bool)
    (frame : option image) :
  Py.startswith (default "" (item !! "mimeType")) "video/" = true ->
  get_media drive_service (item !! "id") = (progress, inr content) ->
  can_create host (temp_video_path_of (item !! "name")) = true ->
  PrimFloat.eqb (cap_fps host (Some content)) 0 = false ->
  Py.int (PrimFloat.mul (cap_fps host (Some content))
            (CAPTURE_TIMESTAMP_SECONDS host)) = inr frame_id ->
  cap_read host (Some content) frame_id = (success, frame) ->
  success = false \/ frame = None ->
  let v := temp_video_path_of (item !! "name") in
  let body :=
    traverse_item host traverse drive_service sheets_service current_path in
  let o := process_video host drive_service item current_path w in
  result o = inr None
  /\ thumbnails (final o) = thumbnails w
  /\ sheet (final o) = sheet w
  /\ (exists cleanup,
        events (final o) =
          events w ++
            [Print (MsgProcessing (item !! "name"))] ++
            download_log (item !! "id") progress ++
            [FileWrite v; CapGetFps v; CapSetPosFrames frame_id; CapRead;
             CapRelease; Print (MsgNoFrame (item !! "name"))] ++
            cleanup
        /\ forallb is_cleanup_event cleanup = true)
  /\ forall rest,
       for_each (item :: rest) body w =
       for_each rest body
         (log_event (Print (MsgDataToBeLogged None)) (final o)).
Proof.
  intros Hvideo Hd Hcan Hfps Hint Hread Hbad v body o.
  pose proof (process_video_guarded_no_frame host drive_service
                (item !! "id") (item !! "name") current_path
                (log_event (Print (MsgProcessing (item !! "name"))) w)
                progress content frame_id success frame Hd Hcan Hfps Hint
                Hread Hbad) as Hg.
  cbn zeta in Hg.
  destruct (process_video_of_guarded host drive_service item current_path w
              _ _ _ Hg eq_refl)
    as (Hres & Hth & Hsh & cleanup & Hev & Hclean).
  fold o in Hres, Hth, Hsh, Hev. cbn [result] in Hres.
  split; [exact Hres|]. split; [exact Hth|]. split; [exact Hsh|].
  split.
  - exists cleanup. split; [|exact Hclean]. rewrite Hev. cbn.
    rewrite <- !app_assoc. reflexivity.
  - intros rest. apply for_each_video_skipped; assumption.
Qed.

(** In the example, the capture timestamp is 10 seconds: "a.mp4", at 30
    frames a second, has no frame 300.  The walk of its folder ends
    normally, with nothing uploaded and no row. *)
Lemma unreadable_frame_is_skipped_example :
  let o := traverse_folder Cases.host_late 5 Example.drive Example.sheets_ok
             (Some "f1") "Root/Clips" Example.empty_world in
  can_create Cases.host_late "temp_a.mp4" = true
  /\ Py.int (PrimFloat.mul 30 (CAPTURE_TIMESTAMP_SECONDS Cases.host_late))
     = inr 300%Z
  /\ cap_read Cases.host_late (Some [Byte.x01]) 300 = (false, None)
  /\ result (process_video Cases.host_late Example.drive Example.a_mp4
               "Root/Clips" Example.empty_world) = inr None
  /\ result o = inr tt
  /\ thumbnails (final o) = []
  /\ sheet (final o) = [].
Proof.
  cbn zeta.
  destruct (unreadable_frame_is_skipped Cases.host_late
              (traverse_folder Cases.host_late 4 Example.drive
                 Example.sheets_ok)
              Example.drive Example.sheets_ok "Root/Clips" Example.a_mp4
              Example.empty_world [100%Z] [Byte.x01] 300%Z false None
              eq_refl eq_refl eq_refl eq_refl eq_refl eq_refl
              (or_introl eq_refl))
    as (Hres & _).
  split; [reflexivity|]. split; [reflexivity|]. split; [reflexivity|]. split; [exact Hres|].
  vm_compute. repeat split; reflexivity.
Defined.

(** X10: a video that is downloaded and written to local storage and
    whose frame rate is not zero,
    but such that [int] fails on frame rate times timestamp (the product
    is infinite or not a number).  The error, an [OverflowError] or a
    [ValueError], is not an [HttpError]: it leaves [process_video] after
    the frame-rate query, without a seek, a read or a release of the
    capture; only the clean-up follows.  Nothing is created in Drive or
    added to the sheet, and the error ends the loop over the items: the
    items after the video are not visited. *)
Theorem frame_rate_without_index_raises
    (host : Host) (traverse : option string -> string -> M World unit)
    (drive_service : DriveService) (sheets_service : SheetsService)
    (current_path : string) (item : dict) (w : World)
    (progress : list Z) (content : bytes) (error : Py.int_error) :
  Py.startswith (default "" (item !! "mimeType")) "video/" = true ->
  get_media drive_service (item !! "id") = (progress, inr content) ->
  can_create host (temp_video_path_of (item !! "name")) = true ->
  PrimFloat.eqb (cap_fps host (Some content)) 0 = false ->
  Py.int (PrimFloat.mul (cap_fps host (Some content))
            (CAPTURE_TIMESTAMP_SECONDS host)) = inl error ->
  let v := temp_video_path_of (item !! "name") in
  let body :=
    traverse_item host traverse drive_service sheets_service current_path in
  let o := process_video host drive_service item current_path w in
  result o = inl (exn_of_int_error error)
  /\ (exn_of_int_error error = OverflowError
      \/ exn_of_int_error error = ValueError)
  /\ thumbnails (final o) = thumbnails w
  /\ sheet (final o) = sheet w
  /\ (exists cleanup,
        events (final o) =
          events w ++
            [Print (MsgProcessing (item !! "name"))] ++
            download_log (item !! "id") progress ++
            [FileWrite v; CapGetFps v] ++ cleanup
        /\ forallb is_cleanup_event cleanup = true)
  /\ forall rest,
       for_each (item :: rest) body w =
       Raised (exn_of_int_error error) (final o).
Proof.
  intros Hvideo Hd Hcan Hfps Hint v body o.
  pose proof (process_video_guarded_no_index host drive_service
                (item !! "id") (item !! "name") current_path
                (log_event (Print (MsgProcessing (item !! "name"))) w)
                progress content error Hd Hcan Hfps Hint) as Hg.
  cbn zeta in Hg.
  destruct (process_video_of_guarded host drive_service item current_path w
              _ _ _ Hg eq_refl)
    as (Hres & Hth & Hsh & cleanup & Hev & Hclean).
  fold o in Hres, Hth, Hsh, Hev. cbn [result] in Hres.
  split; [exact Hres|].
  split; [destruct error; [left|right]; reflexivity|].
  split; [exact Hth|]. split; [exact Hsh|].
  split.
  - exists cleanup. split; [|exact Hclean]. rewrite Hev. cbn.
    rewrite <- !app_assoc. reflexivity.
  - intros rest. apply for_each_video_raises; assumption.
Qed.

(** In the example, OpenCV reports a frame rate that is not a number:
    [process_video] raises a [ValueError], which ends the walk; the
    temporary video is removed. *)
Lemma frame_rate_without_index_raises_example :
  let o := traverse_folder Cases.host_nan 5 Example.drive Example.sheets_ok
             (Some "f1") "Root/Clips" Example.empty_world in
  can_create Cases.host_nan "temp_a.mp4" = true
  /\ PrimFloat.eqb (cap_fps Cases.host_nan (Some [Byte.x01])) 0 = false
  /\ Py.int (PrimFloat.mul (cap_fps Cases.host_nan (Some [Byte.x01]))
               (CAPTURE_TIMESTAMP_SECONDS Cases.host_nan)) = inl Py.IntOfNan
  /\ result (process_video Cases.host_nan Example.drive Example.a_mp4
               "Root/Clips" Example.empty_world) = inl ValueError
  /\ result o = inl ValueError
  /\ fs (final o) = ∅.
Proof.
  cbn zeta.
  destruct (frame_rate_without_index_raises Cases.host_nan
              (traverse_folder Cases.host_nan 4 Example.drive
                 Example.sheets_ok)
              Example.drive Example.sheets_ok "Root/Clips" Example.a_mp4
              Example.empty_world [100%Z] [Byte.x01] Py.IntOfNan
              eq_refl eq_refl eq_refl eq_refl eq_refl)
    as (Hres & _).
  split; [reflexivity|]. split; [reflexivity|]. split; [reflexivity|]. split; [exact Hres|].
  vm_compute. repeat split; reflexivity.
Defined.

(** X11: a video listed without a name, for which every step up to the
    read of the frame succeeds.  The video is stored as "temp_None";
    [os.path.splitext(None)] then raises a [TypeError], which leaves
    [process_video] after the release of the capture, followed by the
    clean-up only.  No thumbnail is written or uploaded, the sheet gets no
    row, and the error ends the loop over the items. *)
Theorem video_without_name_raises_TypeError
    (host : Host) (traverse : option string -> string -> M World unit)
    (drive_service : DriveService) (sheets_service : SheetsService)
    (current_path : string) (item : dict) (w : World)
    (progress : list Z) (content : bytes) (frame_id : Z) (img : image) :
  Py.startswith (default "" (item !! "mimeType")) "video/" = true ->
  item !! "name" = None ->
  get_media drive_service (item !! "id") = (progress, inr content) ->
  PrimFloat.eqb (cap_fps host (Some content)) 0 = false ->
  Py.int (PrimFloat.mul (cap_fps host (Some content))
            (CAPTURE_TIMESTAMP_SECONDS host)) = inr frame_id ->
  cap_read host (Some content) frame_id = (true, Some img) ->
  let body :=
    traverse_item host traverse drive_service sheets_service current_path in
  let o := process_video host drive_service item current_path w in
  result o = inl TypeError
  /\ thumbnails (final o) = thumbnails w
  /\ sheet (final o) = sheet w
  /\ (exists cleanup,
        events (final o) =
          events w ++
            [Print (MsgProcessing None)] ++
            download_log (item !! "id") progress ++
            [FileWrite "temp_None"; CapGetFps "temp_None";
             CapSetPosFrames frame_id; CapRead; CapRelease] ++ cleanup
        /\ forallb is_cleanup_event cleanup = true)
  /\ forall rest, for_each (item :: rest) body w = Raised TypeError (final o).
Proof.
  intros Hvideo Hname Hd Hfps Hint Hread body o.
  pose proof (process_video_guarded_no_name host drive_service
                (item !! "id") current_path
                (log_event (Print (MsgProcessing (item !! "name"))) w)
                progress content frame_id img Hd Hfps Hint Hread) as Hg.
  rewrite <- Hname in Hg at 1.
  destruct (process_video_of_guarded host drive_service item current_path w
              _ _ _ Hg eq_refl)
    as (Hres & Hth & Hsh & cleanup & Hev & Hclean).
  fold o in Hres, Hth, Hsh, Hev. cbn [result] in Hres.
  split; [exact Hres|]. split; [exact Hth|]. split; [exact Hsh|].
  split.
  - exists cleanup. split; [|exact Hclean]. rewrite Hev. cbn.
    rewrite Hname, <- !app_assoc. reflexivity.
  - intros rest. apply for_each_video_raises; assumption.
Qed.

(** In the example, the video "v1" is listed without a name: it is
    stored as "temp_None", and [process_video] raises a [TypeError]
    without an upload. *)
Lemma video_without_name_raises_TypeError_example :
  let o := process_video Example.host Example.drive Cases.nameless
             "Root/Clips" Example.empty_world in
  Cases.nameless !! "name" = None
  /\ result o = inl TypeError
  /\ writes_of (events (final o)) = [FileWrite "temp_None"]
  /\ thumbnails (final o) = [].
Proof.
  cbn zeta.
  destruct (video_without_name_raises_TypeError Example.host
              (traverse_folder Example.host 4 Example.drive Example.sheets_ok)
              Example.drive Example.sheets_ok "Root/Clips" Cases.nameless
              Example.empty_world [100%Z] [Byte.x01] 60%Z (Image [Byte.xff])
              eq_refl eq_refl eq_refl eq_refl eq_refl eq_refl)
    as (Hres & Hth & _).
  split; [reflexivity|]. split; [exact Hres|].
  split; [vm_compute; reflexivity|]. exact Hth.
Defined.

(** ** Videos that cannot be stored *)

(** X20: a video that is downloaded, but whose temporary file cannot be
    created: its name, after "temp_", leads into a directory that does
    not exist.  [open] raises an [OSError], which is not an [HttpError]:
    it leaves [process_video] right after the download, and only the
    clean-up follows.  No file is written, the frame rate is never read,
    nothing is created in Drive or added to the sheet, and the error ends
    the loop over the items. *)
Theorem video_that_cannot_be_stored_raises_OSError
    (host : Host) (traverse : option string -> string -> M World unit)
    (drive_service : DriveService) (sheets_service : SheetsService)
    (current_path : string) (item : dict) (w : World)
    (progress : list Z) (content : bytes) :
  Py.startswith (default "" (item !! "mimeType")) "video/" = true ->
  get_media drive_service (item !! "id") = (progress, inr content) ->
  can_create host (temp_video_path_of (item !! "name")) = false ->
  let body :=
    traverse_item host traverse drive_service sheets_service current_path in
  let o := process_video host drive_service item current_path w in
  result o = inl OSError
  /\ thumbnails (final o) = thumbnails w
  /\ sheet (final o) = sheet w
  /\ (exists cleanup,
        events (final o) =
          events w ++
            [Print (MsgProcessing (item !! "name"))] ++
            download_log (item !! "id") progress ++ cleanup
        /\ forallb is_cleanup_event cleanup = true)
  /\ forall rest, for_each (item :: rest) body w = Raised OSError (final o).
Proof.
  intros Hvideo Hd Hcan body o.
  pose proof (process_video_guarded_no_file host drive_service
                (item !! "id") (item !! "name") current_path
                (log_event (Print (MsgProcessing (item !! "name"))) w)
                progress content Hd Hcan) as Hg.
  destruct (process_video_of_guarded host drive_service item current_path w
              _ _ _ Hg eq_refl)
    as (Hres & Hth & Hsh & cleanup & Hev & Hclean).
  fold o in Hres, Hth, Hsh, Hev. cbn [result] in Hres.
  split; [exact Hres|]. split; [exact Hth|]. split; [exact Hsh|].
  split.
  - exists cleanup. split; [|exact Hclean]. rewrite Hev. cbn.
    rewrite <- !app_assoc. reflexivity.
  - intros rest. apply for_each_video_raises; assumption.
Qed.

(** In the example, the video "take 1/a.mp4" would be stored as
    "temp_take 1/a.mp4", in a directory "temp_take 1" that does not
    exist: the walk of its folder ends with the [OSError], and "a.mp4",
    listed after it, gets no thumbnail. *)
Lemma video_that_cannot_be_stored_raises_OSError_example :
  let o := traverse_folder Example.host 5 Cases.drive_takes Example.sheets_ok
             (Some "cuts") "Cuts" Example.empty_world in
  Py.startswith (default "" (Cases.take_a !! "mimeType")) "video/" = true
  /\ get_media Cases.drive_takes (Cases.take_a !! "id")
     = ([100%Z], inr [Byte.x01])
  /\ can_create Example.host "temp_take 1/a.mp4" = false
  /\ result (process_video Example.host Cases.drive_takes Cases.take_a
               "Cuts" Example.empty_world) = inl OSError
  /\ result o = inl OSError
  /\ writes_of (events (final o)) = []
  /\ thumbnails (final o) = [].
Proof.
  cbn zeta.
  destruct (video_that_cannot_be_stored_raises_OSError Example.host
              (traverse_folder Example.host 4 Cases.drive_takes
                 Example.sheets_ok)
              Cases.drive_takes Example.sheets_ok "Cuts" Cases.take_a
              Example.empty_world [100%Z] [Byte.x01]
              eq_refl eq_refl eq_refl)
    as (Hres & _).
  split; [reflexivity|]. split; [reflexivity|]. split; [reflexivity|].
  split; [exact Hres|].
  vm_compute. repeat split; reflexivity.
Defined.

(** ** The names of the temporary files *)

(** X12: the name [process_video] gives the thumbnail of a video is
    never the name of the video itself, so the temporary thumbnail and the
    temporary video are two different files. *)
Theorem thumbnail_is_not_the_video (name : string) :
  thumbnail_name_of name <> name
  /\ thumbnail_path_of name <> temp_video_path_of (Some name).
Proof.
  assert (Hname : thumbnail_name_of name <> name).
  { unfold thumbnail_name_of. intros Heq.
    destruct (splitext_stem_cases name) as [Hstem|(d & Hdot & Hstem)];
      rewrite Hstem in Heq.
    - apply (f_equal String.length) in Heq.
      rewrite string_app_length in Heq. cbn in Heq. lia.
    - pose proof (get_after_prefix (String.substring 0 d name)
                    "_Thumbnail.jpg") as Hget.
      rewrite (length_substring_0 name d _ Hdot), Heq, Hdot in Hget.
      discriminate Hget. }
  split; [exact Hname|].
  unfold thumbnail_path_of, temp_video_path_of. cbn. intros [= Heq].
  exact (Hname Heq).
Qed.

(** ** A folder listed among its own children *)

(** When the loop returns, the turn of each of the items has returned. *)
Lemma for_each_returns {S A} (xs : list A) (body : A -> M S unit) (x : A) :
  In x xs ->
  forall s s', for_each xs body s = Returned tt s' ->
    exists s0 s1, body x s0 = Returned tt s1.
Proof.
  induction xs as [|y xs IH]; intros Hin s s' Hret; [destruct Hin|].
  cbn [for_each] in Hret. unfold bind in Hret.
  destruct (body y s) as [[] s1|e s1] eqn:Hbody; [|discriminate].
  destruct Hin as [-> |Hin].
  - exists s, s1. exact Hbody.
  - exact (IH Hin s1 s' Hret).
Qed.

(** No [HttpError] leaves the loop over the items. *)
Lemma for_each_contains_HttpError host drive_service sheets_service depth
    current_path items w status :
  result (for_each items
            (traverse_item host
               (traverse_folder host depth drive_service sheets_service)
               drive_service sheets_service current_path) w)
    <> inl (HttpError status).
Proof.
  revert w. induction items as [|item items IH]; intros w; [discriminate|].
  cbn [for_each]. unfold bind.
  pose proof (traverse_item_contains_HttpError host drive_service
                sheets_service depth current_path item w status) as Hitem.
  destruct (traverse_item _ _ _ _ _ _ _) as [[] w'|e w']; [apply IH|].
  exact Hitem.
Qed.

(** X13: [traverse_folder] keeps no record of the folders it has seen.
    When the listing of a folder holds that folder itself, the walk of it
    never ends normally, whatever call depth the interpreter allows: it
    ends with an exception that is not an [HttpError]. *)
Theorem folder_listed_in_itself_is_never_left_normally
    (host : Host) (drive_service : DriveService)
    (sheets_service : SheetsService) (folder_id : option string)
    (items : list dict) (token : option string) (item : dict) :
  files_list drive_service (children_query folder_id) None
    = inr (mkListResponse (Some items) token) ->
  In item items ->
  item !! "mimeType" = Some folder_mime ->
  item !! "id" = folder_id ->
  forall depth current_path w,
    exists e,
      result (traverse_folder host depth drive_service sheets_service
                folder_id current_path w) = inl e
      /\ is_HttpError e = false.
Proof.
  intros Hlist Hin Hmime Hid depth.
  assert (Hnever : forall current_path w,
            result (traverse_folder host depth drive_service sheets_service
                      folder_id current_path w) <> inr tt).
  { induction depth as [|depth IH]; intros current_path w.
    - discriminate.
    - cbn [traverse_folder]. unfold try_except, bind, files_list_execute.
      rewrite Hlist. cbn [files default from_option id].
      match goal with
      | |- context [for_each items ?body ?w0] =>
          destruct (for_each items body w0) as [[] w'|e w'] eqn:Hloop
      end.
      + destruct (for_each_returns _ _ item Hin _ _ Hloop)
          as (w0 & w1 & Hbody).
        unfold traverse_item in Hbody. rewrite Hmime in Hbody.
        cbn [default] in Hbody. rewrite String.eqb_refl, Hid in Hbody.
        intros _.
        apply (IH (current_path +:+ "/" +:+ Py.str (item !! "name")) w0).
        rewrite Hbody. reflexivity.
      + destruct (is_HttpError e) eqn:He; [|discriminate].
        destruct e; try discriminate He.
        exfalso.
        apply (for_each_contains_HttpError host drive_service
                 sheets_service depth current_path items
                 (log_event (DriveList (children_query folder_id)) w) status).
        rewrite Hloop. reflexivity. }
  intros current_path w.
  destruct (traverse_folder host depth drive_service sheets_service folder_id
              current_path w) as [[] w'|e w'] eqn:Hwalk.
  - destruct (Hnever current_path w). rewrite Hwalk. reflexivity.
  - exists e. split; [reflexivity|].
    destruct (is_HttpError e) eqn:He; [|reflexivity].
    destruct e; try discriminate He.
    destruct (traverse_folder_contains_HttpError host drive_service
                sheets_service depth folder_id current_path w status).
    rewrite Hwalk. reflexivity.
Qed.

(** In the example, the folder "loop" lists a text file and itself:
    with a call depth of 5, it is listed five times and the walk ends with
    a [RecursionError]. *)
Lemma folder_listed_in_itself_is_never_left_normally_example :
  let o := traverse_folder Example.host 5 Cases.drive_loop Example.sheets_ok
             (Some "loop") "Loop" Example.empty_world in
  files_list Cases.drive_loop (children_query (Some "loop")) None
    = Example.one_page [Example.notes_txt; Example.folder "loop" "Loop"]
  /\ result o = inl RecursionError
  /\ length (List.filter (fun e => match e with
                                   | DriveList _ => true
                                   | _ => false
                                   end) (events (final o))) = 5.
Proof.
  cbn zeta.
  destruct (folder_listed_in_itself_is_never_left_normally Example.host
              Cases.drive_loop Example.sheets_ok (Some "loop")
              [Example.notes_txt; Example.folder "loop" "Loop"] None
              (Example.folder "loop" "Loop") eq_refl
              (or_intror (or_introl eq_refl)) eq_refl eq_refl
              5 "Loop" Example.empty_world) as (e & He & _).
  split; [reflexivity|].
  split; [|vm_compute; reflexivity].
  rewrite He. f_equal. pose proof He as H. vm_compute in H.
  injection H as <-. reflexivity.
Defined.

(** ** The order of the walk *)

Lemma download_log_reads file_id progress :
  List.filter is_drive_read (download_log file_id progress)
  = [DriveGetMedia file_id].
Proof.
  unfold download_log. cbn. f_equal.
  induction progress as [|percent progress IH]; [reflexivity|exact IH].
Qed.

Lemma cleanup_events_are_no_reads (new : list Event) :
  forallb is_cleanup_event new = true -> List.filter is_drive_read new = [].
Proof.
  induction new as [|e new IH]; [reflexivity|]. cbn.
  intros H. apply andb_prop in H as [He H].
  destruct e; try discriminate He; cbn; exact (IH H).
Qed.

Lemma append_steps_are_no_reads (new : list Event) :
  forallb is_append_step new = true -> List.filter is_drive_read new = [].
Proof.
  induction new as [|e new IH]; [reflexivity|]. cbn.
  intros H. apply andb_prop in H as [He H].
  destruct e; try discriminate He; cbn; exact (IH H).
Qed.

(** On every way out, the [try] block of [process_video] has read one
    thing from Drive: the video. *)
Lemma process_video_guarded_reads host drive_service file_id file_name
    folder_path w :
  exists new,
    events (snd (final (process_video_guarded host drive_service file_id
                          file_name folder_path (mkLocals None None, w))))
      = events w ++ new
    /\ List.filter is_drive_read new = [DriveGetMedia file_id].
Proof.
  unfold process_video_guarded, try_except, process_video_try.
  unfold_calls. cbn.
  case_download drive_service file_id; cbn.
  { destruct (is_HttpError error); cbn;
      rewrite <- ?app_assoc; eexists; (split; [reflexivity|]);
      rewrite ?List.filter_app, download_log_reads; reflexivity. }
  repeat (step; cbn; rewrite ?lookup_insert_eq).
  all: rewrite <- ?app_assoc; eexists; (split; [reflexivity|]).
  all: rewrite ?List.filter_app, download_log_reads; reflexivity.
Qed.

Lemma process_video_reads host drive_service video_file folder_path w :
  exists new,
    events (final (process_video host drive_service video_file folder_path w))
      = events w ++ new
    /\ List.filter is_drive_read new = [DriveGetMedia (video_file !! "id")].
Proof.
  rewrite process_video_final.
  set (w0 := log_event (Print (MsgProcessing (video_file !! "name"))) w).
  destruct (process_video_guarded_reads host drive_service
              (video_file !! "id") (video_file !! "name") folder_path w0)
    as (new & Hev & Hreads).
  set (o := process_video_guarded _ _ _ _ _ _) in *. clearbody o.
  destruct (process_video_finally_effects host (final o))
    as (_ & _ & cleanup & Hev' & Hclean).
  cbn zeta in *.
  exists ([Print (MsgProcessing (video_file !! "name"))] ++ new ++ cleanup).
  rewrite Hev', Hev. subst w0. cbn [events log_event].
  split; [rewrite <- !app_assoc; reflexivity|].
  rewrite !List.filter_app, Hreads, (cleanup_events_are_no_reads _ Hclean).
  reflexivity.
Qed.

(** The loop over the items reads what its turns read, one after the
    other, up to the turn that does not return. *)
Lemma reads_ret : reads (ret tt) [].
Proof.
  intros w. exists []. cbn. rewrite app_nil_r. repeat split. reflexivity.
Qed.

Lemma reads_for_each {A} (xs : list A) (body : A -> M World unit)
    (expected : A -> list Event) :
  (forall x, reads (body x) (expected x)) ->
  reads (for_each xs body) (flat_map expected xs).
Proof.
  intros Hbody. induction xs as [|x xs IH]; [apply reads_ret|].
  intros w. cbn [for_each flat_map]. unfold bind.
  destruct (Hbody x w) as (new1 & Hev1 & Hpre1 & Hall1).
  destruct (body x w) as [[] w1|e w1]; cbn [final result] in *.
  - destruct (IH w1) as (new2 & Hev2 & Hpre2 & Hall2).
    exists (new1 ++ new2). rewrite Hev2, Hev1, <- app_assoc.
    split; [reflexivity|].
    rewrite List.filter_app, (Hall1 eq_refl).
    split; [apply prefix_app; exact Hpre2|].
    intros Hret. rewrite (Hall2 Hret). reflexivity.
  - exists new1. split; [exact Hev1|].
    split; [apply prefix_app_r; exact Hpre1|discriminate].
Qed.

(** The turn of a video in the loop reads the video, once. *)
Lemma reads_video host drive_service sheets_service current_path item :
  reads
    (bind (process_video host drive_service item current_path)
       (fun log_data =>
          bind (print (MsgDataToBeLogged log_data))
            (fun _ => append_to_sheet sheets_service log_data)))
    [DriveGetMedia (item !! "id")].
Proof.
  intros w. unfold bind, print, emit.
  destruct (process_video_reads host drive_service item current_path w)
    as (new & Hev & Hreads).
  destruct (process_video host drive_service item current_path w)
    as [log_data w1|e w1]; cbn [final result] in *.
  - set (w2 := log_event (Print (MsgDataToBeLogged log_data)) w1).
    destruct (append_to_sheet_effects sheets_service log_data w2)
      as (_ & _ & steps & Hev2 & Hsteps & _).
    cbn zeta in *.
    exists (new ++ [Print (MsgDataToBeLogged log_data)] ++ steps).
    rewrite Hev2. subst w2. cbn [events log_event]. rewrite Hev.
    split; [rewrite <- !app_assoc; reflexivity|].
    rewrite !List.filter_app, Hreads, (append_steps_are_no_reads _ Hsteps).
    split; reflexivity.
  - exists new. rewrite Hreads. split; [exact Hev|]. split; reflexivity.
Qed.

(** The walk reads the tree as [first_page_reads] says. *)
Lemma reads_traverse_folder host drive_service sheets_service depth :
  forall folder_id current_path,
    reads
      (traverse_folder host depth drive_service sheets_service folder_id
         current_path)
      (first_page_reads depth drive_service folder_id).
Proof.
  induction depth as [|depth IH]; intros folder_id current_path w.
  - exists []. cbn. rewrite app_nil_r.
    split; [reflexivity|]. split; [reflexivity|discriminate].
  - cbn [traverse_folder first_page_reads].
    unfold try_except, bind, files_list_execute.
    set (q := children_query folder_id).
    destruct (files_list drive_service q None) as [error|results].
    + destruct (is_HttpError error); cbn; rewrite <- ?app_assoc;
        eexists; (split; [reflexivity|]); cbn; split; reflexivity.
    + set (expected := fun item : dict => _).
      set (body := traverse_item host _ drive_service sheets_service
                     current_path).
      destruct (reads_for_each (default [] (files results)) body expected)
        with (w := log_event (DriveList q) w)
        as (new & Hev & Hpre & Hall).
      { intros item. subst body expected. cbn beta zeta. unfold traverse_item.
        destruct (String.eqb _ folder_mime); [apply IH|].
        destruct (Py.startswith _ _); [apply reads_video|apply reads_ret]. }
      pose proof (for_each_contains_HttpError host drive_service
                    sheets_service depth current_path
                    (default [] (files results)) (log_event (DriveList q) w))
        as Hno.
      fold body in Hno.
      destruct (for_each (default [] (files results)) body _)
        as [[] w'|e w']; cbn [final result] in *.
      * exists (DriveList q :: new). rewrite Hev. cbn.
        rewrite <- app_assoc.
        split; [reflexivity|]. rewrite (Hall eq_refl).
        split; reflexivity.
      * destruct (is_HttpError e) eqn:He.
        { destruct e; try discriminate He. destruct (Hno status).
          reflexivity. }
        exists (DriveList q :: new). cbn [final result]. rewrite Hev. cbn.
        rewrite <- app_assoc. split; [reflexivity|].
        split; [apply prefix_cons; exact Hpre|discriminate].
Qed.

(** X19: the walk reads the tree depth-first and in listing order, from
    the first page of each listing.  Its listing and download requests
    are, in the order made, the first of [first_page_reads]: the listing
    of the folder, then for each entry of its first page in turn the
    requests for a sub-folder or the one download of a video, a folder
    whose listing fails adding its listing request only.  When the walk
    returns normally they are all of them: every folder met is listed
    once and every video met is asked for once. *)
Theorem walk_reads_the_first_pages_depth_first
    (host : Host) (depth : nat) (drive_service : DriveService)
    (sheets_service : SheetsService) (folder_id : option string)
    (current_path : string) (w : World) :
  let o := traverse_folder host depth drive_service sheets_service folder_id
             current_path w in
  exists new,
    events (final o) = events w ++ new
    /\ List.filter is_drive_read new
         `prefix_of` first_page_reads depth drive_service folder_id
    /\ (result o = inr tt ->
        List.filter is_drive_read new =
        first_page_reads depth drive_service folder_id).
Proof.
  cbn zeta.
  destruct (reads_traverse_folder host drive_service sheets_service depth
              folder_id current_path w) as (new & Hev & Hprefix & Hall).
  exists new. split; [exact Hev|]. split; [exact Hprefix|exact Hall].
Qed.

(** ** Start-up *)

Ltac unfold_start :=
  unfold start_bind, start_try_except, values_get_execute, files_get_execute,
    start_emit, answer, call, start_ret, start_raise, start_bind;
  cbn -[append_to_sheet traverse_folder header_row].

Section StartupProperties.

Variable host : Host.
Variable env : Environment.

(** The three checks, and [authenticate] without credentials. *)
Lemma main_checks_pass (r : Run) :
  ids_are_set host env = true -> main_checks host env r = Finished tt r.
Proof.
  unfold ids_are_set, main_checks. unfold_start.
  destruct (Builtins.endswith (START_FOLDER_ID env) _); [discriminate|].
  destruct (Builtins.endswith (THUMBNAIL_FOLDER_ID host) _); [discriminate|].
  destruct (Builtins.endswith (SPREADSHEET_ID env) _); [discriminate|].
  reflexivity.
Qed.

Lemma main_checks_fail (r : Run) :
  ids_are_set host env = false ->
  exists message, main_checks host env r = Aborted (RuntimeError message) r.
Proof.
  unfold ids_are_set, main_checks. unfold_start.
  destruct (Builtins.endswith (START_FOLDER_ID env) _);
    [intros _; eexists; reflexivity|].
  destruct (Builtins.endswith (THUMBNAIL_FOLDER_ID host) _);
    [intros _; eexists; reflexivity|].
  destruct (Builtins.endswith (SPREADSHEET_ID env) _);
    [intros _; eexists; reflexivity|].
  discriminate.
Qed.

Lemma authenticate_without_credentials (r : Run) :
  credentials_are_missing env = true ->
  exists message, authenticate env r = Aborted (RuntimeError message) r.
Proof.
  unfold credentials_are_missing, authenticate, _load_credentials.
  unfold_start.
  destruct (Py.truthy (ENV_SERVICE_ACCOUNT_JSON env)); [discriminate|].
  destruct (Py.truthy (ENV_SERVICE_ACCOUNT_FILE env)); [discriminate|].
  intros _. eexists. reflexivity.
Qed.

(** [authenticate] changes nothing. *)
Lemma authenticate_reads_only (r : Run) :
  exit_final (authenticate env r) = r.
Proof.
  unfold authenticate, _load_credentials. unfold_start.
  repeat (step; cbn); reflexivity.
Qed.

(** Once the checks have passed and [authenticate] has returned, [main]
    is the header row followed by the scan. *)
Lemma main_started (r : Run) drive_service sheets_service :
  ids_are_set host env = true ->
  authenticate env r = Finished (drive_service, sheets_service) r ->
  main host env r =
  start_bind (main_header sheets_service)
    (fun _ => main_scan host env drive_service sheets_service) r.
Proof.
  intros Hids Hauth. unfold main.
  unfold start_bind at 1. rewrite (main_checks_pass r Hids).
  unfold start_bind at 1. rewrite Hauth. reflexivity.
Qed.

(** The header row: the ways out of the [try ... except HttpError]. *)
Lemma main_header_present sheets_service (r : Run) values :
  values_get sheets_service (sheet (world r)) = inr values ->
  values_truthy values = true ->
  main_header sheets_service r = Finished tt (log_start SheetsValuesGet r).
Proof.
  intros Hget Htruthy. unfold main_header. unfold_start.
  rewrite Hget, Htruthy. reflexivity.
Qed.

Lemma main_header_absent sheets_service (r : Run) values :
  values_get sheets_service (sheet (world r)) = inr values ->
  values_truthy values = false ->
  values_append (sheets_calls sheets_service)
    (append_requests (events (world r))) = None ->
  main_header sheets_service r =
  Finished tt
    (mkRun
       (log_event (Print MsgWroteToSheet)
          (add_row header_row (log_event (SheetsAppend header_row) (world r))))
       (start_events (log_start SheetsValuesGet r))).
Proof.
  intros Hget Hfalsy Hok. unfold main_header. unfold_start.
  rewrite Hget, Hfalsy. cbn -[append_to_sheet header_row].
  unfold header_row at 1.
  rewrite (append_to_sheet_first_try _ _ _ _ Hok). reflexivity.
Qed.

Lemma main_header_HttpError sheets_service (r : Run) status :
  values_get sheets_service (sheet (world r)) = inl (HttpError status) ->
  main_header sheets_service r =
  Finished tt
    (log_start (PrintCouldNotCheckSheet (Other (HttpError status)))
       (log_start SheetsValuesGet r)).
Proof.
  intros Hget. unfold main_header. unfold_start.
  rewrite Hget. reflexivity.
Qed.

(** No [HttpError] leaves the header part, and all it can do to the world
    is what [append_to_sheet] does with the header row. *)
Lemma main_header_effects sheets_service (r : Run) :
  let o := main_header sheets_service r in
  (forall status, exit_result o <> inl (Other (HttpError status)))
  /\ (world (exit_final o) = world r
      \/ world (exit_final o) =
         final (append_to_sheet (sheets_calls sheets_service)
                  (Some header_row) (world r))).
Proof.
  cbn zeta. unfold main_header. unfold_start.
  destruct (values_get sheets_service (sheet (world r))) as [error|values].
  - destruct error; cbn -[append_to_sheet header_row];
      (split; [intros ?; discriminate|]); left; reflexivity.
  - destruct (values_truthy values); cbn -[append_to_sheet header_row].
    + split; [intros ?; discriminate|]. left; reflexivity.
    + destruct (append_to_sheet (sheets_calls sheets_service)
                  (Some header_row) (world r)) as [[] w'|e w'] eqn:Happend;
        cbn -[append_to_sheet header_row].
      * split; [intros ?; discriminate|]. right; reflexivity.
      * assert (Hno : is_append_retryable e = false).
        { apply (append_to_sheet_contains_retryable
                   (sheets_calls sheets_service) (Some header_row) (world r)).
          rewrite Happend. reflexivity. }
        destruct e; try discriminate Hno; cbn -[append_to_sheet header_row];
          (split; [intros ?; discriminate|]); right; reflexivity.
Qed.

(** The scan when the root folder cannot be looked up. *)
Lemma main_scan_no_root drive_service sheets_service (r : Run) error :
  files_get drive_service (START_FOLDER_ID env) = inl error ->
  main_scan host env drive_service sheets_service r =
  Aborted (Other error) (log_start (DriveFilesGet (START_FOLDER_ID env)) r).
Proof.
  intros Hget. unfold main_scan. unfold_start. rewrite Hget. reflexivity.
Qed.

(** The scan when the root folder is found: the walk, from its name. *)
Lemma main_scan_root drive_service sheets_service (r : Run) root :
  files_get drive_service (START_FOLDER_ID env) = inr root ->
  let o := main_scan host env drive_service sheets_service r in
  let walk :=
    traverse_folder host (recursion_limit env) (drive_calls drive_service)
      (sheets_calls sheets_service) (Some (START_FOLDER_ID env))
      (default "<root>" (root !! "name")) (world r) in
  world (exit_final o) = final walk
  /\ exit_result o =
     match result walk with
     | inr _ => inr tt
     | inl e => inl (Other e)
     end.
Proof.
  intros Hget. cbn zeta. unfold main_scan. unfold_start. rewrite Hget.
  cbn. destruct (traverse_folder _ _ _ _ _ _ _) as [[] w'|e w']; cbn;
    split; reflexivity.
Qed.

(** The scan adds to the requests and lines of [main]. *)
Lemma main_scan_log drive_service sheets_service (r : Run) :
  exists more,
    start_events
      (exit_final (main_scan host env drive_service sheets_service r))
    = start_events r ++ more.
Proof.
  unfold main_scan. unfold_start.
  destruct (files_get drive_service (START_FOLDER_ID env));
    cbn -[traverse_folder]; [eexists; reflexivity|].
  destruct (traverse_folder _ _ _ _ _ _ _) as [[] w'|e w'];
    cbn -[traverse_folder]; rewrite <- ?app_assoc; eexists; reflexivity.
Qed.

(** [main] once it has started, when the sheet can be read and the root
    folder is found: the walk, from the world the header part leaves. *)
Lemma main_outcome (r : Run) drive_service sheets_service values root :
  ids_are_set host env = true ->
  authenticate env r = Finished (drive_service, sheets_service) r ->
  values_get sheets_service (sheet (world r)) = inr values ->
  files_get drive_service (START_FOLDER_ID env) = inr root ->
  (values_truthy values = false ->
   values_append (sheets_calls sheets_service)
     (append_requests (events (world r))) = None) ->
  let before_walk :=
    if values_truthy values then world r
    else log_event (Print MsgWroteToSheet)
           (add_row header_row
              (log_event (SheetsAppend header_row) (world r))) in
  let walk :=
    traverse_folder host (recursion_limit env) (drive_calls drive_service)
      (sheets_calls sheets_service) (Some (START_FOLDER_ID env))
      (default "<root>" (root !! "name")) before_walk in
  world (exit_final (main host env r)) = final walk
  /\ exit_result (main host env r) =
     match result walk with
     | inr _ => inr tt
     | inl e => inl (Other e)
     end.
Proof.
  intros Hids Hauth Hget Hroot Hok. cbn zeta.
  rewrite (main_started r _ _ Hids Hauth). unfold start_bind.
  destruct (values_truthy values) eqn:Htruthy.
  - rewrite (main_header_present _ _ _ Hget Htruthy).
    exact (main_scan_root drive_service sheets_service
             (log_start SheetsValuesGet r) root Hroot).
  - rewrite (main_header_absent _ _ _ Hget Htruthy (Hok eq_refl)).
    match goal with
    | |- context [main_scan _ _ _ _ ?r'] =>
        exact (main_scan_root drive_service sheets_service r' root Hroot)
    end.
Qed.

End StartupProperties.

(** X14: when one of [START_FOLDER_ID], [THUMBNAIL_FOLDER_ID] and
    [SPREADSHEET_ID] ends with "_PLACEHOLDER", or when neither
    [SERVICE_ACCOUNT_JSON] nor [SERVICE_ACCOUNT_FILE] is set to a string
    that is not empty, [main] raises a [RuntimeError] and has done nothing
    before: no request, no line printed, no change of the world. *)
Theorem main_stops_before_any_request
    (host : Host) (env : Environment) (r : Run) :
  ids_are_set host env = false \/ credentials_are_missing env = true ->
  exists message, main host env r = Aborted (RuntimeError message) r.
Proof.
  intros Hbad. unfold main. unfold start_bind at 1.
  destruct (ids_are_set host env) eqn:Hids.
  - destruct Hbad as [Hbad|Hmissing]; [discriminate|].
    rewrite (main_checks_pass host env r Hids).
    unfold start_bind at 1.
    destruct (authenticate_without_credentials env r Hmissing)
      as [message ->].
    exists message. reflexivity.
  - destruct (main_checks_fail host env r Hids) as [message ->].
    exists message. reflexivity.
Qed.

(** In the example, with nothing set [main] stops at the first check;
    with the identifiers set and no credentials, it stops in
    [_load_credentials]. *)
Lemma main_stops_before_any_request_example :
  ids_are_set Example.host Office.env_unset = false
  /\ main Example.host Office.env_unset Office.start =
     Aborted (RuntimeError "Please set START_FOLDER_ID in your environment.")
       Office.start
  /\ credentials_are_missing Office.env_no_credentials = true
  /\ main Example.host Office.env_no_credentials Office.start =
     Aborted
       (RuntimeError
          "Missing credentials. Set SERVICE_ACCOUNT_JSON or SERVICE_ACCOUNT_FILE.")
       Office.start.
Proof.
  destruct (main_stops_before_any_request Example.host Office.env_unset
              Office.start (or_introl eq_refl)) as [message1 H1].
  destruct (main_stops_before_any_request Example.host
              Office.env_no_credentials Office.start (or_intror eq_refl))
    as [message2 H2].
  split; [reflexivity|]. split.
  - rewrite H1. f_equal. pose proof H1 as H. vm_compute in H.
    injection H as <-. reflexivity.
  - split; [reflexivity|].
    rewrite H2. f_equal. pose proof H2 as H. vm_compute in H.
    injection H as <-. reflexivity.
Defined.

(** X15: [main], once the checks have passed, [authenticate] has
    returned, the sheet has been read and the root folder found.  When the
    sheet reports values, what [main] does to the world is the walk from
    the root folder, under the folder's name (or "<root>" when it has
    none).  When the sheet reports none and accepts the first request,
    the header row is written first: the walk starts from a sheet that
    holds the header as its new last row, and all the rows added after it
    hold paths below the root name. *)
Theorem main_writes_the_header_to_an_empty_sheet
    (host : Host) (env : Environment) (r : Run)
    (drive_service : DriveClient) (sheets_service : SheetsClient)
    (values : option (list (list string))) (root : dict) :
  ids_are_set host env = true ->
  authenticate env r = Finished (drive_service, sheets_service) r ->
  values_get sheets_service (sheet (world r)) = inr values ->
  files_get drive_service (START_FOLDER_ID env) = inr root ->
  let root_name := default "<root>" (root !! "name") in
  let walk :=
    traverse_folder host (recursion_limit env) (drive_calls drive_service)
      (sheets_calls sheets_service) (Some (START_FOLDER_ID env)) root_name in
  let after := world (exit_final (main host env r)) in
  (values_truthy values = true -> after = final (walk (world r)))
  /\ (values_truthy values = false ->
      values_append (sheets_calls sheets_service)
        (append_requests (events (world r))) = None ->
      exists with_header rows,
        sheet with_header = sheet (world r) ++ [header_row]
        /\ thumbnails with_header = thumbnails (world r)
        /\ after = final (walk with_header)
        /\ sheet after = sheet (world r) ++ header_row :: rows
        /\ Forall (row_from root_name) rows).
Proof.
  intros Hids Hauth Hget Hroot root_name walk after. split.
  - intros Htruthy.
    destruct (main_outcome host env r _ _ _ _ Hids Hauth Hget Hroot)
      as [Hw _]; [rewrite Htruthy; discriminate|].
    cbn zeta in Hw. rewrite Htruthy in Hw. exact Hw.
  - intros Hfalsy Hok.
    destruct (main_outcome host env r _ _ _ _ Hids Hauth Hget Hroot)
      as [Hw _]; [intros _; exact Hok|].
    cbn zeta in Hw. rewrite Hfalsy in Hw.
    set (with_header := log_event (Print MsgWroteToSheet) _) in *.
    destruct (walk_rows host (recursion_limit env) (drive_calls drive_service)
                (sheets_calls sheets_service) (Some (START_FOLDER_ID env))
                root_name with_header) as (rows & Hrows & Hall).
    exists with_header, rows.
    split; [reflexivity|]. split; [reflexivity|]. split; [exact Hw|].
    split; [|exact Hall].
    subst after. rewrite Hw. fold root_name. rewrite Hrows.
    subst with_header. cbn. rewrite <- app_assoc. reflexivity.
Qed.

(** In the example, the sheet is empty: after [main] it holds the
    header row and the row of "a.mp4", found in "Root/Clips". *)
Lemma main_writes_the_header_to_an_empty_sheet_example :
  let after := world (exit_final (main Example.host Office.env Office.start)) in
  ids_are_set Example.host Office.env = true
  /\ values_get Office.sheets [] = inr None
  /\ files_get Office.drive "root" = inr {[ "name" := "Root" ]}
  /\ sheet after = [header_row; Office.clip_row].
Proof.
  cbn zeta.
  destruct (main_writes_the_header_to_an_empty_sheet Example.host Office.env
              Office.start Office.drive Office.sheets None
              {[ "name" := "Root" ]} eq_refl eq_refl eq_refl eq_refl)
    as [_ Hempty].
  destruct (Hempty eq_refl eq_refl)
    as (with_header & rows & _ & _ & _ & Hsheet & _).
  split; [reflexivity|]. split; [reflexivity|]. split; [reflexivity|].
  rewrite Hsheet. cbn [app sheet world Office.start Example.empty_world].
  f_equal. pose proof Hsheet as H. vm_compute in H.
  injection H as H. rewrite <- H. reflexivity.
Defined.

(** X16: the lookup of the root folder is outside every [try].  When it
    fails, with an [HttpError] or any other error, [main] does not end
    normally; when the header part has returned, [main] raises that very
    error.  No folder is listed and no video asked for: all the world has
    seen are the requests, waits and lines of [append_to_sheet] for the
    header row. *)
Theorem main_stops_when_the_root_folder_is_not_found
    (host : Host) (env : Environment) (r : Run)
    (drive_service : DriveClient) (sheets_service : SheetsClient)
    (error : exn) :
  ids_are_set host env = true ->
  authenticate env r = Finished (drive_service, sheets_service) r ->
  files_get drive_service (START_FOLDER_ID env) = inl error ->
  let header := main_header sheets_service r in
  let o := main host env r in
  (exists e, exit_result o = inl e)
  /\ (exit_result header = inr tt -> exit_result o = inl (Other error))
  /\ exists new,
       events (world (exit_final o)) = events (world r) ++ new
       /\ forallb is_append_step new = true.
Proof.
  intros Hids Hauth Hroot header o. subst o.
  rewrite (main_started host env r _ _ Hids Hauth). unfold start_bind.
  destruct (main_header_effects sheets_service r) as [_ Hworld].
  cbn zeta in Hworld. fold header in Hworld |- *.
  assert (Hnew : exists new,
            events (world (exit_final header)) = events (world r) ++ new
            /\ forallb is_append_step new = true).
  { destruct Hworld as [-> | ->].
    - exists []. rewrite app_nil_r. split; reflexivity.
    - destruct (append_to_sheet_effects (sheets_calls sheets_service)
                  (Some header_row) (world r))
        as (_ & _ & new & Hev & Hsteps & _).
      exists new. split; assumption. }
  destruct header as [[] r'|e r']; cbn [exit_result exit_final] in *.
  - rewrite (main_scan_no_root host env _ _ _ _ Hroot).
    cbn [exit_result exit_final log_start world].
    split; [eexists; reflexivity|]. split; [reflexivity|]. exact Hnew.
  - split; [eexists; reflexivity|]. split; [discriminate|]. exact Hnew.
Qed.

(** In the example, the start folder does not exist: [main] writes the
    header row, raises the 404 of the lookup, and lists no folder. *)
Lemma main_stops_when_the_root_folder_is_not_found_example :
  let o := main Example.host Office.env_wrong_folder Office.start in
  files_get Office.drive "nowhere" = inl (HttpError 404)
  /\ exit_result o = inl (Other (HttpError 404))
  /\ sheet (world (exit_final o)) = [header_row]
  /\ List.filter (fun e => match e with
                           | DriveList _ => true
                           | _ => false
                           end) (events (world (exit_final o))) = [].
Proof.
  cbn zeta.
  destruct (main_stops_when_the_root_folder_is_not_found Example.host
              Office.env_wrong_folder Office.start Office.drive Office.sheets
              (HttpError 404) eq_refl eq_refl eq_refl) as (_ & Hres & _).
  split; [reflexivity|]. split; [apply Hres; vm_compute; reflexivity|].
  vm_compute. split; reflexivity.
Defined.

(** X17: once the checks have passed, [authenticate] has returned and
    the root folder is found, no [HttpError] leaves [main].  In
    particular, when reading the sheet fails with an [HttpError], the
    error is printed, no header row is written, and the walk runs from the
    world as it was. *)
Theorem main_raises_no_HttpError_once_the_root_is_found
    (host : Host) (env : Environment) (r : Run)
    (drive_service : DriveClient) (sheets_service : SheetsClient)
    (root : dict) :
  ids_are_set host env = true ->
  authenticate env r = Finished (drive_service, sheets_service) r ->
  files_get drive_service (START_FOLDER_ID env) = inr root ->
  let walk :=
    traverse_folder host (recursion_limit env) (drive_calls drive_service)
      (sheets_calls sheets_service) (Some (START_FOLDER_ID env))
      (default "<root>" (root !! "name")) in
  let o := main host env r in
  (forall status, exit_result o <> inl (Other (HttpError status)))
  /\ forall status,
       values_get sheets_service (sheet (world r)) = inl (HttpError status) ->
       world (exit_final o) = final (walk (world r))
       /\ In (PrintCouldNotCheckSheet (Other (HttpError status)))
            (map snd (start_events (exit_final o))).
Proof.
  intros Hids Hauth Hroot walk o. subst o.
  rewrite (main_started host env r _ _ Hids Hauth). unfold start_bind.
  split.
  - intros status.
    destruct (main_header_effects sheets_service r) as [Hno _].
    cbn zeta in Hno.
    destruct (main_header sheets_service r) as [[] r'|e r'];
      cbn [exit_result] in *; [|exact (Hno status)].
    destruct (main_scan_root host env drive_service sheets_service r' root
                Hroot) as [_ Hres].
    cbn zeta in Hres. rewrite Hres.
    destruct (traverse_folder _ _ _ _ _ _ _) as [[] w'|e w'] eqn:Hwalk;
      cbn [result]; [discriminate|].
    intros [= ->].
    apply (traverse_folder_contains_HttpError host
             (drive_calls drive_service) (sheets_calls sheets_service)
             (recursion_limit env) (Some (START_FOLDER_ID env))
             (default "<root>" (root !! "name")) (world r') status).
    rewrite Hwalk. reflexivity.
  - intros status Hget. rewrite (main_header_HttpError _ _ _ Hget).
    match goal with
    | |- context [main_scan _ _ _ _ ?r'] =>
        destruct (main_scan_root host env drive_service sheets_service r'
                    root Hroot) as [Hw _];
        destruct (main_scan_log host env drive_service sheets_service r')
          as [more Hlog]
    end.
    split; [exact Hw|].
    rewrite Hlog, map_app. apply in_or_app. left.
    cbn. rewrite map_app. apply in_or_app. right. left. reflexivity.
Qed.

(** In the example, the sheet cannot be read (403): [main] prints the
    error, runs the walk and ends normally, with the row of "a.mp4" and no
    header. *)
Lemma main_raises_no_HttpError_once_the_root_is_found_example :
  let o := main Example.host Office.env_unreadable_sheet Office.start in
  values_get Office.sheets_unreadable [] = inl (HttpError 403)
  /\ exit_result o = inr tt
  /\ sheet (world (exit_final o)) = [Office.clip_row]
  /\ In (PrintCouldNotCheckSheet (Other (HttpError 403)))
       (map snd (start_events (exit_final o))).
Proof.
  cbn zeta.
  destruct (main_raises_no_HttpError_once_the_root_is_found Example.host
              Office.env_unreadable_sheet Office.start Office.drive
              Office.sheets_unreadable {[ "name" := "Root" ]}
              eq_refl eq_refl eq_refl) as [_ Hcheck].
  destruct (Hcheck 403%Z eq_refl) as [_ Hprinted].
  split; [reflexivity|]. split; [vm_compute; reflexivity|].
  split; [vm_compute; reflexivity|]. exact Hprinted.
Defined.

(** X18: two runs of [main], the second started where the first ended,
    on a sheet that is empty at first, with a Sheets service that accepts
    every append and reports values exactly when the sheet holds a row.
    The first run writes the header row and then the rows of the walk;
    the second run finds the sheet not empty, writes no header, and adds
    the rows of the walk once more.  Both runs end the same way. *)
Theorem main_twice_writes_the_header_once
    (host : Host) (env : Environment) (r : Run)
    (drive_service : DriveClient) (sheets_service : SheetsClient)
    (root : dict) :
  ids_are_set host env = true ->
  (forall r',
     authenticate env r' = Finished (drive_service, sheets_service) r') ->
  files_get drive_service (START_FOLDER_ID env) = inr root ->
  (forall n, values_append (sheets_calls sheets_service) n = None) ->
  (forall rows,
     exists values,
       values_get sheets_service rows = inr values
       /\ values_truthy values = negb (Nat.eqb (length rows) 0)) ->
  sheet (world r) = [] ->
  let first := main host env r in
  let second := main host env (exit_final first) in
  exists rows,
    sheet (world (exit_final first)) = header_row :: rows
    /\ sheet (world (exit_final second)) = header_row :: rows ++ rows
    /\ exit_result second = exit_result first.
Proof.
  intros Hids Hauth Hroot Hok Hhonest Hempty first second.
  destruct (Hhonest (sheet (world r))) as (values1 & Hget1 & Htruthy1).
  rewrite Hempty in Htruthy1. cbn in Htruthy1.
  destruct (main_outcome host env r _ _ _ _ Hids (Hauth r) Hget1 Hroot)
    as [Hw1 Hres1]; [intros _; apply Hok|].
  cbn zeta in Hw1, Hres1. rewrite Htruthy1 in Hw1, Hres1.
  fold first in Hw1, Hres1.
  set (with_header := log_event (Print MsgWroteToSheet) _) in *.
  set (walk := traverse_folder host (recursion_limit env)
                 (drive_calls drive_service) (sheets_calls sheets_service)
                 (Some (START_FOLDER_ID env))
                 (default "<root>" (root !! "name"))) in *.
  destruct (oblivious_traverse_folder host (recursion_limit env)
              (drive_calls drive_service) (sheets_calls sheets_service) Hok
              (Some (START_FOLDER_ID env)) (default "<root>" (root !! "name"))
              with_header (world (exit_final first)))
    as (Hres & nt & rows & _ & _ & Hs1 & Hs2).
  fold walk in Hres, Hs1, Hs2.
  assert (Hsheet1 : sheet (world (exit_final first)) = header_row :: rows).
  { rewrite Hw1, Hs1. subst with_header. cbn. rewrite Hempty. reflexivity. }
  destruct (Hhonest (sheet (world (exit_final first))))
    as (values2 & Hget2 & Htruthy2).
  rewrite Hsheet1 in Htruthy2. cbn in Htruthy2.
  destruct (main_outcome host env (exit_final first) _ _ _ _ Hids
              (Hauth _) Hget2 Hroot) as [Hw2 Hres2];
    [intros _; apply Hok|].
  cbn zeta in Hw2, Hres2. rewrite Htruthy2 in Hw2, Hres2.
  fold second walk in Hw2, Hres2.
  exists rows. split; [exact Hsheet1|]. split.
  - rewrite Hw2, Hs2, Hsheet1. reflexivity.
  - rewrite Hres2, Hres1, Hres. reflexivity.
Qed.

(** In the example, two runs of [main] leave the header row once and the
    row of "a.mp4" twice. *)
Lemma main_twice_writes_the_header_once_example :
  let first := main Example.host Office.env Office.start in
  let second := main Example.host Office.env (exit_final first) in
  sheet (world Office.start) = []
  /\ sheet (world (exit_final first)) = [header_row; Office.clip_row]
  /\ sheet (world (exit_final second)) =
       [header_row; Office.clip_row; Office.clip_row].
Proof.
  cbn zeta.
  destruct (main_twice_writes_the_header_once Example.host Office.env
              Office.start Office.drive Office.sheets {[ "name" := "Root" ]})
    as (rows & H1 & H2 & _).
  - reflexivity.
  - intros r'. reflexivity.
  - reflexivity.
  - intros n. reflexivity.
  - intros [|row rows]; eexists; split; reflexivity.
  - reflexivity.
  - cbn zeta in *.
    assert (Hrows : rows = [Office.clip_row]).
    { pose proof H1 as H. vm_compute in H. injection H as H. symmetry.
      exact H. }
    split; [reflexivity|]. split; [rewrite H1, Hrows; reflexivity|].
    rewrite H2, Hrows. reflexivity.
Defined.
